(** * Audiobookshelf finished-media cleanup (v2, v3, v4): a shallow embedding

    The three scripts [abs-cleanup-finished-episodes-v2.py], [-v3.py] and
    [-v4.py] are one linear pipeline each: read the user's progress, scan
    the catalogue into a lookup, intersect, delete.  The media server is an
    external black box with a fixed JSON schema, so

    - JSON objects are records.  A key the code reads with [.get(key)] and
      then only tests or passes on is an [option] field: an absent key and a
      [null] both read as [None].  A key it reads with [.get(key, default)]
      is a [field], absent, [null] or a value: the default stands in for an
      absent key only, a [null] comes back as [None], and the code then
      iterates it, measures it or reads a key of it, which raises.  The keys
      the code indexes ([library['id']], [library['name']], [item['id']]) and
      the type of every value that is not [null] are the schema; a response
      that breaks it is outside the model;
    - a Python [set] of identifiers is a [gset string], iterated through
      [elements] (an order fixed by the set, unspecified to the program);
    - [episode_map], which is only probed by key, is a [gmap]; the audiobook
      dict, which is iterated, is an insertion-ordered association list;
    - the HTTP session is a state machine: GET handlers read the server
      state, DELETE changes it and may raise; the client keeps the list of
      DELETE requests it has sent;
    - a naive [datetime] is an integer, the microseconds of a date and time
      on the local calendar, and a [timedelta] is a number of microseconds.
      What the machine makes of a stamp and what its clock reads are
      parameters of a run ([V4.Clock]): the scripts see the zone of the
      machine, the rounding of [ms / 1000] and the range of [datetime] only
      through [datetime.fromtimestamp] and [datetime.now];
    - logging is dropped except for the final summary line, and for the
      values a log line computes where computing them can raise. *)

From stdpp Require Import base option list gmap strings pretty fin_sets fin_maps.
From Stdlib Require Import ZArith Lia.

(** ** Python truthiness *)

Class Truthy (A : Type) := truthy : A → bool.

#[global] Instance bool_truthy : Truthy bool := λ b, b.
#[global] Instance string_truthy : Truthy string :=
  λ s, match s with EmptyString => false | String _ _ => true end.
#[global] Instance Z_truthy : Truthy Z := λ z, negb (z =? 0)%Z.
#[global] Instance option_truthy {A} `{Truthy A} : Truthy (option A) :=
  λ o, match o with None => false | Some a => truthy a end.
#[global] Instance list_truthy {A} : Truthy (list A) :=
  λ l, match l with [] => false | _ :: _ => true end.
#[global] Instance gset_truthy : Truthy (gset string) :=
  λ X, truthy (elements X).

(** ** Exceptions *)

(** [requests.exceptions.HTTPError] (raised by [raise_for_status]) and any
    other [Exception] (connection errors, timeouts, bad JSON, and the
    [TypeError], [AttributeError], [ValueError] and [OverflowError] of the
    scripts' own code). *)
Inductive exn := HTTPError | OtherException.

Inductive result (A : Type) :=
  | Ok (a : A)
  | Raise (e : exn).
Arguments Ok {A} a.
Arguments Raise {A} e.

#[global] Instance result_ret : MRet result := λ A a, Ok a.
#[global] Instance result_bind : MBind result :=
  λ A B f r, match r with Ok a => f a | Raise e => Raise e end.

(** [for x in xs: acc = body(acc, x)] where the body may raise. *)
Fixpoint for_each {A B} (body : A → B → result A) (acc : A) (xs : list B)
  : result A :=
  match xs with
  | [] => Ok acc
  | x :: rest => acc' ← body acc x; for_each body acc' rest
  end.

(** ** JSON documents of the server API *)

(** A key that is read with a default. *)
Inductive field (A : Type) :=
  | Absent
  | Null
  | Value (a : A).
Arguments Absent {A}.
Arguments Null {A}.
Arguments Value {A} a.

(** [d.get(key, default)]; the result [None] is Python's [None]. *)
Definition dict_get {A} (f : field A) (default : A) : option A :=
  match f with
  | Absent => Some default
  | Null => None
  | Value a => Some a
  end.

(** The use of a value as a dict, as a list or as something with a length:
    [None.get(...)] is an [AttributeError], [for x in None], [len(None)] and
    ['KEEP' in None] are [TypeError]s. *)
Definition not_none {A} (v : option A) : result A :=
  match v with
  | Some a => Ok a
  | None => Raise OtherException
  end.

Record Progress := {
  isFinished : option bool;
  episodeId : option string;
  libraryItemId : option string }.

Record UserData := { mediaProgress : field (list Progress) }.

Record Library := {
  lib_id : string;
  lib_name : string;
  mediaType : option string }.

Record LibrariesResp := { libraries : field (list Library) }.

Record Item := { item_id : string }.

(** The listing also carries its paging fields, which the client ignores. *)
Record ItemsResp := {
  results : field (list Item);
  total : nat;
  limit : nat;
  page : nat }.

Record Episode := {
  ep_id : option string;
  ep_title : field string;
  ep_addedAt : option Z }.

Record Metadata := {
  title : field string;
  authorName : field string }.

Record Media := {
  metadata : field Metadata;
  tags : field (list string);
  episodes : field (list Episode) }.

Record FullItem := {
  media : field Media;
  addedAt : option Z }.

(** The empty dict [{}] used as a [.get] default. *)
Definition no_metadata : Metadata := {| title := Absent; authorName := Absent |}.
Definition no_media : Media :=
  {| metadata := Absent; tags := Absent; episodes := Absent |}.

(** ** The HTTP interface *)

Definition query := list (string * string).

(** The two DELETE endpoints:
    [/api/podcasts/{library_item_id}/episode/{episode_id}] and
    [/api/items/{library_item_id}]. *)
Inductive Endpoint :=
  | PodcastEpisode (library_item_id episode_id : string)
  | LibraryItem (library_item_id : string).

Record DeleteRequest := {
  dr_endpoint : Endpoint;
  dr_params : query }.

#[global] Instance Endpoint_eq_dec : EqDecision Endpoint.
Proof. solve_decision. Defined.
#[global] Instance DeleteRequest_eq_dec : EqDecision DeleteRequest.
Proof. solve_decision. Defined.

(** The library item a DELETE request is addressed to. *)
Definition target (r : DeleteRequest) : string :=
  match dr_endpoint r with
  | PodcastEpisode library_item_id _ => library_item_id
  | LibraryItem library_item_id => library_item_id
  end.

(** A server: GET handlers are reads of its state, DELETE is a transition
    with a status.  Every handler takes the query parameters. *)
Class ABSServer (Srv : Type) := {
  api_me : Srv → query → result UserData;
  api_libraries : Srv → query → result LibrariesResp;
  api_library_items : Srv → string → query → result ItemsResp;
  api_item : Srv → string → query → result FullItem;
  api_delete : Srv → DeleteRequest → Srv * result unit }.

Section Client.
Context {Srv : Type} `{ABSServer Srv}.

(** The client session: the server it talks to and the DELETE requests it
    has sent, oldest first. *)
Record World := {
  server : Srv;
  sent : list DeleteRequest }.

Definition _delete (endpoint : Endpoint) (params : query) (w : World)
  : World * result unit :=
  let req := {| dr_endpoint := endpoint; dr_params := params |} in
  let '(s', response) := api_delete (server w) req in
  ({| server := s'; sent := sent w ++ [req] |}, response).

Definition get_user_with_progress (s : Srv) : result UserData :=
  api_me s [].

(** The value returned is a list, or [None] for a [null]. *)
Definition get_libraries (s : Srv) : result (option (list Library)) :=
  data ← api_libraries s [];
  mret (dict_get (libraries data) []).

(** The comprehension iterates over what [get_libraries] returns. *)
Definition get_podcast_libraries (s : Srv) : result (list Library) :=
  libs ← get_libraries s;
  libs ← not_none libs;
  mret (filter (λ lib, mediaType lib = Some "podcast") libs).

Definition get_book_libraries (s : Srv) : result (list Library) :=
  libs ← get_libraries s;
  libs ← not_none libs;
  mret (filter (λ lib, mediaType lib = Some "book") libs).

(** The value returned is a list, or [None] for a [null]. *)
Definition get_library_items (s : Srv) (library_id : string)
  : result (option (list Item)) :=
  data ← api_library_items s library_id [];
  mret (dict_get (results data) []).

Definition get_library_item (s : Srv) (library_item_id : string)
  : result FullItem :=
  api_item s library_item_id [("expanded", "1")].

Definition delete_episode (library_item_id episode_id : string)
    (hard_delete : bool) (w : World) : World * result bool :=
  let params := if hard_delete then [("hard", "1")] else [] in
  let '(w', r) := _delete (PodcastEpisode library_item_id episode_id) params w in
  (w', _ ← r; mret true).

Definition delete_library_item (library_item_id : string)
    (hard_delete : bool) (w : World) : World * result bool :=
  let params := if hard_delete then [("hard", "1")] else [] in
  let '(w', r) := _delete (LibraryItem library_item_id) params w in
  (w', _ ← r; mret true).
End Client.

Arguments World Srv : clear implicits.

(** ** Progress scan *)

(** v3 and v4 (the function is the same text in both).  The loop iterates
    over what [.get('mediaProgress', [])] returns. *)
Definition get_finished_media (user_data : UserData)
  : result (gset string * gset string) :=
  media_progress ← not_none (dict_get (mediaProgress user_data) []);
  mret
    (foldl (λ (acc : gset string * gset string) (progress : Progress),
              let '(finished_episodes, finished_audiobooks) := acc in
              if truthy (isFinished progress) then
                if truthy (episodeId progress) then
                  ({[default "" (episodeId progress)]} ∪ finished_episodes,
                   finished_audiobooks)
                else if truthy (libraryItemId progress) then
                  (finished_episodes,
                   {[default "" (libraryItemId progress)]}
                     ∪ finished_audiobooks)
                else (finished_episodes, finished_audiobooks)
              else (finished_episodes, finished_audiobooks))
           (∅, ∅) media_progress).

(** v2. *)
Definition get_finished_episode_ids (user_data : UserData)
  : result (gset string) :=
  media_progress ← not_none (dict_get (mediaProgress user_data) []);
  mret
    (foldl (λ finished progress,
              if truthy (isFinished progress) && truthy (episodeId progress)
              then {[default "" (episodeId progress)]} ∪ finished
              else finished)
           ∅ media_progress).

(** ** Python dicts that are iterated: insertion-ordered association lists *)

(** [d[k] = v]: a present key keeps its position and takes the new value, a
    new key goes to the end. *)
Fixpoint dict_set {V} (k : string) (v : V) (d : list (string * V))
  : list (string * V) :=
  match d with
  | [] => [(k, v)]
  | (k', v') :: rest =>
      if decide (k = k') then (k, v) :: rest
      else (k', v') :: dict_set k v rest
  end.

Definition dict_keys {V} (d : list (string * V)) : list string := d.*1.
Definition dict_values {V} (d : list (string * V)) : list V := d.*2.

(** ** Version 2 (podcasts only) *)

Module V2.

(** Values of [episode_map].  A title is a string, or [None] where the
    server sends a [null]. *)
Record EpData := {
  library_item_id : string;
  podcast_title : option string;
  episode_title : option string }.

Record EpisodeToDelete := {
  episode_id : string;
  ep_data : EpData }.

(** The counts of the line "Cleanup complete: ...". *)
Record Summary := {
  deleted_count : nat;
  failed_count : nat }.

(** [Returned]: one of the two early [return]s, without a summary. *)
Inductive Outcome :=
  | Exit (code : Z)
  | Uncaught (e : exn)
  | Returned
  | Completed (summary : Summary).

Section Main.
Context {Srv : Type} `{ABSServer Srv}.

Definition scan_episode (library_item_id : string)
    (podcast_title : option string)
    (episode_map : gmap string EpData) (episode : Episode)
  : gmap string EpData :=
  let episode_id := ep_id episode in
  let episode_title := dict_get (ep_title episode) "Unknown Episode" in
  if truthy episode_id then
    <[default "" episode_id :=
        {| library_item_id := library_item_id;
           podcast_title := podcast_title;
           episode_title := episode_title |}]> episode_map
  else episode_map.

(** The body of [for item in items].  The [try] covers the request and the
    read of [media]; what follows it is not guarded. *)
Definition scan_podcast (s : Srv) (episode_map : gmap string EpData)
    (item : Item) : result (gmap string EpData) :=
  let library_item_id := item_id item in
  match get_library_item s library_item_id with
  | Raise _ => Ok episode_map
  | Ok full_item =>
      media ← not_none (dict_get (media full_item) no_media);
      metadata ← not_none (dict_get (metadata media) no_metadata);
      let podcast_title := dict_get (title metadata) "Unknown Podcast" in
      tags ← not_none (dict_get (tags media) []);
      if bool_decide ("KEEP" ∈ tags) then Ok episode_map
      else
        episodes ← not_none (dict_get (episodes media) []);
        Ok (foldl (scan_episode library_item_id podcast_title)
                  episode_map episodes)
  end.

Definition build_episode_map (s : Srv) : result (gmap string EpData) :=
  libs ← get_podcast_libraries s;
  for_each (λ episode_map library,
              items ← get_library_items s (lib_id library);
              items ← not_none items;
              for_each (scan_podcast s) episode_map items)
           ∅ libs.

(** The loop of [main] that fills [episodes_to_delete]. *)
Definition select_episodes (finished_episode_ids : gset string)
    (episode_map : gmap string EpData) : list EpisodeToDelete :=
  foldl (λ (episodes_to_delete : list EpisodeToDelete) (episode_id : string),
           match episode_map !! episode_id with
           | None => episodes_to_delete
           | Some ep_data =>
               episodes_to_delete ++
                 [{| episode_id := episode_id; ep_data := ep_data |}]
           end)
        [] (elements finished_episode_ids).

Definition count_deleted (c : Summary) : Summary :=
  {| deleted_count := S (deleted_count c); failed_count := failed_count c |}.
Definition count_failed (c : Summary) : Summary :=
  {| deleted_count := deleted_count c; failed_count := S (failed_count c) |}.

Fixpoint delete_episodes (dry_run : bool)
    (episodes_to_delete : list EpisodeToDelete)
    (w : World Srv) (c : Summary) : World Srv * Summary :=
  match episodes_to_delete with
  | [] => (w, c)
  | ep :: rest =>
      if dry_run then delete_episodes dry_run rest w (count_deleted c)
      else
        match delete_episode (library_item_id (ep_data ep))
                             (episode_id ep) true w with
        | (w', Ok _) => delete_episodes dry_run rest w' (count_deleted c)
        | (w', Raise HTTPError) =>
            delete_episodes dry_run rest w' (count_failed c)
        | (w', Raise OtherException) =>
            delete_episodes dry_run rest w' (count_failed c)
        end
  end.

(** [main] once the settings are read (lines 209 to 274 of the script), for
    the [dry_run] they hold.  The settings, with the exit for a missing
    ABS_URL or ABS_TOKEN, are read in [Settings.main_v2], which embeds [main]
    whole. *)
Definition main (dry_run : bool) (w : World Srv) : World Srv * Outcome :=
  match get_user_with_progress (server w) with
  | Raise HTTPError => (w, Exit 1)
  | Raise e => (w, Uncaught e)
  | Ok user_data =>
      match get_finished_episode_ids user_data with
      | Raise e => (w, Uncaught e)
      | Ok finished_episode_ids =>
          if negb (truthy finished_episode_ids) then (w, Returned)
          else
            match build_episode_map (server w) with
            | Raise e => (w, Uncaught e)
            | Ok episode_map =>
                let episodes_to_delete :=
                  select_episodes finished_episode_ids episode_map in
                if negb (truthy episodes_to_delete) then (w, Returned)
                else
                  let '(w', c) :=
                    delete_episodes dry_run episodes_to_delete w
                      {| deleted_count := 0; failed_count := 0 |} in
                  (w', Completed c)
            end
      end
  end.
End Main.

End V2.

(** ** Version 3 (podcasts and audiobooks, no age filter) *)

Module V3.

(** Values of [episode_map]: the same keys as in v2. *)
Record EpData := {
  library_item_id : string;
  podcast_title : option string;
  episode_title : option string }.

(** Values of [audiobook_map]. *)
Record AbData := {
  ab_library_item_id : string;
  audiobook_title : option string;
  author_name : option string }.

Record EpisodeToDelete := {
  episode_id : string;
  ep_data : EpData }.

Record Totals := {
  total_deleted : nat;
  total_failed : nat }.

Inductive Outcome :=
  | Exit (code : Z)
  | Uncaught (e : exn)
  | Completed (summary : Totals).

Record Config := {
  dry_run : bool;
  media_type : string }.

Section Main.
Context {Srv : Type} `{ABSServer Srv}.

Definition scan_episode (library_item_id : string)
    (podcast_title : option string)
    (episode_map : gmap string EpData) (episode : Episode)
  : gmap string EpData :=
  let episode_id := ep_id episode in
  let episode_title := dict_get (ep_title episode) "Unknown Episode" in
  if truthy episode_id then
    <[default "" episode_id :=
        {| library_item_id := library_item_id;
           podcast_title := podcast_title;
           episode_title := episode_title |}]> episode_map
  else episode_map.

Definition scan_podcast (s : Srv) (episode_map : gmap string EpData)
    (item : Item) : result (gmap string EpData) :=
  let library_item_id := item_id item in
  match get_library_item s library_item_id with
  | Raise _ => Ok episode_map
  | Ok full_item =>
      media ← not_none (dict_get (media full_item) no_media);
      metadata ← not_none (dict_get (metadata media) no_metadata);
      let podcast_title := dict_get (title metadata) "Unknown Podcast" in
      tags ← not_none (dict_get (tags media) []);
      if bool_decide ("KEEP" ∈ tags) then Ok episode_map
      else
        episodes ← not_none (dict_get (episodes media) []);
        Ok (foldl (scan_episode library_item_id podcast_title)
                  episode_map episodes)
  end.

Definition build_episode_map (s : Srv) : result (gmap string EpData) :=
  libs ← get_podcast_libraries s;
  for_each (λ episode_map library,
              items ← get_library_items s (lib_id library);
              items ← not_none items;
              for_each (scan_podcast s) episode_map items)
           ∅ libs.

Definition scan_audiobook (s : Srv) (finished_audiobook_ids : gset string)
    (audiobook_map : list (string * AbData)) (item : Item)
  : result (list (string * AbData)) :=
  let library_item_id := item_id item in
  if bool_decide (library_item_id ∉ finished_audiobook_ids)
  then Ok audiobook_map
  else
    match get_library_item s library_item_id with
    | Raise _ => Ok audiobook_map
    | Ok full_item =>
        media ← not_none (dict_get (media full_item) no_media);
        metadata ← not_none (dict_get (metadata media) no_metadata);
        let audiobook_title := dict_get (title metadata) "Unknown Audiobook" in
        let author_name := dict_get (authorName metadata) "Unknown Author" in
        tags ← not_none (dict_get (tags media) []);
        if bool_decide ("KEEP" ∈ tags) then Ok audiobook_map
        else
          Ok (dict_set library_item_id
                {| ab_library_item_id := library_item_id;
                   audiobook_title := audiobook_title;
                   author_name := author_name |}
                audiobook_map)
    end.

Definition build_audiobook_map (s : Srv)
    (finished_audiobook_ids : gset string)
  : result (list (string * AbData)) :=
  libs ← get_book_libraries s;
  for_each (λ audiobook_map library,
              items ← get_library_items s (lib_id library);
              items ← not_none items;
              for_each (scan_audiobook s finished_audiobook_ids)
                       audiobook_map items)
           [] libs.

Definition select_episodes (finished_episode_ids : gset string)
    (episode_map : gmap string EpData) : list EpisodeToDelete :=
  foldl (λ (episodes_to_delete : list EpisodeToDelete) (episode_id : string),
           match episode_map !! episode_id with
           | None => episodes_to_delete
           | Some ep_data =>
               episodes_to_delete ++
                 [{| episode_id := episode_id; ep_data := ep_data |}]
           end)
        [] (elements finished_episode_ids).

Definition count_deleted (t : Totals) : Totals :=
  {| total_deleted := S (total_deleted t); total_failed := total_failed t |}.
Definition count_failed (t : Totals) : Totals :=
  {| total_deleted := total_deleted t; total_failed := S (total_failed t) |}.

Fixpoint delete_episodes (dry_run : bool)
    (episodes_to_delete : list EpisodeToDelete)
    (w : World Srv) (t : Totals) : World Srv * Totals :=
  match episodes_to_delete with
  | [] => (w, t)
  | ep :: rest =>
      if dry_run then delete_episodes dry_run rest w (count_deleted t)
      else
        match delete_episode (library_item_id (ep_data ep))
                             (episode_id ep) true w with
        | (w', Ok _) => delete_episodes dry_run rest w' (count_deleted t)
        | (w', Raise HTTPError) =>
            delete_episodes dry_run rest w' (count_failed t)
        | (w', Raise OtherException) =>
            delete_episodes dry_run rest w' (count_failed t)
        end
  end.

Fixpoint delete_audiobooks (dry_run : bool)
    (audiobooks : list AbData)
    (w : World Srv) (t : Totals) : World Srv * Totals :=
  match audiobooks with
  | [] => (w, t)
  | ab :: rest =>
      if dry_run then delete_audiobooks dry_run rest w (count_deleted t)
      else
        match delete_library_item (ab_library_item_id ab) true w with
        | (w', Ok _) => delete_audiobooks dry_run rest w' (count_deleted t)
        | (w', Raise HTTPError) =>
            delete_audiobooks dry_run rest w' (count_failed t)
        | (w', Raise OtherException) =>
            delete_audiobooks dry_run rest w' (count_failed t)
        end
  end.

Definition process_podcast_episodes (cfg : Config)
    (finished_episode_ids : gset string) (w : World Srv) (t : Totals)
  : World Srv * result Totals :=
  match build_episode_map (server w) with
  | Raise e => (w, Raise e)
  | Ok episode_map =>
      let episodes_to_delete :=
        select_episodes finished_episode_ids episode_map in
      if truthy episodes_to_delete then
        let '(w', t') :=
          delete_episodes (dry_run cfg) episodes_to_delete w t in
        (w', Ok t')
      else (w, Ok t)
  end.

Definition process_audiobook_items (cfg : Config)
    (finished_audiobook_ids : gset string) (w : World Srv) (t : Totals)
  : World Srv * result Totals :=
  match build_audiobook_map (server w) finished_audiobook_ids with
  | Raise e => (w, Raise e)
  | Ok audiobook_map =>
      if truthy audiobook_map then
        let '(w', t') :=
          delete_audiobooks (dry_run cfg) (dict_values audiobook_map) w t in
        (w', Ok t')
      else (w, Ok t)
  end.

(** [main] once DRY_RUN and MEDIA_TYPE are read: the check of MEDIA_TYPE
    (lines 295 to 299 of the script) and what follows it to the end.  The
    settings, with the exit for a missing ABS_URL or ABS_TOKEN, are read in
    [Settings.main_v3], which embeds [main] whole. *)
Definition main (cfg : Config) (w : World Srv) : World Srv * Outcome :=
  if bool_decide (media_type cfg ∉ ["PODCASTS"; "AUDIOBOOKS"; "EVERYTHING"])
  then (w, Exit 1)
  else
    let process_podcasts :=
      bool_decide (media_type cfg ∈ ["PODCASTS"; "EVERYTHING"]) in
    let process_audiobooks :=
      bool_decide (media_type cfg ∈ ["AUDIOBOOKS"; "EVERYTHING"]) in
    match get_user_with_progress (server w) with
    | Raise HTTPError => (w, Exit 1)
    | Raise e => (w, Uncaught e)
    | Ok user_data =>
        match get_finished_media user_data with
        | Raise e => (w, Uncaught e)
        | Ok (finished_episode_ids, finished_audiobook_ids) =>
            let t := {| total_deleted := 0; total_failed := 0 |} in
            let '(w, r) :=
              if process_podcasts && truthy finished_episode_ids
              then process_podcast_episodes cfg finished_episode_ids w t
              else (w, Ok t) in
            match r with
            | Raise e => (w, Uncaught e)
            | Ok t =>
                let '(w, r) :=
                  if process_audiobooks && truthy finished_audiobook_ids
                  then process_audiobook_items cfg finished_audiobook_ids w t
                  else (w, Ok t) in
                match r with
                | Raise e => (w, Uncaught e)
                | Ok t => (w, Completed t)
                end
            end
        end
    end.
End Main.

End V3.

(** ** Version 4 *)

Module V4.

(** Values of [episode_map]. *)
Record EpData := {
  library_item_id : string;
  podcast_title : option string;
  episode_title : option string;
  added_at : option Z }.

(** Values of [audiobook_map]. *)
Record AbData := {
  ab_library_item_id : string;
  audiobook_title : option string;
  author_name : option string;
  ab_added_at : option Z }.

(** Elements of [episodes_to_delete]: [{'episode_id': ..., **ep_data}]. *)
Record EpisodeToDelete := {
  episode_id : string;
  ep_data : EpData }.

Record Totals := {
  total_deleted : nat;
  total_failed : nat;
  total_skipped_age : nat }.

(** The parts of the line "Cleanup complete: ...". *)
Record Summary := {
  deleted : nat;
  failed : nat;
  skipped_too_recent : option nat }.

Inductive Outcome :=
  | Exit (code : Z)
  | Uncaught (e : exn)
  | Completed (summary : Summary).

(** The settings [main] has read when it connects. *)
Record Config := {
  dry_run : bool;
  media_type : string;
  min_age : option Z }.

(** The [datetime] of the machine, as far as a run meets it.

    [fromtimestamp_ms ms] is [datetime.fromtimestamp(ms / 1000)] for an
    integer stamp: the date and time of the stamp on the local calendar, in
    microseconds, or the exception the call raises for a stamp outside the
    range of the platform.  It carries the offset the zone has at that
    instant and the rounding of the division.

    [now_episode e] and [now_audiobook k] are what [datetime.now()] reads,
    on the same calendar, in the call of [is_old_enough] for the episode [e]
    and for the audiobook [k]: a phase tests an identifier at most once, and
    the clock is read anew in every call. *)
Record Clock := {
  fromtimestamp_ms : Z → result Z;
  now_episode : string → Z;
  now_audiobook : string → Z }.

(** [now] is the reading of [datetime.now()] in this call. *)
Definition is_old_enough (clock : Clock) (now : Z) (added_at_ms : option Z)
    (min_age : Z) : result bool :=
  if negb (truthy added_at_ms) then Ok true
  else
    added_at ← fromtimestamp_ms clock (default 0%Z added_at_ms);
    let age := (now - added_at)%Z in
    mret (min_age <=? age)%Z.

Section Scan.
Context {Srv : Type} `{ABSServer Srv}.

Definition scan_episode (library_item_id : string)
    (podcast_title : option string)
    (episode_map : gmap string EpData) (episode : Episode)
  : gmap string EpData :=
  let episode_id := ep_id episode in
  let episode_title := dict_get (ep_title episode) "Unknown Episode" in
  let added_at := ep_addedAt episode in
  if truthy episode_id then
    <[default "" episode_id :=
        {| library_item_id := library_item_id;
           podcast_title := podcast_title;
           episode_title := episode_title;
           added_at := added_at |}]> episode_map
  else episode_map.

(** The body of [for item in items].  The [try] covers the request and the
    read of [media]; what follows it is not guarded: [media.get] on a
    [null] media, [.get('title', ...)] on a [null] metadata, ['KEEP' in] a
    [null] tags and [len] of a [null] episodes raise. *)
Definition scan_podcast (s : Srv) (episode_map : gmap string EpData)
    (item : Item) : result (gmap string EpData) :=
  let library_item_id := item_id item in
  match get_library_item s library_item_id with
  | Raise _ => Ok episode_map
  | Ok full_item =>
      media ← not_none (dict_get (media full_item) no_media);
      metadata ← not_none (dict_get (metadata media) no_metadata);
      let podcast_title := dict_get (title metadata) "Unknown Podcast" in
      tags ← not_none (dict_get (tags media) []);
      if bool_decide ("KEEP" ∈ tags) then Ok episode_map
      else
        episodes ← not_none (dict_get (episodes media) []);
        Ok (foldl (scan_episode library_item_id podcast_title)
                  episode_map episodes)
  end.

(** [len(items)] of the log line raises for a [null] listing. *)
Definition build_episode_map (s : Srv) : result (gmap string EpData) :=
  libs ← get_podcast_libraries s;
  for_each (λ episode_map library,
              items ← get_library_items s (lib_id library);
              items ← not_none items;
              for_each (scan_podcast s) episode_map items)
           ∅ libs.

Definition scan_audiobook (s : Srv) (finished_audiobook_ids : gset string)
    (audiobook_map : list (string * AbData)) (item : Item)
  : result (list (string * AbData)) :=
  let library_item_id := item_id item in
  if bool_decide (library_item_id ∉ finished_audiobook_ids)
  then Ok audiobook_map
  else
    match get_library_item s library_item_id with
    | Raise _ => Ok audiobook_map
    | Ok full_item =>
        media ← not_none (dict_get (media full_item) no_media);
        metadata ← not_none (dict_get (metadata media) no_metadata);
        let audiobook_title := dict_get (title metadata) "Unknown Audiobook" in
        let author_name := dict_get (authorName metadata) "Unknown Author" in
        tags ← not_none (dict_get (tags media) []);
        if bool_decide ("KEEP" ∈ tags) then Ok audiobook_map
        else
          let added_at := addedAt full_item in
          Ok (dict_set library_item_id
                {| ab_library_item_id := library_item_id;
                   audiobook_title := audiobook_title;
                   author_name := author_name;
                   ab_added_at := added_at |}
                audiobook_map)
    end.

Definition build_audiobook_map (s : Srv)
    (finished_audiobook_ids : gset string)
  : result (list (string * AbData)) :=
  libs ← get_book_libraries s;
  for_each (λ audiobook_map library,
              items ← get_library_items s (lib_id library);
              items ← not_none items;
              for_each (scan_audiobook s finished_audiobook_ids)
                       audiobook_map items)
           [] libs.
End Scan.

(** The loop of [main] that fills [episodes_to_delete] and counts the
    episodes skipped as too recent.  (For a skipped episode the log line
    converts the stamp once more, which gives what the test got.) *)
Definition select_episodes (clock : Clock) (min_age : option Z)
    (finished_episode_ids : gset string) (episode_map : gmap string EpData)
  : result (list EpisodeToDelete * nat) :=
  for_each (λ (acc : list EpisodeToDelete * nat) (episode_id : string),
              let '(episodes_to_delete, skipped) := acc in
              match episode_map !! episode_id with
              | None => Ok (episodes_to_delete, skipped)
              | Some ep_data =>
                  match min_age with
                  | Some min_age =>
                      old_enough ←
                        is_old_enough clock (now_episode clock episode_id)
                                      (added_at ep_data) min_age;
                      if negb old_enough
                      then Ok (episodes_to_delete, S skipped)
                      else Ok (episodes_to_delete ++
                                 [{| episode_id := episode_id;
                                     ep_data := ep_data |}],
                               skipped)
                  | None =>
                      Ok (episodes_to_delete ++
                            [{| episode_id := episode_id;
                                ep_data := ep_data |}],
                          skipped)
                  end
              end)
           ([], 0) (elements finished_episode_ids).

(** The block of [main] that fills [audiobooks_to_delete]. *)
Definition select_audiobooks (clock : Clock) (min_age : option Z)
    (audiobook_map : list (string * AbData))
  : result (list (string * AbData) * nat) :=
  match min_age with
  | Some min_age =>
      for_each (A := list (string * AbData) * nat)
               (λ (acc : list (string * AbData) * nat)
                  (entry : string * AbData),
                  let '(audiobooks_to_delete, skipped) := acc in
                  let '(lib_item_id, ab_data) := entry in
                  old_enough ←
                    is_old_enough clock (now_audiobook clock lib_item_id)
                                  (ab_added_at ab_data) min_age;
                  if (old_enough : bool)
                  then Ok (dict_set lib_item_id ab_data audiobooks_to_delete,
                           skipped)
                  else Ok (audiobooks_to_delete, S skipped))
               ([], 0) audiobook_map
  | None => Ok (audiobook_map, 0)
  end.

Definition count_deleted (t : Totals) : Totals :=
  {| total_deleted := S (total_deleted t);
     total_failed := total_failed t;
     total_skipped_age := total_skipped_age t |}.
Definition count_failed (t : Totals) : Totals :=
  {| total_deleted := total_deleted t;
     total_failed := S (total_failed t);
     total_skipped_age := total_skipped_age t |}.
Definition count_skipped (n : nat) (t : Totals) : Totals :=
  {| total_deleted := total_deleted t;
     total_failed := total_failed t;
     total_skipped_age := total_skipped_age t + n |}.

Section Main.
Context {Srv : Type} `{ABSServer Srv}.

(** [for ep in episodes_to_delete: try: ... except ...]. *)
Fixpoint delete_episodes (dry_run : bool)
    (episodes_to_delete : list EpisodeToDelete)
    (w : World Srv) (t : Totals) : World Srv * Totals :=
  match episodes_to_delete with
  | [] => (w, t)
  | ep :: rest =>
      if dry_run then delete_episodes dry_run rest w (count_deleted t)
      else
        match delete_episode (library_item_id (ep_data ep))
                             (episode_id ep) true w with
        | (w', Ok _) => delete_episodes dry_run rest w' (count_deleted t)
        | (w', Raise HTTPError) =>
            delete_episodes dry_run rest w' (count_failed t)
        | (w', Raise OtherException) =>
            delete_episodes dry_run rest w' (count_failed t)
        end
  end.

(** [for ab in audiobooks_to_delete.values(): try: ... except ...]. *)
Fixpoint delete_audiobooks (dry_run : bool)
    (audiobooks : list AbData)
    (w : World Srv) (t : Totals) : World Srv * Totals :=
  match audiobooks with
  | [] => (w, t)
  | ab :: rest =>
      if dry_run then delete_audiobooks dry_run rest w (count_deleted t)
      else
        match delete_library_item (ab_library_item_id ab) true w with
        | (w', Ok _) => delete_audiobooks dry_run rest w' (count_deleted t)
        | (w', Raise HTTPError) =>
            delete_audiobooks dry_run rest w' (count_failed t)
        | (w', Raise OtherException) =>
            delete_audiobooks dry_run rest w' (count_failed t)
        end
  end.

(** The block "Process podcast episodes" of [main].  The scan and the age
    tests are outside any [try]. *)
Definition process_podcast_episodes (cfg : Config) (clock : Clock)
    (finished_episode_ids : gset string) (w : World Srv) (t : Totals)
  : World Srv * result Totals :=
  match build_episode_map (server w) with
  | Raise e => (w, Raise e)
  | Ok episode_map =>
      match select_episodes clock (min_age cfg) finished_episode_ids
                            episode_map with
      | Raise e => (w, Raise e)
      | Ok (episodes_to_delete, skipped) =>
          let t := count_skipped skipped t in
          if truthy episodes_to_delete then
            let '(w', t') :=
              delete_episodes (dry_run cfg) episodes_to_delete w t in
            (w', Ok t')
          else (w, Ok t)
      end
  end.

(** The block "Process audiobooks" of [main]. *)
Definition process_audiobook_items (cfg : Config) (clock : Clock)
    (finished_audiobook_ids : gset string) (w : World Srv) (t : Totals)
  : World Srv * result Totals :=
  match build_audiobook_map (server w) finished_audiobook_ids with
  | Raise e => (w, Raise e)
  | Ok audiobook_map =>
      match select_audiobooks clock (min_age cfg) audiobook_map with
      | Raise e => (w, Raise e)
      | Ok (audiobooks_to_delete, skipped) =>
          let t := count_skipped skipped t in
          if truthy audiobooks_to_delete then
            let '(w', t') :=
              delete_audiobooks (dry_run cfg)
                                (dict_values audiobooks_to_delete) w t in
            (w', Ok t')
          else (w, Ok t)
      end
  end.

Definition summary_of (cfg : Config) (t : Totals) : Summary :=
  {| deleted := total_deleted t;
     failed := total_failed t;
     skipped_too_recent :=
       match min_age cfg with
       | Some _ => Some (total_skipped_age t)
       | None => None
       end |}.

(** [main] once the settings are read: the check of MEDIA_TYPE (lines 366 to
    370 of the script) and lines 384 to 527, for the [dry_run], [media_type]
    and [min_age] that lines 356 to 382 produce.  The reading of the
    settings, with the exits for a missing ABS_URL or ABS_TOKEN and for an
    AGE that is no age, is [Settings.main], which embeds [main] whole and
    ends in this function. *)
Definition main (cfg : Config) (clock : Clock) (w : World Srv)
  : World Srv * Outcome :=
  if bool_decide (media_type cfg ∉ ["PODCASTS"; "AUDIOBOOKS"; "EVERYTHING"])
  then (w, Exit 1)
  else
    let process_podcasts :=
      bool_decide (media_type cfg ∈ ["PODCASTS"; "EVERYTHING"]) in
    let process_audiobooks :=
      bool_decide (media_type cfg ∈ ["AUDIOBOOKS"; "EVERYTHING"]) in
    match get_user_with_progress (server w) with
    | Raise HTTPError => (w, Exit 1)
    | Raise e => (w, Uncaught e)
    | Ok user_data =>
        match get_finished_media user_data with
        | Raise e => (w, Uncaught e)
        | Ok (finished_episode_ids, finished_audiobook_ids) =>
            let t :=
              {| total_deleted := 0; total_failed := 0;
                 total_skipped_age := 0 |} in
            let '(w, r) :=
              if process_podcasts && truthy finished_episode_ids
              then process_podcast_episodes cfg clock finished_episode_ids w t
              else (w, Ok t) in
            match r with
            | Raise e => (w, Uncaught e)
            | Ok t =>
                let '(w, r) :=
                  if process_audiobooks && truthy finished_audiobook_ids
                  then process_audiobook_items cfg clock
                         finished_audiobook_ids w t
                  else (w, Ok t) in
                match r with
                | Raise e => (w, Uncaught e)
                | Ok t => (w, Completed (summary_of cfg t))
                end
            end
        end
    end.
End Main.

End V4.

(** The requests the two [delete_*] client methods build when [main] calls
    them. *)
Definition episode_request (library_item_id episode_id : string)
  : DeleteRequest :=
  {| dr_endpoint := PodcastEpisode library_item_id episode_id;
     dr_params := [("hard", "1")] |}.

Definition item_request (library_item_id : string) : DeleteRequest :=
  {| dr_endpoint := LibraryItem library_item_id;
     dr_params := [("hard", "1")] |}.

(** ** A table-driven server, to run the scripts on concrete catalogues *)

(** The catalogue is a set of tables.  A listing is served in pages of
    [ts_limit] items ([0]: everything in one response), page [0] when the
    request names none.  An accepted DELETE is remembered in [ts_gone]: a
    deleted item answers 404 and a deleted episode leaves its podcast.  The
    endpoints in [ts_http_error] answer DELETE with an error status, those in
    [ts_unreachable] drop the connection. *)
Record TableServer := {
  ts_me : result UserData;
  ts_libraries : list Library;
  ts_items : list (string * list Item);
  ts_limit : nat;
  ts_full : list (string * FullItem);
  ts_http_error : list Endpoint;
  ts_unreachable : list Endpoint;
  ts_gone : list Endpoint }.

Fixpoint assoc {V} (k : string) (d : list (string * V)) : option V :=
  match d with
  | [] => None
  | (k', v) :: rest => if decide (k = k') then Some v else assoc k rest
  end.

(** The page number a query asks for, among the first [bound] ones. *)
Definition page_of (q : query) (bound : nat) : nat :=
  match assoc "page" q with
  | None => 0
  | Some v =>
      match list_find (λ n, pretty n = v) (seq 0 bound) with
      | Some (_, n) => n
      | None => 0
      end
  end.

Definition ts_listing (s : TableServer) (library_id : string) (q : query)
  : result ItemsResp :=
  match assoc library_id (ts_items s) with
  | None => Raise HTTPError
  | Some all =>
      let p := page_of q (length all) in
      let shown :=
        if decide (ts_limit s = 0) then all
        else take (ts_limit s) (drop (p * ts_limit s) all) in
      Ok {| results := Value shown; total := length all;
            limit := ts_limit s; page := p |}
  end.

Definition field_map {A B} (h : A → B) (f : field A) : field B :=
  match f with
  | Absent => Absent
  | Null => Null
  | Value a => Value (h a)
  end.

Definition ts_without_gone (s : TableServer) (library_item_id : string)
    (full : FullItem) : FullItem :=
  {| media :=
       field_map
         (λ m, {| metadata := metadata m; tags := tags m;
                  episodes :=
                    field_map
                      (filter (λ e, PodcastEpisode library_item_id
                                      (default "" (ep_id e)) ∉ ts_gone s))
                      (episodes m) |})
         (media full);
     addedAt := addedAt full |}.

Definition ts_item (s : TableServer) (library_item_id : string) (q : query)
  : result FullItem :=
  if decide (LibraryItem library_item_id ∈ ts_gone s) then Raise HTTPError
  else
    match assoc library_item_id (ts_full s) with
    | None => Raise HTTPError
    | Some full => Ok (ts_without_gone s library_item_id full)
    end.

Definition ts_delete (s : TableServer) (r : DeleteRequest)
  : TableServer * result unit :=
  if decide (dr_endpoint r ∈ ts_unreachable s) then (s, Raise OtherException)
  else if decide (dr_endpoint r ∈ ts_http_error s) then (s, Raise HTTPError)
  else
    ({| ts_me := ts_me s; ts_libraries := ts_libraries s;
        ts_items := ts_items s; ts_limit := ts_limit s;
        ts_full := ts_full s; ts_http_error := ts_http_error s;
        ts_unreachable := ts_unreachable s;
        ts_gone := dr_endpoint r :: ts_gone s |}, Ok ()).

#[global] Instance TableServer_ABS : ABSServer TableServer := {
  api_me s _ := ts_me s;
  api_libraries s _ := Ok {| libraries := Value (ts_libraries s) |};
  api_library_items := ts_listing;
  api_item := ts_item;
  api_delete := ts_delete }.

(** A small catalogue: one podcast library with a protected and an
    unprotected podcast, one book library with three books. *)
Definition episode (id : string) (added : option Z) : Episode :=
  {| ep_id := Some id; ep_title := Value id; ep_addedAt := added |}.

Definition full_item (name : string) (tgs : list string)
    (eps : list Episode) (added : option Z) : FullItem :=
  {| media := Value {| metadata := Value {| title := Value name;
                                            authorName := Absent |};
                       tags := Value tgs; episodes := Value eps |};
     addedAt := added |}.

Definition finished (ep item : option string) : Progress :=
  {| isFinished := Some true; episodeId := ep; libraryItemId := item |}.

Definition demo : TableServer :=
  {| ts_me := Ok {| mediaProgress := Value
       [ finished (Some "e1") (Some "pod1");
         finished (Some "e2") (Some "pod1");
         finished (Some "k1") (Some "pod2");
         finished None (Some "book1");
         finished None (Some "book2");
         finished None (Some "book3");
         {| isFinished := Some false; episodeId := Some "e3";
            libraryItemId := Some "pod1" |} ] |};
     ts_libraries :=
       [ {| lib_id := "lp"; lib_name := "Podcasts"; mediaType := Some "podcast" |};
         {| lib_id := "lb"; lib_name := "Books"; mediaType := Some "book" |} ];
     ts_items :=
       [ ("lp", [ {| item_id := "pod1" |}; {| item_id := "pod2" |} ]);
         ("lb", [ {| item_id := "book1" |}; {| item_id := "book2" |};
                  {| item_id := "book3" |} ]) ];
     ts_limit := 0;
     ts_full :=
       [ ("pod1", full_item "Pod one" []
                    [ episode "e1" (Some 1000%Z); episode "e2" None;
                      episode "e3" (Some 1000%Z) ] (Some 1000%Z));
         ("pod2", full_item "Pod two" ["KEEP"]
                    [ episode "k1" (Some 1000%Z) ] (Some 1000%Z));
         ("book1", full_item "Book one" [] [] (Some 1000%Z));
         ("book2", full_item "Book two" ["fiction"; "KEEP"] [] (Some 1000%Z));
         ("book3", full_item "Book three" [] [] (Some 0%Z)) ];
     ts_http_error := [ LibraryItem "book3" ];
     ts_unreachable := [];
     ts_gone := [] |}.

Definition fresh (s : TableServer) : World TableServer :=
  {| server := s; sent := [] |}.

(** A server that serves its listings one item per page. *)
Definition paged : TableServer :=
  {| ts_me := Ok {| mediaProgress := Value
       [ finished (Some "a1") (Some "podA");
         finished (Some "b1") (Some "podB") ] |};
     ts_libraries :=
       [ {| lib_id := "lp"; lib_name := "Podcasts";
            mediaType := Some "podcast" |} ];
     ts_items :=
       [ ("lp", [ {| item_id := "podA" |}; {| item_id := "podB" |} ]) ];
     ts_limit := 1;
     ts_full :=
       [ ("podA", full_item "Pod A" [] [ episode "a1" None ] None);
         ("podB", full_item "Pod B" [] [ episode "b1" None ] None) ];
     ts_http_error := [];
     ts_unreachable := [];
     ts_gone := [] |}.

(** A library with one finished book, stamped zero, that the server deletes
    when asked. *)
Definition undated : TableServer :=
  {| ts_me := Ok {| mediaProgress := Value [ finished None (Some "book0") ] |};
     ts_libraries :=
       [ {| lib_id := "lb"; lib_name := "Books"; mediaType := Some "book" |} ];
     ts_items := [ ("lb", [ {| item_id := "book0" |} ]) ];
     ts_limit := 0;
     ts_full := [ ("book0", full_item "Book zero" [] [] (Some 0%Z)) ];
     ts_http_error := [];
     ts_unreachable := [];
     ts_gone := [] |}.

(** Configurations and a clock for the runs below.  The machine is on UTC,
    it converts every stamp exactly, and its clock reads one instant of
    autumn 2026 all through the run. *)
Definition now_2026 : Z := 1793000000000000.
Definition sixty_years : Z := 60 * 365 * 86400 * 1000000.

Definition utc_2026 : V4.Clock :=
  {| V4.fromtimestamp_ms ms := Ok (ms * 1000)%Z;
     V4.now_episode _ := now_2026;
     V4.now_audiobook _ := now_2026 |}.

Definition audiobooks_older_than_60y : V4.Config :=
  {| V4.dry_run := false; V4.media_type := "AUDIOBOOKS";
     V4.min_age := Some sixty_years |}.

Definition everything : V4.Config :=
  {| V4.dry_run := false; V4.media_type := "EVERYTHING";
     V4.min_age := None |}.

Definition rehearsal : V4.Config :=
  {| V4.dry_run := true; V4.media_type := "EVERYTHING"; V4.min_age := None |}.

(** * Properties *)

(** ** Running the scripts *)

Example v4_on_demo :
  (let '(w, out) := V4.main everything utc_2026 (fresh demo) in (sent w, out))
  = ([ episode_request "pod1" "e1"; episode_request "pod1" "e2";
       item_request "book1"; item_request "book3" ],
     V4.Completed {| V4.deleted := 3; V4.failed := 1;
                     V4.skipped_too_recent := None |}).
Proof. by vm_compute. Qed.

Example v4_dry_run_on_demo :
  (let '(w, out) := V4.main rehearsal utc_2026 (fresh demo) in (sent w, out))
  = ([], V4.Completed {| V4.deleted := 4; V4.failed := 0;
                         V4.skipped_too_recent := None |}).
Proof. by vm_compute. Qed.

Example v4_age_filter_on_demo :
  (let '(w, out) :=
     V4.main audiobooks_older_than_60y utc_2026 (fresh demo) in (sent w, out))
  = ([ item_request "book3" ],
     V4.Completed {| V4.deleted := 0; V4.failed := 1;
                     V4.skipped_too_recent := Some 1 |}).
Proof. by vm_compute. Qed.

Example v2_on_demo :
  (let '(w, out) := V2.main false (fresh demo) in (sent w, out))
  = ([ episode_request "pod1" "e1"; episode_request "pod1" "e2" ],
     V2.Completed {| V2.deleted_count := 2; V2.failed_count := 0 |}).
Proof. by vm_compute. Qed.

Example v3_on_demo :
  (let '(w, out) :=
     V3.main {| V3.dry_run := false; V3.media_type := "AUDIOBOOKS" |}
             (fresh demo) in (sent w, out))
  = ([ item_request "book1"; item_request "book3" ],
     V3.Completed {| V3.total_deleted := 1; V3.total_failed := 1 |}).
Proof. by vm_compute. Qed.

(** ** Truthiness of the JSON fields *)

Lemma truthy_option_bool (o : option bool) : truthy o = true ↔ o = Some true.
Proof. destruct o as [[]|]; compute; split; congruence. Qed.

Lemma truthy_option_string (o : option string) :
  truthy o = true ↔ ∃ x, o = Some x ∧ x ≠ "".
Proof.
  destruct o as [[|a x]|]; compute; split; try congruence.
  - intros (x & [= <-] & Hx). by destruct Hx.
  - intros _. by eexists.
  - by intros (x & ? & _).
Qed.

Lemma falsy_option_string (o : option string) :
  truthy o = false ↔ o = None ∨ o = Some "".
Proof.
  destruct o as [[|a x]|]; compute; split; try congruence; auto.
  intros [|]; congruence.
Qed.

Lemma truthy_option_Z (o : option Z) :
  truthy o = true ↔ ∃ t, o = Some t ∧ t ≠ 0%Z.
Proof.
  destruct o as [t|]; cbn; unfold truthy, Z_truthy.
  - rewrite negb_true_iff, Z.eqb_neq. split; [by eexists|].
    by intros (? & [= <-] & ?).
  - split; [done|]. by intros (? & ? & _).
Qed.

Lemma falsy_option_Z (o : option Z) :
  truthy o = false ↔ o = None ∨ o = Some 0%Z.
Proof.
  destruct o as [t|]; cbn; unfold truthy, Z_truthy.
  - rewrite negb_false_iff, Z.eqb_eq. split; [intros ->; by right|].
    by intros [|[= ->]].
  - split; auto.
Qed.

Lemma truthy_list_nil {A} (l : list A) : truthy l = false ↔ l = [].
Proof. by destruct l. Qed.

Lemma truthy_gset_empty (X : gset string) : truthy X = false ↔ X = ∅.
Proof.
  unfold truthy, gset_truthy. rewrite truthy_list_nil.
  rewrite elements_empty_iff. by unfold_leibniz.
Qed.

(** ** The progress scan (C5) *)

(** The progress entries of a document. *)
Definition progress_entries (user_data : UserData) : list Progress :=
  match mediaProgress user_data with
  | Value entries => entries
  | Absent | Null => []
  end.

(** A progress entry that counts as a finished episode [x]. *)
Definition finished_episode (p : Progress) (x : string) : Prop :=
  isFinished p = Some true ∧ episodeId p = Some x ∧ x ≠ "".

(** A progress entry that counts as a finished audiobook [x]: finished, no
    or an empty [episodeId], a non-empty [libraryItemId]. *)
Definition finished_audiobook (p : Progress) (x : string) : Prop :=
  isFinished p = Some true ∧
  (episodeId p = None ∨ episodeId p = Some "") ∧
  libraryItemId p = Some x ∧ x ≠ "".

Definition finished_step (acc : gset string * gset string) (progress : Progress)
  : gset string * gset string :=
  let '(finished_episodes, finished_audiobooks) := acc in
  if truthy (isFinished progress) then
    if truthy (episodeId progress) then
      ({[default "" (episodeId progress)]} ∪ finished_episodes,
       finished_audiobooks)
    else if truthy (libraryItemId progress) then
      (finished_episodes,
       {[default "" (libraryItemId progress)]} ∪ finished_audiobooks)
    else (finished_episodes, finished_audiobooks)
  else (finished_episodes, finished_audiobooks).

Lemma get_finished_media_unfold (user_data : UserData) :
  get_finished_media user_data =
  match mediaProgress user_data with
  | Null => Raise OtherException
  | _ => Ok (foldl finished_step (∅, ∅) (progress_entries user_data))
  end.
Proof.
  unfold get_finished_media, progress_entries.
  by destruct (mediaProgress user_data).
Qed.

(** A [null] where the progress list is expected ends the scan with a
    [TypeError]. *)
Lemma get_finished_media_null (user_data : UserData) :
  mediaProgress user_data = Null →
  get_finished_media user_data = Raise OtherException ∧
  get_finished_episode_ids user_data = Raise OtherException.
Proof.
  intros Hnull. unfold get_finished_media, get_finished_episode_ids.
  by rewrite Hnull.
Qed.

Lemma get_finished_media_Ok (user_data : UserData) (Fe Fa : gset string) :
  get_finished_media user_data = Ok (Fe, Fa) →
  mediaProgress user_data ≠ Null ∧
  foldl finished_step (∅, ∅) (progress_entries user_data) = (Fe, Fa).
Proof.
  rewrite get_finished_media_unfold.
  destruct (mediaProgress user_data); by intros [= <-].
Qed.

Lemma finished_step_spec (E A : gset string) (p : Progress) (x : string) :
  (x ∈ (finished_step (E, A) p).1 ↔ x ∈ E ∨ finished_episode p x) ∧
  (x ∈ (finished_step (E, A) p).2 ↔ x ∈ A ∨ finished_audiobook p x).
Proof.
  unfold finished_step, finished_episode, finished_audiobook.
  destruct (truthy (isFinished p)) eqn:Hf.
  - apply truthy_option_bool in Hf.
    destruct (truthy (episodeId p)) eqn:He.
    + apply truthy_option_string in He as (e & He & Hne).
      rewrite He; cbn. split.
      { rewrite elem_of_union, elem_of_singleton. split.
        - intros [->|?]; auto.
        - intros [?|(_ & [= ->] & _)]; auto. }
      split; [auto|]. intros [?|(_ & [?|?] & _)]; [done|congruence..].
    + apply falsy_option_string in He.
      destruct (truthy (libraryItemId p)) eqn:Hl.
      * apply truthy_option_string in Hl as (l & Hl & Hne).
        rewrite Hl; cbn. split.
        -- split; [auto|]. intros [?|(_ & ? & ?)]; [done|].
           destruct He; congruence.
        -- rewrite elem_of_union, elem_of_singleton. split.
           ++ intros [->|?]; auto.
           ++ intros [?|(_ & _ & [= ->] & _)]; auto.
      * apply falsy_option_string in Hl. cbn. split.
        -- split; [auto|]. intros [?|(_ & ? & ?)]; [done|].
           destruct He; congruence.
        -- split; [auto|]. intros [?|(_ & _ & ? & ?)]; [done|].
           destruct Hl; congruence.
  - cbn. split; (split; [auto|]); intros [?|(Hfin & _)]; try done;
      apply truthy_option_bool in Hfin; congruence.
Qed.

Lemma finished_fold_spec (l : list Progress) (E A : gset string) (x : string) :
  (x ∈ (foldl finished_step (E, A) l).1 ↔
     x ∈ E ∨ ∃ p, p ∈ l ∧ finished_episode p x) ∧
  (x ∈ (foldl finished_step (E, A) l).2 ↔
     x ∈ A ∨ ∃ p, p ∈ l ∧ finished_audiobook p x).
Proof.
  revert E A. induction l as [|p l IH]; intros E A.
  - cbn. split; (split; [auto|]); intros [?|(? & Hin & _)]; try done;
      by apply elem_of_nil in Hin.
  - change (foldl finished_step (E, A) (p :: l))
      with (foldl finished_step (finished_step (E, A) p) l).
    destruct (finished_step (E, A) p) as [E' A'] eqn:Hstep.
    destruct (finished_step_spec E A p x) as [HE HA].
    rewrite Hstep in HE, HA; cbn in HE, HA.
    destruct (IH E' A') as [IHE IHA]. rewrite IHE, IHA, HE, HA.
    split; split.
    + intros [[?|?]|(q & ? & ?)]; [auto| |].
      * right. exists p. split; [apply list_elem_of_here|done].
      * right. exists q. split; [by apply list_elem_of_further|done].
    + intros [?|(q & [->|?]%elem_of_cons & ?)]; eauto.
    + intros [[?|?]|(q & ? & ?)]; [auto| |].
      * right. exists p. split; [apply list_elem_of_here|done].
      * right. exists q. split; [by apply list_elem_of_further|done].
    + intros [?|(q & [->|?]%elem_of_cons & ?)]; eauto.
Qed.

(** What the progress scan returns, in terms of the entries. *)
Lemma finished_media_spec (user_data : UserData) (Fe Fa : gset string)
    (x : string) :
  get_finished_media user_data = Ok (Fe, Fa) →
  (x ∈ Fe ↔ ∃ p, p ∈ progress_entries user_data ∧ finished_episode p x) ∧
  (x ∈ Fa ↔ ∃ p, p ∈ progress_entries user_data ∧ finished_audiobook p x).
Proof.
  intros [_ Hfold]%get_finished_media_Ok.
  destruct (finished_fold_spec (progress_entries user_data) ∅ ∅ x)
    as [HE HA].
  rewrite Hfold in HE, HA. cbn in HE, HA. split.
  - rewrite HE. split; [|auto]. by intros [?%not_elem_of_empty|?].
  - rewrite HA. split; [|auto]. by intros [?%not_elem_of_empty|?].
Qed.

Lemma finished_episode_ids_fold (l : list Progress) (E A : gset string) :
  foldl (λ finished progress,
           if truthy (isFinished progress) && truthy (episodeId progress)
           then {[default "" (episodeId progress)]} ∪ finished
           else finished) E l
  = (foldl finished_step (E, A) l).1.
Proof.
  revert E A. induction l as [|p l IH]; intros E A; [done|].
  cbn [foldl finished_step].
  destruct (truthy (isFinished p)); cbn [andb]; [|apply IH].
  destruct (truthy (episodeId p)); [apply IH|].
  destruct (truthy (libraryItemId p)); apply IH.
Qed.

(** v2's scan is the episode half of the scan of v3 and v4. *)
Lemma get_finished_episode_ids_spec (user_data : UserData) :
  get_finished_episode_ids user_data =
  match get_finished_media user_data with
  | Ok (Fe, _) => Ok Fe
  | Raise e => Raise e
  end.
Proof.
  rewrite get_finished_media_unfold.
  unfold get_finished_episode_ids, progress_entries.
  destruct (mediaProgress user_data) as [| |l]; cbn; [done..|].
  rewrite (finished_episode_ids_fold l ∅ ∅).
  by destruct (foldl finished_step (∅, ∅) l).
Qed.

(** C5: for a document whose [mediaProgress] is a list, or is missing, the
    scan returns exactly the episode ids of the finished entries that carry a
    non-empty [episodeId], and exactly the library item ids of the finished
    entries with no (or an empty) [episodeId] and a non-empty
    [libraryItemId].  An entry with both ids feeds only the episode set, an
    unfinished entry feeds neither, and v2's [get_finished_episode_ids]
    returns the same episode set.  (For a [null] in the place of the list the
    scan raises: [get_finished_media_null].) *)
Theorem get_finished_media_exact (user_data : UserData) :
  mediaProgress user_data ≠ Null →
  ∃ finished_episodes finished_audiobooks,
    get_finished_media user_data =
      Ok (finished_episodes, finished_audiobooks) ∧
    get_finished_episode_ids user_data = Ok finished_episodes ∧
    ∀ x,
      (x ∈ finished_episodes ↔
         ∃ p, p ∈ progress_entries user_data ∧ finished_episode p x) ∧
      (x ∈ finished_audiobooks ↔
         ∃ p, p ∈ progress_entries user_data ∧ finished_audiobook p x).
Proof.
  intros Hlist.
  destruct (get_finished_media user_data) as [[Fe Fa]|e] eqn:Hscan.
  - exists Fe, Fa. split; [done|]. split.
    + by rewrite get_finished_episode_ids_spec, Hscan.
    + intros x. by apply finished_media_spec.
  - rewrite get_finished_media_unfold in Hscan.
    by destruct (mediaProgress user_data).
Qed.

Lemma get_finished_media_exact_witness :
  ∃ finished_episodes finished_audiobooks,
    get_finished_media
      {| mediaProgress := Value
           [ finished (Some "e1") (Some "pod1"); finished None (Some "book1");
             {| isFinished := Some false; episodeId := Some "e3";
                libraryItemId := Some "pod1" |} ] |} =
      Ok (finished_episodes, finished_audiobooks) ∧
    "e1" ∈ finished_episodes ∧ "book1" ∈ finished_audiobooks ∧
    "e3" ∉ finished_episodes.
Proof.
  destruct (get_finished_media_exact
              {| mediaProgress := Value
                   [ finished (Some "e1") (Some "pod1");
                     finished None (Some "book1");
                     {| isFinished := Some false; episodeId := Some "e3";
                        libraryItemId := Some "pod1" |} ] |})
    as (Fe & Fa & Hscan & _ & Hspec); [done|].
  exists Fe, Fa. split; [exact Hscan|]. split; [|split].
  - apply Hspec. eexists. split; [apply list_elem_of_here|].
    by repeat split.
  - apply Hspec. eexists.
    split; [apply list_elem_of_further, list_elem_of_here|].
    repeat split; auto.
  - intros (p & Hp & Hfin & Hid & _)%Hspec. cbn in Hp.
    repeat (apply elem_of_cons in Hp as [-> | Hp]); try done.
    by apply elem_of_nil in Hp.
Defined.

(** ** The deletion loops *)

Definition is_ok {A} (r : result A) : bool :=
  match r with Ok _ => true | Raise _ => false end.

Section Loops.
Context {Srv : Type} `{ABSServer Srv}.

(** Sending a list of requests one after the other, whatever the answers:
    the world afterwards and the answers in order. *)
Fixpoint send_all (reqs : list DeleteRequest) (w : World Srv)
  : World Srv * list (result unit) :=
  match reqs with
  | [] => (w, [])
  | r :: rest =>
      let '(s', a) := api_delete (server w) r in
      let '(w', answers) :=
        send_all rest {| server := s'; sent := sent w ++ [r] |} in
      (w', a :: answers)
  end.

Lemma send_all_sent reqs w :
  sent (send_all reqs w).1 = sent w ++ reqs.
Proof.
  revert w. induction reqs as [|r reqs IH]; intros w; cbn.
  - by rewrite app_nil_r.
  - destruct (api_delete (server w) r) as [s' a].
    specialize (IH {| server := s'; sent := sent w ++ [r] |}).
    destruct (send_all reqs _) as [w' answers]. cbn in *.
    by rewrite IH, <- app_assoc.
Qed.

Lemma send_all_length reqs w :
  length (send_all reqs w).2 = length reqs.
Proof.
  revert w. induction reqs as [|r reqs IH]; intros w; cbn; [done|].
  destruct (api_delete (server w) r) as [s' a].
  specialize (IH {| server := s'; sent := sent w ++ [r] |}).
  destruct (send_all reqs _) as [w' answers]. cbn in *. by rewrite IH.
Qed.

Definition successes (answers : list (result unit)) : nat :=
  length (filter (λ a, is_ok a = true) answers).
Definition failures (answers : list (result unit)) : nat :=
  length (filter (λ a, is_ok a = false) answers).

Lemma successes_failures answers :
  successes answers + failures answers = length answers.
Proof.
  unfold successes, failures.
  induction answers as [|[|] answers IH]; [done|..].
  - rewrite filter_cons_True, filter_cons_False by done. cbn. lia.
  - rewrite filter_cons_False, filter_cons_True by done. cbn. lia.
Qed.

Lemma successes_cons a answers :
  successes (a :: answers) =
  (if is_ok a then 1 else 0) + successes answers.
Proof.
  unfold successes. destruct a; cbn [is_ok].
  - by rewrite filter_cons_True.
  - by rewrite filter_cons_False.
Qed.

Lemma failures_cons a answers :
  failures (a :: answers) =
  (if is_ok a then 0 else 1) + failures answers.
Proof.
  unfold failures. destruct a; cbn [is_ok].
  - by rewrite filter_cons_False.
  - by rewrite filter_cons_True.
Qed.

Definition v4_request (ep : V4.EpisodeToDelete) : DeleteRequest :=
  episode_request (V4.library_item_id (V4.ep_data ep)) (V4.episode_id ep).

Definition v4_add (d f : nat) (t : V4.Totals) : V4.Totals :=
  {| V4.total_deleted := V4.total_deleted t + d;
     V4.total_failed := V4.total_failed t + f;
     V4.total_skipped_age := V4.total_skipped_age t |}.

Lemma v4_add_0 t : v4_add 0 0 t = t.
Proof. destruct t. unfold v4_add. cbn. f_equal; lia. Qed.

Lemma v4_add_deleted d f t :
  v4_add d f (V4.count_deleted t) = v4_add (S d) f t.
Proof. unfold v4_add, V4.count_deleted. cbn. f_equal; lia. Qed.

Lemma v4_add_failed d f t :
  v4_add d f (V4.count_failed t) = v4_add d (S f) t.
Proof. unfold v4_add, V4.count_failed. cbn. f_equal; lia. Qed.

(** A dry run of the episode loop touches nothing and counts every
    candidate as deleted. *)
Lemma v4_delete_episodes_dry eps w t :
  V4.delete_episodes true eps w t = (w, v4_add (length eps) 0 t).
Proof.
  revert t. induction eps as [|ep eps IH]; intros t; cbn.
  - by rewrite v4_add_0.
  - by rewrite IH, v4_add_deleted.
Qed.

(** A real run of the episode loop sends one request per candidate, in
    order, and sorts the answers into the two counters. *)
Lemma v4_delete_episodes_real eps w t :
  V4.delete_episodes false eps w t =
  let '(w', answers) := send_all (v4_request <$> eps) w in
  (w', v4_add (successes answers) (failures answers) t).
Proof.
  revert w t. induction eps as [|ep eps IH]; intros w t; cbn.
  - by rewrite v4_add_0.
  - unfold delete_episode, _delete, v4_request at 1, episode_request. cbn.
    destruct (api_delete (server w) _) as [s' [[]|[]]]; cbn;
      rewrite IH; destruct (send_all _ _) as [w' answers];
      by rewrite ?v4_add_deleted, ?v4_add_failed, successes_cons,
           failures_cons.
Qed.

Lemma v4_delete_audiobooks_dry abs w t :
  V4.delete_audiobooks true abs w t = (w, v4_add (length abs) 0 t).
Proof.
  revert t. induction abs as [|ab abs IH]; intros t; cbn.
  - by rewrite v4_add_0.
  - by rewrite IH, v4_add_deleted.
Qed.

Lemma v4_delete_audiobooks_real abs w t :
  V4.delete_audiobooks false abs w t =
  let '(w', answers) :=
    send_all ((λ ab, item_request (V4.ab_library_item_id ab)) <$> abs) w in
  (w', v4_add (successes answers) (failures answers) t).
Proof.
  revert w t. induction abs as [|ab abs IH]; intros w t; cbn.
  - by rewrite v4_add_0.
  - unfold delete_library_item, _delete, item_request at 1. cbn.
    destruct (api_delete (server w) _) as [s' [[]|[]]]; cbn;
      rewrite IH; destruct (send_all _ _) as [w' answers];
      by rewrite ?v4_add_deleted, ?v4_add_failed, successes_cons,
           failures_cons.
Qed.
End Loops.

(** ** Selecting the candidates *)

Lemma foldl_cons {A B} (f : A → B → A) (a : A) (x : B) (l : list B) :
  foldl f a (x :: l) = foldl f (f a x) l.
Proof. reflexivity. Qed.

Lemma omap_cons_eq {A B} (f : A → option B) (x : A) (l : list A) :
  omap f (x :: l) =
  match f x with Some y => y :: omap f l | None => omap f l end.
Proof. reflexivity. Qed.

(** Whether an item added at [added_at], tested when the clock reads [now],
    gets through the optional age filter. *)
Definition passes (clock : V4.Clock) (now : Z) (min_age : option Z)
    (added_at : option Z) : result bool :=
  match min_age with
  | Some min_age => V4.is_old_enough clock now added_at min_age
  | None => Ok true
  end.

(** The verdict on the episode [e]: none when the lookup does not hold it. *)
Definition verdict (clock : V4.Clock) (min_age : option Z)
    (M : gmap string V4.EpData) (e : string) : option (result bool) :=
  (λ d, passes clock (V4.now_episode clock e) min_age (V4.added_at d))
    <$> M !! e.

Definition pick (clock : V4.Clock) (min_age : option Z)
    (M : gmap string V4.EpData) (e : string) : option V4.EpisodeToDelete :=
  match M !! e with
  | Some d =>
      match passes clock (V4.now_episode clock e) min_age (V4.added_at d) with
      | Ok true => Some {| V4.episode_id := e; V4.ep_data := d |}
      | _ => None
      end
  | None => None
  end.

Definition too_recent (clock : V4.Clock) (min_age : option Z)
    (M : gmap string V4.EpData) (e : string) : bool :=
  match verdict clock min_age M e with
  | Some (Ok false) => true
  | _ => false
  end.

(** The test of the episode [e] raises. *)
Definition test_raises (clock : V4.Clock) (min_age : option Z)
    (M : gmap string V4.EpData) (e : string) : Prop :=
  ∃ err, verdict clock min_age M e = Some (Raise err).

(** The selection, when it returns; and what stops it when it does not. *)
Lemma v4_select_episodes_spec clock min_age F M :
  match V4.select_episodes clock min_age F M with
  | Ok r =>
      r = (omap (pick clock min_age M) (elements F),
           length (filter (λ e, too_recent clock min_age M e = true)
                          (elements F))) ∧
      ∀ e, e ∈ F → ¬ test_raises clock min_age M e
  | Raise err =>
      ∃ e, e ∈ F ∧ verdict clock min_age M e = Some (Raise err)
  end.
Proof.
  unfold V4.select_episodes.
  match goal with |- match for_each ?f _ _ with _ => _ end => set (step := f) end.
  assert (∀ c k e, step (c, k) e =
    match verdict clock min_age M e with
    | Some (Raise err) => Raise err
    | _ =>
        Ok (c ++ from_option (λ x, [x]) [] (pick clock min_age M e),
            k + (if too_recent clock min_age M e then 1 else 0))
    end) as Hstep.
  { intros c k e. unfold step, pick, too_recent, verdict, passes.
    destruct (M !! e) as [d|]; cbn [fmap option_fmap option_map];
      [|by rewrite app_nil_r, Nat.add_0_r].
    destruct min_age as [A|]; [|by rewrite Nat.add_0_r].
    destruct (V4.is_old_enough clock _ (V4.added_at d) A) as [[]|err];
      cbn; by rewrite ?app_nil_r, ?Nat.add_0_r, ?Nat.add_1_r. }
  enough (∀ l c k,
    match for_each step (c, k) l with
    | Ok r =>
        r = (c ++ omap (pick clock min_age M) l,
             k + length (filter (λ e, too_recent clock min_age M e = true) l))
        ∧ ∀ e, e ∈ l → ¬ test_raises clock min_age M e
    | Raise err => ∃ e, e ∈ l ∧ verdict clock min_age M e = Some (Raise err)
    end) as Hgen.
  { specialize (Hgen (elements F) [] 0).
    destruct (for_each step _ _) as [r|err].
    - destruct Hgen as [-> Hno]. split; [done|].
      intros e He. apply Hno. by apply elem_of_elements.
    - destruct Hgen as (e & He & Hv). exists e.
      by rewrite elem_of_elements in He. }
  induction l as [|e l IH]; intros c k.
  - cbn. rewrite app_nil_r, Nat.add_0_r. split; [done|].
    by intros e ?%elem_of_nil.
  - cbn [for_each]. rewrite Hstep.
    destruct (verdict clock min_age M e) as [[b|err]|] eqn:Hv;
      cbn [mbind result_bind].
    + specialize (IH (c ++ from_option (λ x, [x]) [] (pick clock min_age M e))
                     (k + (if too_recent clock min_age M e then 1 else 0))).
      destruct (for_each step _ l) as [r|err].
      * destruct IH as [-> Hno]. split.
        -- rewrite omap_cons_eq.
           destruct (pick clock min_age M e) as [x|];
             destruct (too_recent clock min_age M e) eqn:Ht;
             cbn [from_option]; rewrite ?app_nil_r, <- ?app_assoc;
             first [rewrite filter_cons_True by done
                   |rewrite filter_cons_False by congruence];
             cbn [app length]; f_equal; lia.
        -- intros e' [->|He']%elem_of_cons; [|by apply Hno].
           intros [err Herr]. congruence.
      * destruct IH as (e' & He' & Hv'). exists e'.
        split; [by apply list_elem_of_further|done].
    + exists e. split; [apply list_elem_of_here|done].
    + specialize (IH (c ++ from_option (λ x, [x]) [] (pick clock min_age M e))
                     (k + (if too_recent clock min_age M e then 1 else 0))).
      destruct (for_each step _ l) as [r|err].
      * destruct IH as [-> Hno]. split.
        -- rewrite omap_cons_eq.
           destruct (pick clock min_age M e) as [x|];
             destruct (too_recent clock min_age M e) eqn:Ht;
             cbn [from_option]; rewrite ?app_nil_r, <- ?app_assoc;
             first [rewrite filter_cons_True by done
                   |rewrite filter_cons_False by congruence];
             cbn [app length]; f_equal; lia.
        -- intros e' [->|He']%elem_of_cons; [|by apply Hno].
           intros [err Herr]. congruence.
      * destruct IH as (e' & He' & Hv'). exists e'.
        split; [by apply list_elem_of_further|done].
Qed.

Lemma v4_select_episodes_Ok clock min_age F M sel k :
  V4.select_episodes clock min_age F M = Ok (sel, k) →
  sel = omap (pick clock min_age M) (elements F) ∧
  k = length (filter (λ e, too_recent clock min_age M e = true) (elements F)).
Proof.
  intros Hsel. pose proof (v4_select_episodes_spec clock min_age F M) as Hs.
  rewrite Hsel in Hs. destruct Hs as [[= -> ->] _]. done.
Qed.

(** The selection returns when no test raises. *)
Lemma v4_select_episodes_returns clock min_age F M :
  (∀ e, e ∈ F → ¬ test_raises clock min_age M e) →
  ∃ sel k, V4.select_episodes clock min_age F M = Ok (sel, k).
Proof.
  intros Hno. pose proof (v4_select_episodes_spec clock min_age F M) as Hs.
  destruct (V4.select_episodes clock min_age F M) as [[sel k]|err];
    [by eauto|].
  destruct Hs as (e & He & Hv). destruct (Hno e He). by exists err.
Qed.

(** Without AGE no test is made. *)
Lemma v4_select_episodes_no_age clock F M :
  V4.select_episodes clock None F M =
  Ok (omap (pick clock None M) (elements F), 0).
Proof.
  destruct (v4_select_episodes_returns clock None F M) as (sel & k & Hsel).
  { intros e _ [err Herr]. unfold verdict in Herr.
    by destruct (M !! e). }
  rewrite Hsel. apply v4_select_episodes_Ok in Hsel as [-> ->].
  do 2 f_equal. induction (elements F) as [|e l IH]; [done|].
  rewrite filter_cons_False; [done|].
  unfold too_recent, verdict. by destruct (M !! e).
Qed.

Lemma pick_some clock min_age M e c :
  pick clock min_age M e = Some c ↔
  ∃ d, M !! e = Some d ∧
       passes clock (V4.now_episode clock e) min_age (V4.added_at d) = Ok true
       ∧ c = {| V4.episode_id := e; V4.ep_data := d |}.
Proof.
  unfold pick. destruct (M !! e) as [d|].
  - destruct (passes _ _ _ _) as [[]|err] eqn:Hp; split.
    + intros [= <-]. eauto.
    + by intros (d' & [= <-] & _ & ->).
    + done.
    + intros (d' & [= <-] & ? & _). congruence.
    + done.
    + intros (d' & [= <-] & ? & _). congruence.
  - split; [done|]. by intros (? & ? & _).
Qed.

Lemma picked_ids clock min_age M (l : list string) :
  V4.episode_id <$> omap (pick clock min_age M) l =
  filter (λ e, is_Some (pick clock min_age M e)) l.
Proof.
  induction l as [|e l IH]; [done|]. rewrite omap_cons_eq.
  destruct (pick clock min_age M e) as [c|] eqn:Hp.
  - rewrite filter_cons_True by (rewrite Hp; eauto).
    apply pick_some in Hp as (d & _ & _ & ->).
    rewrite fmap_cons, IH. done.
  - rewrite filter_cons_False; [done|]. rewrite Hp. by intros [? ?].
Qed.

Lemma picked_lookup clock min_age M (l : list string) :
  Forall (λ ep, M !! V4.episode_id ep = Some (V4.ep_data ep))
         (omap (pick clock min_age M) l).
Proof.
  apply Forall_forall. intros ep Hin.
  apply list_elem_of_omap in Hin as (e & _ & Hp).
  by apply pick_some in Hp as (d & Hd & _ & ->).
Qed.

(** When no test raises, every finished key of the lookup is either picked
    or counted as too recent. *)
Lemma picked_or_too_recent clock min_age M (l : list string) :
  (∀ e, e ∈ l → ¬ test_raises clock min_age M e) →
  length (omap (pick clock min_age M) l) +
  length (filter (λ e, too_recent clock min_age M e = true) l) =
  length (filter (λ e, is_Some (M !! e)) l).
Proof.
  induction l as [|e l IH]; intros Hno; [done|]. rewrite omap_cons_eq.
  assert (¬ test_raises clock min_age M e) as He
    by (apply Hno, list_elem_of_here).
  specialize (IH (λ e' He', Hno e' (list_elem_of_further _ _ _ He'))).
  assert ((M !! e = None ∧ pick clock min_age M e = None ∧
           too_recent clock min_age M e = false) ∨
          (is_Some (M !! e) ∧
           ((is_Some (pick clock min_age M e) ∧
             too_recent clock min_age M e = false) ∨
            (pick clock min_age M e = None ∧
             too_recent clock min_age M e = true)))) as Hcases.
  { unfold test_raises, pick, too_recent, verdict in *.
    destruct (M !! e) as [d|]; cbn [fmap option_fmap option_map] in *;
      [|by left].
    right. split; [by eexists|].
    destruct (passes _ _ _ _) as [[]|err]; [left|right|]; eauto.
    destruct He. by exists err. }
  destruct Hcases as [(Hd & Hp & Ht)|(Hd & [([x Hp] & Ht)|(Hp & Ht)])];
    rewrite Hp.
  - rewrite !filter_cons_False; [done|by rewrite Hd; intros [? ?]|congruence].
  - rewrite filter_cons_False by congruence.
    rewrite filter_cons_True by done. cbn [length]. lia.
  - rewrite !filter_cons_True by done. cbn [length]. lia.
Qed.

Lemma filter_elements_intersection {V} (F : gset string) (M : gmap string V) :
  filter (λ e, is_Some (M !! e)) (elements F) ≡ₚ elements (F ∩ dom M).
Proof.
  apply NoDup_Permutation.
  - apply NoDup_filter, NoDup_elements.
  - apply NoDup_elements.
  - intros x. rewrite list_elem_of_filter, !elem_of_elements,
      elem_of_intersection, elem_of_dom. tauto.
Qed.

(** v2 and v3 select without a filter. *)
Lemma v2_select_episodes_spec F (M : gmap string V2.EpData) :
  V2.select_episodes F M =
  omap (λ e, (λ d, {| V2.episode_id := e; V2.ep_data := d |}) <$> M !! e)
       (elements F).
Proof.
  unfold V2.select_episodes.
  match goal with |- foldl ?f _ _ = _ => set (step := f) end.
  enough (∀ l c, foldl step c l =
    c ++ omap (λ e, (λ d, {| V2.episode_id := e; V2.ep_data := d |})
                      <$> M !! e) l) as Hgen by apply (Hgen _ []).
  induction l as [|e l IH]; intros c; [cbn; by rewrite app_nil_r|].
  rewrite foldl_cons, omap_cons_eq. unfold step at 2.
  destruct (M !! e) as [d|]; cbn [fmap option_fmap option_map].
  - by rewrite IH, <- app_assoc.
  - by rewrite IH.
Qed.

Lemma v3_select_episodes_spec F (M : gmap string V3.EpData) :
  V3.select_episodes F M =
  omap (λ e, (λ d, {| V3.episode_id := e; V3.ep_data := d |}) <$> M !! e)
       (elements F).
Proof.
  unfold V3.select_episodes.
  match goal with |- foldl ?f _ _ = _ => set (step := f) end.
  enough (∀ l c, foldl step c l =
    c ++ omap (λ e, (λ d, {| V3.episode_id := e; V3.ep_data := d |})
                      <$> M !! e) l) as Hgen by apply (Hgen _ []).
  induction l as [|e l IH]; intros c; [cbn; by rewrite app_nil_r|].
  rewrite foldl_cons, omap_cons_eq. unfold step at 2.
  destruct (M !! e) as [d|]; cbn [fmap option_fmap option_map].
  - by rewrite IH, <- app_assoc.
  - by rewrite IH.
Qed.

Lemma v2_selected_ids (M : gmap string V2.EpData) (l : list string) :
  V2.episode_id <$>
    omap (λ e, (λ d, {| V2.episode_id := e; V2.ep_data := d |}) <$> M !! e) l
  = filter (λ e, is_Some (M !! e)) l.
Proof.
  induction l as [|e l IH]; [done|]. rewrite omap_cons_eq.
  destruct (M !! e) as [d|] eqn:He; cbn [fmap option_fmap option_map].
  - rewrite filter_cons_True by (rewrite He; eauto).
    by rewrite fmap_cons, IH.
  - rewrite filter_cons_False; [done|]. rewrite He. by intros [? ?].
Qed.

(** C2: before any age filtering the deletion candidates are exactly the
    finished identifiers that are keys of the eligible map, each once, and
    each candidate carries the map's entry for its identifier.  This is the
    loop of v4's [main] with no AGE configured, which always returns and
    skips nothing, and the loop of v2's [main]. *)
Theorem candidates_are_the_intersection (clock : V4.Clock) (F : gset string)
    (M4 : gmap string V4.EpData) (M2 : gmap string V2.EpData) :
  (∃ candidates,
     V4.select_episodes clock None F M4 = Ok (candidates, 0) ∧
     V4.episode_id <$> candidates ≡ₚ elements (F ∩ dom M4) ∧
     Forall (λ ep, M4 !! V4.episode_id ep = Some (V4.ep_data ep))
            candidates) ∧
  V2.episode_id <$> V2.select_episodes F M2 ≡ₚ elements (F ∩ dom M2) ∧
  Forall (λ ep, M2 !! V2.episode_id ep = Some (V2.ep_data ep))
         (V2.select_episodes F M2).
Proof.
  rewrite v4_select_episodes_no_age, v2_select_episodes_spec.
  split; [|split].
  - eexists. split; [done|]. split.
    + rewrite picked_ids, <- filter_elements_intersection.
      apply reflexive_eq, list_filter_iff. intros e.
      unfold pick. destruct (M4 !! e); cbn; split; eauto; by intros [? ?].
    + apply picked_lookup.
  - by rewrite v2_selected_ids, filter_elements_intersection.
  - apply Forall_forall. intros ep Hin.
    apply list_elem_of_omap in Hin as (e & _ & Hp).
    destruct (M2 !! e) as [d|] eqn:He; [|done].
    injection Hp as <-. done.
Qed.

(** ** Insertion-ordered dicts *)

Lemma dict_set_fresh {V} (k : string) (v : V) (d : list (string * V)) :
  k ∉ dict_keys d → dict_set k v d = d ++ [(k, v)].
Proof.
  unfold dict_keys. induction d as [|[k' v'] d IH]; intros Hk; [done|].
  cbn in *. apply not_elem_of_cons in Hk as [Hne Hk].
  rewrite decide_False by done. by rewrite IH.
Qed.

Lemma dict_set_keys {V} (k : string) (v : V) (d : list (string * V)) :
  dict_keys (dict_set k v d) =
  if decide (k ∈ dict_keys d) then dict_keys d else dict_keys d ++ [k].
Proof.
  unfold dict_keys. induction d as [|[k' v'] d IH]; [done|]. cbn.
  destruct (decide (k = k')) as [->|Hne].
  - rewrite decide_True by apply list_elem_of_here. done.
  - cbn. rewrite IH. destruct (decide (k ∈ d.*1)) as [Hin|Hnin].
    + rewrite decide_True by (by apply list_elem_of_further). done.
    + rewrite decide_False; [done|].
      intros [?|?]%elem_of_cons; congruence.
Qed.

Lemma dict_set_NoDup {V} (k : string) (v : V) (d : list (string * V)) :
  NoDup (dict_keys d) → NoDup (dict_keys (dict_set k v d)).
Proof.
  intros Hd. rewrite dict_set_keys. case_decide; [done|].
  apply NoDup_app. split; [done|]. split.
  - intros x Hx ->%list_elem_of_singleton. done.
  - apply NoDup_singleton.
Qed.

Lemma dict_set_elem_of {V} (k k' : string) (v v' : V) (d : list (string * V)) :
  (k', v') ∈ dict_set k v d → (k' = k ∧ v' = v) ∨ (k', v') ∈ d.
Proof.
  induction d as [|[k0 v0] d IH]; cbn.
  - intros [= -> ->]%list_elem_of_singleton. auto.
  - case_decide as Hk.
    + intros [[= -> ->]|Hin]%elem_of_cons; [auto|].
      right. by apply list_elem_of_further.
    + intros [[= -> ->]|Hin]%elem_of_cons.
      * right. apply list_elem_of_here.
      * destruct (IH Hin) as [?|?]; [auto|].
        right. by apply list_elem_of_further.
Qed.

(** ** The age filter on audiobooks *)

(** The test of an entry of the audiobook dict. *)
Definition ab_verdict (clock : V4.Clock) (A : Z) (kv : string * V4.AbData)
  : result bool :=
  V4.is_old_enough clock (V4.now_audiobook clock kv.1)
                   (V4.ab_added_at kv.2) A.

Definition ab_old (clock : V4.Clock) (A : Z) (kv : string * V4.AbData)
  : bool :=
  match ab_verdict clock A kv with Ok b => b | Raise _ => false end.

Definition ab_recent (clock : V4.Clock) (A : Z) (kv : string * V4.AbData)
  : bool :=
  match ab_verdict clock A kv with Ok b => negb b | Raise _ => false end.

Lemma v4_select_audiobooks_spec clock A (M : list (string * V4.AbData)) :
  NoDup (dict_keys M) →
  match V4.select_audiobooks clock (Some A) M with
  | Ok r =>
      r = (filter (λ kv, ab_old clock A kv = true) M,
           length (filter (λ kv, ab_recent clock A kv = true) M)) ∧
      ∀ kv, kv ∈ M → is_ok (ab_verdict clock A kv) = true
  | Raise err => ∃ kv, kv ∈ M ∧ ab_verdict clock A kv = Raise err
  end.
Proof.
  unfold V4.select_audiobooks.
  match goal with
  | |- _ → match for_each ?f _ _ with _ => _ end => set (step := f)
  end.
  assert (∀ acc n kv, step (acc, n) kv =
    match ab_verdict clock A kv with
    | Raise err => Raise err
    | Ok true => Ok (dict_set kv.1 kv.2 acc, n)
    | Ok false => Ok (acc, S n)
    end) as Hstep.
  { intros acc n [k ab]. unfold step, ab_verdict. cbn.
    by destruct (V4.is_old_enough _ _ _ _) as [[]|]. }
  enough (∀ l acc n,
    NoDup (dict_keys (acc ++ l)) →
    match for_each step (acc, n) l with
    | Ok r =>
        r = (acc ++ filter (λ kv, ab_old clock A kv = true) l,
             n + length (filter (λ kv, ab_recent clock A kv = true) l)) ∧
        ∀ kv, kv ∈ l → is_ok (ab_verdict clock A kv) = true
    | Raise err => ∃ kv, kv ∈ l ∧ ab_verdict clock A kv = Raise err
    end) as Hgen by (intros HM; by apply (Hgen M [] 0)).
  induction l as [|[k ab] l IH]; intros acc n Hnd.
  - cbn. rewrite app_nil_r, Nat.add_0_r. split; [done|].
    by intros kv ?%elem_of_nil.
  - cbn [for_each]. rewrite Hstep.
    destruct (ab_verdict clock A (k, ab)) as [[]|err] eqn:Hv;
      cbn [mbind result_bind fst snd].
    + rewrite dict_set_fresh.
      2:{ unfold dict_keys in *. rewrite fmap_app, fmap_cons in Hnd.
          apply NoDup_app in Hnd as (_ & Hdisj & _).
          intros Hin. apply (Hdisj _ Hin). apply list_elem_of_here. }
      specialize (IH (acc ++ [(k, ab)]) n).
      rewrite <- app_assoc in IH. specialize (IH Hnd).
      destruct (for_each step _ l) as [r|err].
      * destruct IH as [-> Hok]. split.
        -- rewrite filter_cons_True by (unfold ab_old; by rewrite Hv).
           rewrite filter_cons_False
             by (unfold ab_recent; rewrite Hv; cbn; congruence).
           by rewrite <- app_assoc.
        -- intros kv [->|Hin]%elem_of_cons; [by rewrite Hv|by apply Hok].
      * destruct IH as (kv & Hin & Hkv). exists kv.
        split; [by apply list_elem_of_further|done].
    + specialize (IH acc (S n)).
      assert (NoDup (dict_keys (acc ++ l))) as Hnd'.
      { unfold dict_keys in *. rewrite fmap_app, fmap_cons in Hnd.
        rewrite fmap_app. apply NoDup_app in Hnd as (Ha & Hdisj & Hl).
        apply NoDup_cons in Hl as [_ Hl].
        apply NoDup_app. split; [done|]. split; [|done].
        intros x Hx Hx'. apply (Hdisj _ Hx). by apply list_elem_of_further. }
      specialize (IH Hnd').
      destruct (for_each step _ l) as [r|err].
      * destruct IH as [-> Hok]. split.
        -- rewrite filter_cons_False
             by (unfold ab_old; rewrite Hv; congruence).
           rewrite filter_cons_True by (unfold ab_recent; by rewrite Hv).
           cbn [length]. f_equal. lia.
        -- intros kv [->|Hin]%elem_of_cons; [by rewrite Hv|by apply Hok].
      * destruct IH as (kv & Hin & Hkv). exists kv.
        split; [by apply list_elem_of_further|done].
    + exists (k, ab). split; [apply list_elem_of_here|done].
Qed.

Lemma v4_select_audiobooks_Ok clock A (M : list (string * V4.AbData)) sel k :
  NoDup (dict_keys M) →
  V4.select_audiobooks clock (Some A) M = Ok (sel, k) →
  sel = filter (λ kv, ab_old clock A kv = true) M ∧
  k = length (filter (λ kv, ab_recent clock A kv = true) M) ∧
  ∀ kv, kv ∈ M → is_ok (ab_verdict clock A kv) = true.
Proof.
  intros Hnd Hsel.
  pose proof (v4_select_audiobooks_spec clock A M Hnd) as Hs.
  rewrite Hsel in Hs. by destruct Hs as [[= -> ->] ?].
Qed.

Lemma v4_select_audiobooks_returns clock A (M : list (string * V4.AbData)) :
  NoDup (dict_keys M) →
  (∀ kv, kv ∈ M → is_ok (ab_verdict clock A kv) = true) →
  ∃ sel k, V4.select_audiobooks clock (Some A) M = Ok (sel, k).
Proof.
  intros Hnd Hok.
  pose proof (v4_select_audiobooks_spec clock A M Hnd) as Hs.
  destruct (V4.select_audiobooks clock (Some A) M) as [[sel k]|err];
    [by eauto|].
  destruct Hs as (kv & Hin & Hkv). specialize (Hok kv Hin).
  by rewrite Hkv in Hok.
Qed.

Lemma is_old_enough_truthy clock now t A v :
  t ≠ 0%Z → V4.fromtimestamp_ms clock t = Ok v →
  V4.is_old_enough clock now (Some t) A = Ok (A <=? now - v)%Z.
Proof.
  intros Ht Hv. unfold V4.is_old_enough.
  assert (truthy (Some t) = true) as ->
    by (apply truthy_option_Z; by eexists).
  cbn. by rewrite Hv.
Qed.

Lemma is_old_enough_raises clock now t A err :
  t ≠ 0%Z → V4.fromtimestamp_ms clock t = Raise err →
  V4.is_old_enough clock now (Some t) A = Raise err.
Proof.
  intros Ht Hv. unfold V4.is_old_enough.
  assert (truthy (Some t) = true) as ->
    by (apply truthy_option_Z; by eexists).
  cbn. by rewrite Hv.
Qed.

Lemma is_old_enough_falsy clock now a A :
  truthy a = false → V4.is_old_enough clock now a A = Ok true.
Proof. intros Ha. unfold V4.is_old_enough. by rewrite Ha. Qed.

Lemma selected_iff clock min_age F M sel k e :
  V4.select_episodes clock min_age F M = Ok (sel, k) →
  e ∈ V4.episode_id <$> sel ↔
  e ∈ F ∧ ∃ d, M !! e = Some d ∧
               passes clock (V4.now_episode clock e) min_age (V4.added_at d)
               = Ok true.
Proof.
  intros [-> _]%v4_select_episodes_Ok.
  rewrite picked_ids, list_elem_of_filter, elem_of_elements.
  split.
  - intros [[c Hc] HF]. apply pick_some in Hc as (d & ? & ? & _). eauto.
  - intros [HF (d & Hd & Hp)]. split; [|done].
    exists {| V4.episode_id := e; V4.ep_data := d |}.
    apply pick_some. eauto.
Qed.



(** ** The age filter (C3) *)


(** The age the test compares is a difference on the local calendar, not the
    time that has passed.  In London the clocks go back one hour on the 25th
    of October 2026: an episode added on the 20th at 12:00 UTC is, on the
    26th at 12:30 UTC, six days and half an hour old; the London calendar
    reads 13:00 and 12:30 at these instants, and the test finds the episode
    younger than six days. *)
Definition london_2026 : V4.Clock :=
  {| V4.fromtimestamp_ms ms :=
       Ok (ms * 1000 + (if ms <? 1792890000000 then 3600000000 else 0))%Z;
     V4.now_episode _ := (1793017800000 * 1000)%Z;
     V4.now_audiobook _ := (1793017800000 * 1000)%Z |}.

Example age_is_read_off_the_local_calendar :
  let six_days := (6 * 86400 * 1000000)%Z in
  V4.is_old_enough london_2026 (V4.now_episode london_2026 "e")
    (Some 1792497600000%Z) six_days = Ok false ∧
  (six_days ≤ (1793017800000 - 1792497600000) * 1000)%Z.
Proof. split; [by vm_compute|]. cbn. lia. Qed.



(** ** Invariants of the scanning loops *)

Lemma bind_Ok {A B} (r : result A) (f : A → result B) (b : B) :
  r ≫= f = Ok b ↔ ∃ a, r = Ok a ∧ f a = Ok b.
Proof.
  destruct r as [a|e]; cbn; split.
  - eauto.
  - by intros (a' & [= <-] & ?).
  - done.
  - by intros (? & ? & _).
Qed.

Lemma not_none_Ok {A} (v : option A) (a : A) :
  not_none v = Ok a ↔ v = Some a.
Proof. destruct v; cbn; split; congruence. Qed.

Lemma foldl_invariant {A B} (I : A → Prop) (f : A → B → A) (l : list B) (a : A) :
  I a → (∀ a x, x ∈ l → I a → I (f a x)) → I (foldl f a l).
Proof.
  revert a. induction l as [|x l IH]; intros a Ha Hf; [done|].
  rewrite foldl_cons. apply IH.
  - apply Hf; [apply list_elem_of_here|done].
  - intros a' y Hy. apply Hf. by apply list_elem_of_further.
Qed.

Lemma for_each_invariant {A B} (I : A → Prop) (body : A → B → result A)
    (l : list B) (a r : A) :
  I a → (∀ a x a', x ∈ l → I a → body a x = Ok a' → I a') →
  for_each body a l = Ok r → I r.
Proof.
  revert a. induction l as [|x l IH]; intros a Ha Hbody; cbn.
  - by intros [= <-].
  - destruct (body a x) as [a'|e] eqn:Hx; cbn; [|done].
    apply IH.
    + eapply Hbody; [apply list_elem_of_here|done..].
    + intros a1 y a2 Hy. apply Hbody. by apply list_elem_of_further.
Qed.

(** A property that one step establishes and the later steps keep. *)
Lemma foldl_reaches {A B} (Q : A → Prop) (f : A → B → A) (l : list B)
    (a : A) (x : B) :
  x ∈ l → (∀ a, Q (f a x)) → (∀ a y, Q a → Q (f a y)) → Q (foldl f a l).
Proof.
  intros Hx Hset Hkeep. revert a.
  induction l as [|y l IH]; intros a; [by apply elem_of_nil in Hx|].
  rewrite foldl_cons. apply elem_of_cons in Hx as [<-|Hx].
  - apply (foldl_invariant Q); [apply Hset|]. intros ? ? _. apply Hkeep.
  - by apply IH.
Qed.

Lemma for_each_reaches {A B} (Q : A → Prop) (body : A → B → result A)
    (l : list B) (a r : A) (x : B) :
  x ∈ l →
  (∀ a a', body a x = Ok a' → Q a') →
  (∀ a y a', Q a → body a y = Ok a' → Q a') →
  for_each body a l = Ok r → Q r.
Proof.
  intros Hx Hset Hkeep. revert a.
  induction l as [|y l IH]; intros a; [by apply elem_of_nil in Hx|].
  cbn. destruct (body a y) as [a'|e] eqn:Hy; cbn; [|done].
  apply elem_of_cons in Hx as [<-|Hx].
  - apply (for_each_invariant Q); [by eapply Hset|].
    intros ? ? ? _. apply Hkeep.
  - by apply IH.
Qed.

(** ** What the scans read off an item *)

(** The media, the tags, the episodes and the titles of an item, where its
    details hold them; the defaults of the code where the key is missing. *)
Definition item_media (full_item : FullItem) : Media :=
  default no_media (dict_get (media full_item) no_media).

Definition item_metadata (full_item : FullItem) : Metadata :=
  default no_metadata (dict_get (metadata (item_media full_item)) no_metadata).

Definition item_tags (full_item : FullItem) : list string :=
  default [] (dict_get (tags (item_media full_item)) []).

Definition item_episodes (full_item : FullItem) : list Episode :=
  default [] (dict_get (episodes (item_media full_item)) []).

(** The details of an item hold a [null] where the scans use a dict or a
    list: the media, the metadata or the tags. *)
Definition null_details (full_item : FullItem) : Prop :=
  media full_item = Null ∨
  metadata (item_media full_item) = Null ∨
  tags (item_media full_item) = Null.

Section ScanSteps.
Context {Srv : Type} `{ABSServer Srv}.

(** One step of the podcast scan, when it returns. *)
Lemma v4_scan_podcast_Ok (s : Srv) (M M' : gmap string V4.EpData) item :
  V4.scan_podcast s M item = Ok M' →
  match get_library_item s (item_id item) with
  | Raise _ => M' = M
  | Ok full_item =>
      ¬ null_details full_item ∧
      if bool_decide ("KEEP" ∈ item_tags full_item) then M' = M
      else
        episodes (item_media full_item) ≠ Null ∧
        M' = foldl (V4.scan_episode (item_id item)
                      (dict_get (title (item_metadata full_item))
                                "Unknown Podcast"))
                   M (item_episodes full_item)
  end.
Proof.
  unfold V4.scan_podcast, null_details, item_tags, item_episodes,
    item_metadata, item_media.
  destruct (get_library_item s (item_id item)) as [full|err];
    [|by intros [= <-]].
  destruct (media full) as [| |m]; cbn; [|done|].
  - rewrite bool_decide_eq_false_2 by apply not_elem_of_nil.
    intros [= <-]. split; [|done]. by intros [?|[?|?]].
  - destruct (metadata m) as [| |md]; cbn; [|done|];
      (destruct (tags m) as [| |tgs]; cbn; [|done|]);
      try (rewrite bool_decide_eq_false_2 by apply not_elem_of_nil);
      try case_bool_decide;
      try (intros [= <-]; split; [by intros [?|[?|?]]|done]);
      (destruct (episodes m) as [| |eps]; cbn; [|done|]);
      intros [= <-]; (split; [by intros [?|[?|?]]|done]).
Qed.

(** One step of the audiobook scan, when it returns. *)
Lemma v4_scan_audiobook_Ok (s : Srv) F (M M' : list (string * V4.AbData))
    item :
  V4.scan_audiobook s F M item = Ok M' →
  if bool_decide (item_id item ∉ F) then M' = M
  else
    match get_library_item s (item_id item) with
    | Raise _ => M' = M
    | Ok full_item =>
        ¬ null_details full_item ∧
        if bool_decide ("KEEP" ∈ item_tags full_item) then M' = M
        else
          M' = dict_set (item_id item)
                 {| V4.ab_library_item_id := item_id item;
                    V4.audiobook_title :=
                      dict_get (title (item_metadata full_item))
                               "Unknown Audiobook";
                    V4.author_name :=
                      dict_get (authorName (item_metadata full_item))
                               "Unknown Author";
                    V4.ab_added_at := addedAt full_item |} M
    end.
Proof.
  unfold V4.scan_audiobook, null_details, item_tags, item_metadata,
    item_media.
  case_bool_decide; [by intros [= <-]|].
  destruct (get_library_item s (item_id item)) as [full|err];
    [|by intros [= <-]].
  destruct (media full) as [| |m]; cbn; [|done|].
  - rewrite bool_decide_eq_false_2 by apply not_elem_of_nil.
    intros [= <-]. split; [|done]. by intros [?|[?|?]].
  - destruct (metadata m) as [| |md]; cbn; [|done|];
      (destruct (tags m) as [| |tgs]; cbn; [|done|]);
      try (rewrite bool_decide_eq_false_2 by apply not_elem_of_nil);
      try case_bool_decide;
      intros [= <-]; (split; [by intros [?|[?|?]]|done]).
Qed.

(** The body of the loop over the libraries, when it returns. *)
Lemma v4_scan_library_Ok {A} (s : Srv) (scan : A → Item → result A)
    (lib : Library) (M M' : A) :
  (items ← get_library_items s (lib_id lib);
   items ← not_none items;
   for_each scan M items) = Ok M' →
  ∃ items, get_library_items s (lib_id lib) = Ok (Some items) ∧
           for_each scan M items = Ok M'.
Proof.
  intros (items & Hitems & (items' & ->%not_none_Ok & Hscan)%bind_Ok)%bind_Ok.
  eauto.
Qed.
End ScanSteps.

(** ** Protected items (C1) *)

Section Keep.
Context {Srv : Type} `{ABSServer Srv}.

(** The item [library_item_id] of the catalogue carries the tag KEEP. *)
Definition keep_tagged (s : Srv) (library_item_id : string) : Prop :=
  ∃ full_item,
    get_library_item s library_item_id = Ok full_item ∧
    "KEEP" ∈ item_tags full_item.

Lemma v4_scan_episode_owner lid ttl (M : gmap string V4.EpData) ep e d :
  V4.scan_episode lid ttl M ep !! e = Some d →
  V4.library_item_id d = lid ∨ M !! e = Some d.
Proof.
  unfold V4.scan_episode. destruct (truthy (ep_id ep)); [|auto].
  destruct (decide (default "" (ep_id ep) = e)) as [->|Hne].
  - rewrite lookup_insert_eq. intros [= <-]. auto.
  - rewrite lookup_insert_ne by done. auto.
Qed.

Lemma v4_scan_podcast_no_keep (s : Srv) (M M' : gmap string V4.EpData) item :
  (∀ e d, M !! e = Some d → ¬ keep_tagged s (V4.library_item_id d)) →
  V4.scan_podcast s M item = Ok M' →
  ∀ e d, M' !! e = Some d → ¬ keep_tagged s (V4.library_item_id d).
Proof.
  intros HM Hscan. apply v4_scan_podcast_Ok in Hscan.
  destruct (get_library_item s (item_id item)) as [full|err] eqn:Hget;
    [|by subst].
  destruct Hscan as [_ Hscan].
  case_bool_decide as Hkeep; [by subst|]. destruct Hscan as [_ ->].
  apply (foldl_invariant
           (λ M, ∀ e d, M !! e = Some d →
                        ¬ keep_tagged s (V4.library_item_id d))); [exact HM|].
  intros M'' ep _ HM'' e d Hl.
  apply v4_scan_episode_owner in Hl as [->|Hl]; [|by eapply HM''].
  intros (full' & Hget' & Hk). rewrite Hget in Hget'.
  injection Hget' as <-. by apply Hkeep.
Qed.

Lemma v4_episode_map_no_keep (s : Srv) (M : gmap string V4.EpData) e d :
  V4.build_episode_map s = Ok M → M !! e = Some d →
  ¬ keep_tagged s (V4.library_item_id d).
Proof.
  unfold V4.build_episode_map.
  intros (libs & _ & Hbuild)%bind_Ok. revert e d.
  eapply (for_each_invariant
            (λ M, ∀ e d, M !! e = Some d →
                         ¬ keep_tagged s (V4.library_item_id d)));
    [| |exact Hbuild].
  - intros e d. by rewrite lookup_empty.
  - intros M0 lib M1 _ HM0 (items & _ & Hscan)%v4_scan_library_Ok.
    revert Hscan.
    apply (for_each_invariant
             (λ M, ∀ e d, M !! e = Some d →
                          ¬ keep_tagged s (V4.library_item_id d)));
      [exact HM0|].
    intros M' item M'' _ HM'. by apply v4_scan_podcast_no_keep.
Qed.

(** What holds of every entry of the audiobook dict. *)
Definition audiobook_entry_ok (s : Srv) (F : gset string)
    (kv : string * V4.AbData) : Prop :=
  V4.ab_library_item_id kv.2 = kv.1 ∧ kv.1 ∈ F ∧ ¬ keep_tagged s kv.1.

Lemma v4_scan_audiobook_ok (s : Srv) F (M M' : list (string * V4.AbData))
    item :
  NoDup (dict_keys M) ∧ Forall (audiobook_entry_ok s F) M →
  V4.scan_audiobook s F M item = Ok M' →
  NoDup (dict_keys M') ∧ Forall (audiobook_entry_ok s F) M'.
Proof.
  intros [Hnd HM] Hscan. apply v4_scan_audiobook_Ok in Hscan.
  case_bool_decide as HF; [by subst|].
  destruct (get_library_item s (item_id item)) as [full|err] eqn:Hget;
    [|by subst].
  destruct Hscan as [_ Hscan].
  case_bool_decide as Hkeep; subst; [done|].
  split; [by apply dict_set_NoDup|].
  apply Forall_forall. intros [k ab] Hin.
  apply dict_set_elem_of in Hin as [[-> ->]|Hin].
  - split; [done|]. split; [first [done|by apply dec_stable]|].
    intros (full' & Hget' & Hk). cbn in Hget'. rewrite Hget in Hget'.
    injection Hget' as <-. by apply Hkeep.
  - by apply (proj1 (Forall_forall _ _) HM).
Qed.

Lemma v4_audiobook_map_ok (s : Srv) F (M : list (string * V4.AbData)) :
  V4.build_audiobook_map s F = Ok M →
  NoDup (dict_keys M) ∧ Forall (audiobook_entry_ok s F) M.
Proof.
  unfold V4.build_audiobook_map.
  intros (libs & _ & Hbuild)%bind_Ok. revert Hbuild.
  apply (for_each_invariant
           (λ M, NoDup (dict_keys M) ∧ Forall (audiobook_entry_ok s F) M)).
  - split; [apply NoDup_nil_2|apply Forall_nil_2].
  - intros M0 lib M1 _ HM0 (items & _ & Hscan)%v4_scan_library_Ok.
    revert Hscan.
    apply (for_each_invariant
             (λ M, NoDup (dict_keys M) ∧ Forall (audiobook_entry_ok s F) M));
      [exact HM0|].
    intros M' item M'' _ HM'. by apply v4_scan_audiobook_ok.
Qed.
End Keep.

(** ** The two phases of v4's [main] *)

Section Run.
Context {Srv : Type} `{ABSServer Srv}.

(** Whether [main] enters a phase. *)
Definition enters_podcasts (cfg : V4.Config) (F : gset string) : bool :=
  bool_decide (V4.media_type cfg ∈ ["PODCASTS"; "EVERYTHING"]) && truthy F.

Definition enters_audiobooks (cfg : V4.Config) (F : gset string) : bool :=
  bool_decide (V4.media_type cfg ∈ ["AUDIOBOOKS"; "EVERYTHING"]) && truthy F.

(** What the podcast phase finds in server state [s]: the episodes to
    delete and the number of those it skips; nothing when [main] does not
    enter the phase. *)
Definition v4_episodes_found (cfg : V4.Config) (clock : V4.Clock)
    (F : gset string) (s : Srv) : result (list V4.EpisodeToDelete * nat) :=
  if enters_podcasts cfg F then
    M ← V4.build_episode_map s;
    V4.select_episodes clock (V4.min_age cfg) F M
  else Ok ([], 0).

(** What the audiobook phase finds in server state [s]. *)
Definition v4_audiobooks_found (cfg : V4.Config) (clock : V4.Clock)
    (F : gset string) (s : Srv) : result (list (string * V4.AbData) * nat) :=
  if enters_audiobooks cfg F then
    M ← V4.build_audiobook_map s F;
    V4.select_audiobooks clock (V4.min_age cfg) M
  else Ok ([], 0).

(** The requests the podcast phase is going to send from server state [s]. *)
Definition v4_podcast_requests (cfg : V4.Config) (clock : V4.Clock)
    (F : gset string) (s : Srv) : list DeleteRequest :=
  match v4_episodes_found cfg clock F s with
  | Ok (sel, _) => if V4.dry_run cfg then [] else v4_request <$> sel
  | Raise _ => []
  end.

(** The requests the audiobook phase is going to send from server state
    [s]. *)
Definition v4_audiobook_requests (cfg : V4.Config) (clock : V4.Clock)
    (F : gset string) (s : Srv) : list DeleteRequest :=
  match v4_audiobooks_found cfg clock F s with
  | Ok (sel, _) =>
      if V4.dry_run cfg then []
      else (λ ab, item_request (V4.ab_library_item_id ab)) <$> dict_values sel
  | Raise _ => []
  end.

Lemma count_skipped_0 t : V4.count_skipped 0 t = t.
Proof. destruct t. unfold V4.count_skipped. cbn. f_equal. lia. Qed.

Lemma send_all_nil (w : World Srv) : send_all [] w = (w, []).
Proof. reflexivity. Qed.

Lemma v4_podcast_phase cfg clock F (w : World Srv) t :
  (if enters_podcasts cfg F
   then V4.process_podcast_episodes cfg clock F w t
   else (w, Ok t)) =
  match v4_episodes_found cfg clock F (server w) with
  | Raise e => (w, Raise e)
  | Ok (sel, k) =>
      let '(w', answers) :=
        send_all (v4_podcast_requests cfg clock F (server w)) w in
      (w', Ok (v4_add (if V4.dry_run cfg then length sel
                       else successes answers)
                      (failures answers)
                      (V4.count_skipped k t)))
  end.
Proof.
  unfold v4_podcast_requests, v4_episodes_found,
    V4.process_podcast_episodes.
  destruct (enters_podcasts cfg F).
  - destruct (V4.build_episode_map (server w)) as [M|e]; [|done]. cbn.
    destruct (V4.select_episodes clock (V4.min_age cfg) F M)
      as [[c sk]|e]; [|done].
    destruct c as [|ep c]; cbn [truthy list_truthy].
    + destruct (V4.dry_run cfg); cbn; by rewrite v4_add_0.
    + destruct (V4.dry_run cfg).
      * by rewrite v4_delete_episodes_dry.
      * rewrite v4_delete_episodes_real. by destruct (send_all _ _).
  - cbn. rewrite count_skipped_0.
    destruct (V4.dry_run cfg); cbn; by rewrite v4_add_0.
Qed.

Lemma v4_audiobook_phase cfg clock F (w : World Srv) t :
  (if enters_audiobooks cfg F
   then V4.process_audiobook_items cfg clock F w t
   else (w, Ok t)) =
  match v4_audiobooks_found cfg clock F (server w) with
  | Raise e => (w, Raise e)
  | Ok (sel, k) =>
      let '(w', answers) :=
        send_all (v4_audiobook_requests cfg clock F (server w)) w in
      (w', Ok (v4_add (if V4.dry_run cfg then length sel
                       else successes answers)
                      (failures answers)
                      (V4.count_skipped k t)))
  end.
Proof.
  unfold v4_audiobook_requests, v4_audiobooks_found,
    V4.process_audiobook_items.
  destruct (enters_audiobooks cfg F).
  - destruct (V4.build_audiobook_map (server w) F) as [M|e]; [|done]. cbn.
    destruct (V4.select_audiobooks clock (V4.min_age cfg) M)
      as [[c sk]|e]; [|done].
    destruct c as [|ab c]; cbn [truthy list_truthy].
    + destruct (V4.dry_run cfg); cbn; by rewrite v4_add_0.
    + destruct (V4.dry_run cfg).
      * rewrite v4_delete_audiobooks_dry. unfold dict_values.
        by rewrite length_fmap.
      * rewrite v4_delete_audiobooks_real. by destruct (send_all _ _).
  - cbn. rewrite count_skipped_0.
    destruct (V4.dry_run cfg); cbn; by rewrite v4_add_0.
Qed.

(** The world after the podcast phase. *)
Definition v4_after_podcasts (cfg : V4.Config) (clock : V4.Clock)
    (F : gset string) (w : World Srv) : World Srv :=
  (send_all (v4_podcast_requests cfg clock F (server w)) w).1.

(** The summary of a run that found [sel1] and [sel2], skipped [k1] and
    [k2], and got the answers [a1] and [a2]. *)
Definition v4_summary (cfg : V4.Config) (n1 n2 k1 k2 : nat)
    (a1 a2 : list (result unit)) : V4.Summary :=
  {| V4.deleted :=
       if V4.dry_run cfg then n1 + n2 else successes a1 + successes a2;
     V4.failed := failures a1 + failures a2;
     V4.skipped_too_recent :=
       match V4.min_age cfg with
       | Some _ => Some (k1 + k2)
       | None => None
       end |}.

(** [main], step by step: where each way out leaves the world and what the
    summary says. *)
Lemma v4_main_spec cfg clock (w : World Srv) :
  V4.main cfg clock w =
  if bool_decide (V4.media_type cfg ∉ ["PODCASTS"; "AUDIOBOOKS"; "EVERYTHING"])
  then (w, V4.Exit 1)
  else
    match get_user_with_progress (server w) with
    | Raise HTTPError => (w, V4.Exit 1)
    | Raise e => (w, V4.Uncaught e)
    | Ok user_data =>
        match get_finished_media user_data with
        | Raise e => (w, V4.Uncaught e)
        | Ok (Fe, Fa) =>
            match v4_episodes_found cfg clock Fe (server w) with
            | Raise e => (w, V4.Uncaught e)
            | Ok (sel1, k1) =>
                let r1 :=
                  send_all (v4_podcast_requests cfg clock Fe (server w)) w in
                match v4_audiobooks_found cfg clock Fa (server r1.1) with
                | Raise e => (r1.1, V4.Uncaught e)
                | Ok (sel2, k2) =>
                    let r2 :=
                      send_all (v4_audiobook_requests cfg clock Fa
                                  (server r1.1)) r1.1 in
                    (r2.1,
                     V4.Completed
                       (v4_summary cfg (length sel1) (length sel2) k1 k2
                                   r1.2 r2.2))
                end
            end
        end
    end.
Proof.
  unfold V4.main. case_bool_decide; [done|].
  destruct (get_user_with_progress (server w)) as [user|[]]; [|done..].
  destruct (get_finished_media user) as [[Fe Fa]|e]; [|done].
  fold (enters_podcasts cfg Fe). fold (enters_audiobooks cfg Fa).
  rewrite v4_podcast_phase.
  destruct (v4_episodes_found cfg clock Fe (server w)) as [[sel1 k1]|e];
    [|done].
  cbn zeta. destruct (send_all _ w) as [w1 a1]. cbn [fst snd].
  rewrite v4_audiobook_phase.
  destruct (v4_audiobooks_found cfg clock Fa (server w1)) as [[sel2 k2]|e];
    [|done].
  destruct (send_all _ w1) as [w2 a2]. cbn [fst snd].
  do 2 f_equal. unfold V4.summary_of, v4_summary. cbn.
  destruct (V4.dry_run cfg), (V4.min_age cfg); f_equal; lia.
Qed.

(** The world [main] ends in: it sends the requests of the podcast phase and
    then those of the audiobook phase, planned in the state the first phase
    left, or it stops before the second phase or before both. *)
Lemma v4_main_world cfg clock (w : World Srv) :
  (V4.main cfg clock w).1 = w ∨
  ∃ user_data Fe Fa,
    get_user_with_progress (server w) = Ok user_data ∧
    get_finished_media user_data = Ok (Fe, Fa) ∧
    let w1 := v4_after_podcasts cfg clock Fe w in
    (V4.main cfg clock w).1 = w1 ∨
    (V4.main cfg clock w).1 =
      (send_all (v4_audiobook_requests cfg clock Fa (server w1)) w1).1.
Proof.
  rewrite v4_main_spec. case_bool_decide; [by left|].
  destruct (get_user_with_progress (server w)) as [user|[]]; [|by left..].
  destruct (get_finished_media user) as [[Fe Fa]|e] eqn:Hfin; [|by left].
  destruct (v4_episodes_found cfg clock Fe (server w)) as [[sel1 k1]|e];
    [|by left].
  right. exists user, Fe, Fa. split; [done|]. split; [done|].
  cbn zeta. unfold v4_after_podcasts.
  destruct (v4_audiobooks_found cfg clock Fa _) as [[sel2 k2]|e]; auto.
Qed.

(** Hence what [main] adds to the requests sent. *)
Lemma v4_main_sent cfg clock (w : World Srv) :
  ∃ Fe Fa reqs1 reqs2,
    sent (V4.main cfg clock w).1 = sent w ++ reqs1 ++ reqs2 ∧
    (reqs1 = [] ∨ reqs1 = v4_podcast_requests cfg clock Fe (server w)) ∧
    (reqs2 = [] ∨
     reqs2 = v4_audiobook_requests cfg clock Fa
               (server (send_all reqs1 w).1)).
Proof.
  destruct (v4_main_world cfg clock w) as [->|(user & Fe & Fa & _ & _ & Hw)].
  { exists ∅, ∅, [], []. rewrite app_nil_r. auto. }
  cbn zeta in Hw. unfold v4_after_podcasts in Hw.
  exists Fe, Fa, (v4_podcast_requests cfg clock Fe (server w)).
  destruct Hw as [-> | ->].
  - exists []. rewrite send_all_sent, app_nil_r. auto.
  - eexists. rewrite !send_all_sent, <- app_assoc. auto.
Qed.

(** What a request of a phase names. *)
Lemma v4_podcast_requests_elem cfg clock F (s : Srv) r :
  r ∈ v4_podcast_requests cfg clock F s →
  ∃ M e d,
    V4.build_episode_map s = Ok M ∧ M !! e = Some d ∧ e ∈ F ∧
    passes clock (V4.now_episode clock e) (V4.min_age cfg) (V4.added_at d)
      = Ok true ∧
    r = episode_request (V4.library_item_id d) e ∧
    V4.dry_run cfg = false ∧
    V4.media_type cfg ∈ ["PODCASTS"; "EVERYTHING"].
Proof.
  unfold v4_podcast_requests, v4_episodes_found, enters_podcasts.
  case_bool_decide as Hm; cbn [andb];
    [|destruct (V4.dry_run cfg); by intros ?%elem_of_nil].
  destruct (truthy F);
    [|destruct (V4.dry_run cfg); by intros ?%elem_of_nil].
  destruct (V4.build_episode_map s) as [M|] eqn:Hb;
    [|by intros ?%elem_of_nil]. cbn.
  destruct (V4.select_episodes clock (V4.min_age cfg) F M)
    as [[sel k]|] eqn:Hsel; [|by intros ?%elem_of_nil].
  destruct (V4.dry_run cfg); [by intros ?%elem_of_nil|].
  apply v4_select_episodes_Ok in Hsel as [-> _].
  intros (ep & -> & (e & He & Hp)%list_elem_of_omap)%list_elem_of_fmap.
  apply pick_some in Hp as (d & Hd & Hpass & ->).
  exists M, e, d. by rewrite elem_of_elements in He.
Qed.

Lemma v4_select_audiobooks_subset clock min_age
    (M sel : list (string * V4.AbData)) k kv :
  V4.select_audiobooks clock min_age M = Ok (sel, k) →
  kv ∈ sel → kv ∈ M.
Proof.
  destruct min_age as [A|]; [|by intros [= <- <-]]. cbn.
  intros Hsel.
  revert kv. change (∀ kv, kv ∈ (sel, k).1 → kv ∈ M).
  revert Hsel.
  apply (for_each_invariant (λ acc, ∀ kv, kv ∈ acc.1 → kv ∈ M)).
  - by intros kv ?%elem_of_nil.
  - intros [acc n] [k' ab] acc' Hin Hacc. cbn.
    destruct (V4.is_old_enough _ _ _ _) as [[]|]; cbn; [| |done];
      intros [= <-]; cbn; [|done].
    intros [k'' ab''] [[-> ->]|?]%dict_set_elem_of; [done|by apply Hacc].
Qed.

Lemma v4_audiobook_requests_elem cfg clock F (s : Srv) r :
  r ∈ v4_audiobook_requests cfg clock F s →
  ∃ M k ab,
    V4.build_audiobook_map s F = Ok M ∧ (k, ab) ∈ M ∧
    passes clock (V4.now_audiobook clock k) (V4.min_age cfg)
           (V4.ab_added_at ab) = Ok true ∧
    r = item_request k ∧ V4.dry_run cfg = false ∧
    V4.media_type cfg ∈ ["AUDIOBOOKS"; "EVERYTHING"].
Proof.
  unfold v4_audiobook_requests, v4_audiobooks_found, enters_audiobooks.
  case_bool_decide as Hm; cbn [andb];
    [|destruct (V4.dry_run cfg); by intros ?%elem_of_nil].
  destruct (truthy F);
    [|destruct (V4.dry_run cfg); by intros ?%elem_of_nil].
  destruct (V4.build_audiobook_map s F) as [M|] eqn:Hb;
    [|by intros ?%elem_of_nil]. cbn.
  destruct (V4.select_audiobooks clock (V4.min_age cfg) M)
    as [[sel n]|] eqn:Hsel; [|by intros ?%elem_of_nil].
  destruct (V4.dry_run cfg); [by intros ?%elem_of_nil|].
  destruct (v4_audiobook_map_ok s F M Hb) as [Hnd HM].
  rewrite Forall_forall in HM. unfold dict_values.
  intros (ab & -> & ([k ab'] & -> & Hin)%list_elem_of_fmap)%list_elem_of_fmap.
  cbn [snd]. exists M, k, ab'.
  assert ((k, ab') ∈ M) as HinM by (by eapply v4_select_audiobooks_subset).
  destruct (HM _ HinM) as (Hid & _ & _). cbn in Hid. rewrite Hid.
  split; [done|]. split; [done|]. split; [|done].
  unfold passes. destruct (V4.min_age cfg) as [A|]; [|done].
  apply v4_select_audiobooks_Ok in Hsel as (-> & _ & _); [|done].
  apply list_elem_of_filter in Hin as [Hold _].
  unfold ab_old, ab_verdict in Hold. cbn in Hold.
  by destruct (V4.is_old_enough _ _ _ _) as [[]|].
Qed.
End Run.

(** ** Hard deletes (C7) *)

Section Hard.
Context {Srv : Type} `{ABSServer Srv}.

Lemma v4_podcast_requests_hard cfg clock F (s : Srv) :
  Forall (λ r, dr_params r = [("hard", "1")])
         (v4_podcast_requests cfg clock F s).
Proof.
  unfold v4_podcast_requests.
  destruct (v4_episodes_found cfg clock F s) as [[sel k]|];
    [|apply Forall_nil_2].
  destruct (V4.dry_run cfg); [apply Forall_nil_2|].
  apply Forall_fmap, Forall_true. done.
Qed.

Lemma v4_audiobook_requests_hard cfg clock F (s : Srv) :
  Forall (λ r, dr_params r = [("hard", "1")])
         (v4_audiobook_requests cfg clock F s).
Proof.
  unfold v4_audiobook_requests.
  destruct (v4_audiobooks_found cfg clock F s) as [[sel k]|];
    [|apply Forall_nil_2].
  destruct (V4.dry_run cfg); [apply Forall_nil_2|].
  apply Forall_fmap, Forall_true. done.
Qed.

(** C7: every DELETE request a run of v4's [main] sends, for an episode or
    for a library item, carries the query parameter [hard=1], and so does any
    request the two client methods build when asked for a hard delete. *)
Theorem every_deletion_is_hard (cfg : V4.Config) (clock : V4.Clock)
    (w : World Srv) :
  (∃ new,
     sent (V4.main cfg clock w).1 = sent w ++ new ∧
     Forall (λ r, dr_params r = [("hard", "1")]) new) ∧
  (∀ library_item_id episode_id,
     sent (delete_episode library_item_id episode_id true w).1 =
     sent w ++ [{| dr_endpoint := PodcastEpisode library_item_id episode_id;
                   dr_params := [("hard", "1")] |}]) ∧
  (∀ library_item_id,
     sent (delete_library_item library_item_id true w).1 =
     sent w ++ [{| dr_endpoint := LibraryItem library_item_id;
                   dr_params := [("hard", "1")] |}]).
Proof.
  split; [|split].
  - destruct (v4_main_sent cfg clock w)
      as (Fe & Fa & reqs1 & reqs2 & Hs & H1 & H2).
    exists (reqs1 ++ reqs2). split; [done|].
    apply Forall_app. split.
    + destruct H1 as [-> | ->];
        [apply Forall_nil_2|apply v4_podcast_requests_hard].
    + destruct H2 as [-> | ->];
        [apply Forall_nil_2|apply v4_audiobook_requests_hard].
  - intros lid eid. unfold delete_episode, _delete.
    by destruct (api_delete _ _).
  - intros lid. unfold delete_library_item, _delete.
    by destruct (api_delete _ _).
Qed.
End Hard.

(** ** No request for a protected item (C1) *)

Section Protected.
Context {Srv : Type} `{ABSServer Srv}.

Lemma v4_podcast_requests_spare cfg clock F (s : Srv) L :
  keep_tagged s L →
  Forall (λ r, target r ≠ L) (v4_podcast_requests cfg clock F s).
Proof.
  intros HL. apply Forall_forall. intros r Hr.
  apply v4_podcast_requests_elem in Hr
    as (M & e & d & Hb & Hd & _ & _ & -> & _).
  cbn. intros Heq. rewrite <- Heq in HL.
  by apply (v4_episode_map_no_keep s M e d).
Qed.

Lemma v4_audiobook_requests_spare cfg clock F (s : Srv) L :
  keep_tagged s L →
  Forall (λ r, target r ≠ L) (v4_audiobook_requests cfg clock F s).
Proof.
  intros HL. apply Forall_forall. intros r Hr.
  apply v4_audiobook_requests_elem in Hr
    as (M & k & ab & Hb & Hin & _ & -> & _).
  apply v4_audiobook_map_ok in Hb as [_ HM].
  rewrite Forall_forall in HM. destruct (HM _ Hin) as (_ & _ & Hk).
  cbn in *. intros Heq. by rewrite Heq in Hk.
Qed.

Lemma send_all_keeps_tag (reqs : list DeleteRequest) (w : World Srv) L :
  (∀ s r, target r ≠ L → keep_tagged s L → keep_tagged (api_delete s r).1 L) →
  Forall (λ r, target r ≠ L) reqs →
  keep_tagged (server w) L → keep_tagged (server (send_all reqs w).1) L.
Proof.
  intros Hframe. revert w.
  induction reqs as [|r reqs IH]; intros w Hreqs HL; [done|].
  apply Forall_cons in Hreqs as [Hr Hreqs]. cbn.
  specialize (Hframe (server w) r Hr HL).
  destruct (api_delete (server w) r) as [s' a].
  specialize (IH {| server := s'; sent := sent w ++ [r] |} Hreqs Hframe).
  by destruct (send_all reqs _).
Qed.

(** C1: let the item [L] carry the tag KEEP, on a server where deleting
    something else leaves that tag in place.  Then no entry of
    [build_episode_map]'s result belongs to [L], [L] is no key of
    [build_audiobook_map]'s result, and no DELETE request of the run is
    addressed to [L] or to one of its episodes. *)
Theorem keep_tagged_items_are_never_deleted (cfg : V4.Config)
    (clock : V4.Clock) (w : World Srv) (L : string) :
  keep_tagged (server w) L →
  (∀ s r, target r ≠ L → keep_tagged s L → keep_tagged (api_delete s r).1 L) →
  (∀ M e d, V4.build_episode_map (server w) = Ok M → M !! e = Some d →
            V4.library_item_id d ≠ L) ∧
  (∀ F M, V4.build_audiobook_map (server w) F = Ok M →
          (L ∉ dict_keys M) ∧
          Forall (λ ab, V4.ab_library_item_id ab ≠ L) (dict_values M)) ∧
  (∃ new,
     sent (V4.main cfg clock w).1 = sent w ++ new ∧
     Forall (λ r, target r ≠ L) new).
Proof.
  intros HL Hframe. split; [|split].
  - intros M e d Hb Hd Heq. rewrite <- Heq in HL.
    by apply (v4_episode_map_no_keep (server w) M e d).
  - intros F M Hb. apply v4_audiobook_map_ok in Hb as [_ HM].
    rewrite Forall_forall in HM. split.
    + intros ([k ab] & -> & Hin)%list_elem_of_fmap.
      by destruct (HM _ Hin) as (_ & _ & Hk).
    + apply Forall_forall.
      intros ab ([k ab'] & -> & Hin)%list_elem_of_fmap.
      destruct (HM _ Hin) as (Hid & _ & Hk). cbn in *. rewrite Hid.
      intros Heq. by rewrite Heq in Hk.
  - destruct (v4_main_sent cfg clock w)
      as (Fe & Fa & reqs1 & reqs2 & Hs & H1 & H2).
    exists (reqs1 ++ reqs2). split; [done|].
    assert (Forall (λ r, target r ≠ L) reqs1) as Hreqs1.
    { destruct H1 as [-> | ->];
        [apply Forall_nil_2|by apply v4_podcast_requests_spare]. }
    apply Forall_app. split; [done|].
    destruct H2 as [-> | ->]; [apply Forall_nil_2|].
    apply v4_audiobook_requests_spare. by apply send_all_keeps_tag.
Qed.
End Protected.

(** On the table-driven server a DELETE addressed elsewhere leaves the tags
    of an item in place. *)
Lemma item_tags_without_gone (s : TableServer) L full :
  item_tags (ts_without_gone s L full) = item_tags full.
Proof.
  unfold item_tags, item_media, ts_without_gone. cbn.
  by destruct (media full).
Qed.

Lemma table_server_frame (s : TableServer) (r : DeleteRequest) (L : string) :
  target r ≠ L → keep_tagged s L → keep_tagged (api_delete s r).1 L.
Proof.
  intros Hr (full & Hget & Hkeep).
  unfold keep_tagged, get_library_item in *. cbn in *.
  unfold ts_delete. repeat case_decide; cbn; eauto.
  unfold ts_item in *. cbn.
  destruct (decide (LibraryItem L ∈ ts_gone s)) as [|Hgone]; [done|].
  destruct (assoc L (ts_full s)) as [full0|]; [|done].
  injection Hget as <-.
  rewrite decide_False.
  - eexists. split; [done|].
    by rewrite item_tags_without_gone in *.
  - intros [Heq|?]%elem_of_cons; [|done].
    apply Hr. unfold target. by rewrite <- Heq.
Qed.

Lemma keep_tagged_items_are_never_deleted_witness :
  keep_tagged (server (fresh demo)) "pod2" ∧
  ∃ new,
    sent (V4.main everything utc_2026 (fresh demo)).1 =
      sent (fresh demo) ++ new ∧
    Forall (λ r, target r ≠ "pod2") new.
Proof.
  assert (keep_tagged (server (fresh demo)) "pod2") as Hkeep.
  { eexists. split; [vm_compute; reflexivity|].
    vm_compute. apply list_elem_of_here. }
  split; [exact Hkeep|].
  refine (proj2 (proj2 (keep_tagged_items_are_never_deleted
                          everything utc_2026 (fresh demo) "pod2" Hkeep _))).
  intros s r. apply table_server_frame.
Defined.

(** ** Counters of a whole run *)

(** The same configuration with DRY_RUN off. *)
Definition for_real (cfg : V4.Config) : V4.Config :=
  {| V4.dry_run := false; V4.media_type := V4.media_type cfg;
     V4.min_age := V4.min_age cfg |}.

Section Counters.
Context {Srv : Type} `{ABSServer Srv}.

Lemma v4_plan_dry cfg clock F (s : Srv) :
  V4.dry_run cfg = true →
  v4_podcast_requests cfg clock F s = [] ∧
  v4_audiobook_requests cfg clock F s = [].
Proof.
  intros Hdry. unfold v4_podcast_requests, v4_audiobook_requests.
  rewrite Hdry. split.
  - by destruct (v4_episodes_found cfg clock F s) as [[]|].
  - by destruct (v4_audiobooks_found cfg clock F s) as [[]|].
Qed.

(** What a phase finds does not depend on DRY_RUN. *)
Lemma v4_found_for_real cfg clock F (s : Srv) :
  v4_episodes_found (for_real cfg) clock F s = v4_episodes_found cfg clock F s
  ∧ v4_audiobooks_found (for_real cfg) clock F s
    = v4_audiobooks_found cfg clock F s.
Proof. done. Qed.

(** A completed run: where it ends and what its summary says. *)
Lemma v4_main_completed cfg clock (w : World Srv) sum :
  (V4.main cfg clock w).2 = V4.Completed sum →
  ∃ user_data Fe Fa sel1 k1 sel2 k2,
    get_user_with_progress (server w) = Ok user_data ∧
    get_finished_media user_data = Ok (Fe, Fa) ∧
    let r1 := send_all (v4_podcast_requests cfg clock Fe (server w)) w in
    let r2 :=
      send_all (v4_audiobook_requests cfg clock Fa (server r1.1)) r1.1 in
    v4_episodes_found cfg clock Fe (server w) = Ok (sel1, k1) ∧
    v4_audiobooks_found cfg clock Fa (server r1.1) = Ok (sel2, k2) ∧
    (V4.main cfg clock w).1 = r2.1 ∧
    sum = v4_summary cfg (length sel1) (length sel2) k1 k2 r1.2 r2.2.
Proof.
  rewrite v4_main_spec. case_bool_decide; [done|].
  destruct (get_user_with_progress (server w)) as [user|[]]; [|done..].
  destruct (get_finished_media user) as [[Fe Fa]|e] eqn:Hfin; [|done].
  destruct (v4_episodes_found cfg clock Fe (server w)) as [[sel1 k1]|e]
    eqn:H1; [|done].
  cbn zeta.
  destruct (v4_audiobooks_found cfg clock Fa _) as [[sel2 k2]|e] eqn:H2;
    [|done].
  cbn. intros [= <-]. exists user, Fe, Fa, sel1, k1, sel2, k2.
  by rewrite H2.
Qed.
End Counters.

(** ** Error isolation (C4) *)

Section Isolation.
Context {Srv : Type} `{ABSServer Srv}.

(** C4: the deletion loops send one request per candidate, in order,
    whatever the answers are; an answer that raises ([HTTPError] or any other
    exception) adds one to the failed counter and a normal answer adds one to
    the deleted counter, so the two counters grow by the number of candidates
    together.  Once the candidates of a phase are selected the phase always
    returns its totals, and the summary of a completed run satisfies
    deleted + failed = number of DELETE requests sent. *)
Theorem deletion_failures_are_isolated (cfg : V4.Config) (clock : V4.Clock)
    (w : World Srv) (t : V4.Totals) :
  (∀ eps,
     let r := send_all (v4_request <$> eps) w in
     V4.delete_episodes false eps w t =
       (r.1, v4_add (successes r.2) (failures r.2) t) ∧
     sent r.1 = sent w ++ (v4_request <$> eps) ∧
     successes r.2 + failures r.2 = length eps) ∧
  (∀ abs,
     let r :=
       send_all ((λ ab, item_request (V4.ab_library_item_id ab)) <$> abs) w in
     V4.delete_audiobooks false abs w t =
       (r.1, v4_add (successes r.2) (failures r.2) t) ∧
     sent r.1 =
       sent w ++ ((λ ab, item_request (V4.ab_library_item_id ab)) <$> abs) ∧
     successes r.2 + failures r.2 = length abs) ∧
  (∀ F M selected skipped,
     V4.build_episode_map (server w) = Ok M →
     V4.select_episodes clock (V4.min_age cfg) F M = Ok (selected, skipped) →
     ∃ w' t', V4.process_podcast_episodes cfg clock F w t = (w', Ok t')) ∧
  (∀ F M selected skipped,
     V4.build_audiobook_map (server w) F = Ok M →
     V4.select_audiobooks clock (V4.min_age cfg) M = Ok (selected, skipped) →
     ∃ w' t', V4.process_audiobook_items cfg clock F w t = (w', Ok t')) ∧
  (V4.dry_run cfg = false →
   ∀ sum, (V4.main cfg clock w).2 = V4.Completed sum →
          ∃ new,
            sent (V4.main cfg clock w).1 = sent w ++ new ∧
            V4.deleted sum + V4.failed sum = length new).
Proof.
  split; [|split; [|split; [|split]]].
  - intros eps. cbn zeta. rewrite v4_delete_episodes_real.
    rewrite send_all_sent, successes_failures, send_all_length, length_fmap.
    by destruct (send_all _ _).
  - intros abs. cbn zeta. rewrite v4_delete_audiobooks_real.
    rewrite send_all_sent, successes_failures, send_all_length, length_fmap.
    by destruct (send_all _ _).
  - intros F M sel k Hb Hsel. unfold V4.process_podcast_episodes.
    rewrite Hb, Hsel. destruct (truthy sel); [|by eauto].
    destruct (V4.delete_episodes _ _ _ _). eauto.
  - intros F M sel k Hb Hsel. unfold V4.process_audiobook_items.
    rewrite Hb, Hsel. destruct (truthy sel); [|by eauto].
    destruct (V4.delete_audiobooks _ _ _ _). eauto.
  - intros Hreal sum
      (user & Fe & Fa & sel1 & k1 & sel2 & k2 & _ & _ & _ & _ & Hw & ->)
      %v4_main_completed.
    cbn zeta in *. unfold v4_summary. rewrite Hreal. cbn.
    rewrite Hw, !send_all_sent, <- app_assoc. eexists. split; [done|].
    rewrite length_app.
    rewrite <- (send_all_length (v4_podcast_requests _ _ _ _) w).
    rewrite <- (send_all_length (v4_audiobook_requests _ _ _ _)
                  (send_all (v4_podcast_requests cfg clock Fe (server w)) w).1).
    rewrite <- !successes_failures. lia.
Qed.
End Isolation.

(** ** Dry runs (C10) *)

Section DryRun.
Context {Srv : Type} `{ABSServer Srv}.

Lemma media_type_cases (m : string) :
  m ∈ ["PODCASTS"; "AUDIOBOOKS"; "EVERYTHING"] →
  m = "PODCASTS" ∨ m = "AUDIOBOOKS" ∨ m = "EVERYTHING".
Proof.
  rewrite !elem_of_cons, elem_of_nil. tauto.
Qed.

(** A rehearsal leaves the world as it is. *)
Lemma v4_dry_world cfg clock (w : World Srv) :
  V4.dry_run cfg = true → (V4.main cfg clock w).1 = w.
Proof.
  intros Hdry.
  destruct (v4_main_world cfg clock w)
    as [->|(user & Fe & Fa & _ & _ & Hw)]; [done|].
  cbn zeta in Hw. unfold v4_after_podcasts in Hw.
  rewrite !(proj1 (v4_plan_dry cfg clock _ _ Hdry)) in Hw.
  rewrite !(proj2 (v4_plan_dry cfg clock _ _ Hdry)) in Hw.
  cbn in Hw. by destruct Hw.
Qed.

(** C10: with DRY_RUN on, the run sends no DELETE request and leaves the
    server in the state it found.  When it can read the progress data and
    both phases find their candidates in that state, it completes, reports no
    failure and counts as deleted every candidate; these are the requests the
    same configuration would send with DRY_RUN off from that state.  On a
    server where the episode deletions do not change what the audiobook phase
    finds, a real run sends exactly these requests, one for each unit of the
    count, and completes with deleted + failed equal to it. *)
Theorem dry_run_sends_nothing (cfg : V4.Config) (clock : V4.Clock)
    (w : World Srv) :
  V4.dry_run cfg = true →
  (V4.main cfg clock w).1 = w ∧
  ∀ user_data Fe Fa episodes skipped_episodes audiobooks skipped_audiobooks,
    V4.media_type cfg ∈ ["PODCASTS"; "AUDIOBOOKS"; "EVERYTHING"] →
    get_user_with_progress (server w) = Ok user_data →
    get_finished_media user_data = Ok (Fe, Fa) →
    v4_episodes_found cfg clock Fe (server w)
      = Ok (episodes, skipped_episodes) →
    v4_audiobooks_found cfg clock Fa (server w)
      = Ok (audiobooks, skipped_audiobooks) →
    let candidates :=
      v4_podcast_requests (for_real cfg) clock Fe (server w) ++
      v4_audiobook_requests (for_real cfg) clock Fa (server w) in
    (V4.main cfg clock w).2 =
      V4.Completed
        {| V4.deleted := length candidates;
           V4.failed := 0;
           V4.skipped_too_recent :=
             match V4.min_age cfg with
             | Some _ => Some (skipped_episodes + skipped_audiobooks)
             | None => None
             end |} ∧
    length candidates = length episodes + length audiobooks ∧
    (v4_audiobooks_found cfg clock Fa
       (server (send_all (v4_podcast_requests (for_real cfg) clock Fe
                            (server w)) w).1)
     = v4_audiobooks_found cfg clock Fa (server w) →
     sent (V4.main (for_real cfg) clock w).1 = sent w ++ candidates ∧
     ∃ sum, (V4.main (for_real cfg) clock w).2 = V4.Completed sum ∧
            V4.deleted sum + V4.failed sum = length candidates).
Proof.
  intros Hdry. split; [by apply v4_dry_world|].
  intros user Fe Fa sel1 k1 sel2 k2 Hvalid Hme Hfin H1 H2. cbn zeta.
  assert (length (v4_podcast_requests (for_real cfg) clock Fe (server w) ++
                  v4_audiobook_requests (for_real cfg) clock Fa (server w))
          = length sel1 + length sel2) as Hlen.
  { unfold v4_podcast_requests, v4_audiobook_requests.
    rewrite (proj1 (v4_found_for_real _ _ _ _)),
      (proj2 (v4_found_for_real _ _ _ _)), H1, H2. cbn.
    unfold dict_values. by rewrite length_app, !length_fmap. }
  split; [|split; [done|]].
  - rewrite v4_main_spec.
    rewrite bool_decide_eq_false_2 by (by intros ?).
    rewrite Hme, Hfin, H1. cbn zeta.
    rewrite (proj1 (v4_plan_dry cfg clock Fe (server w) Hdry)). cbn.
    rewrite H2. cbn.
    rewrite (proj2 (v4_plan_dry cfg clock Fa (server w) Hdry)). cbn.
    unfold v4_summary. rewrite Hdry, Hlen. done.
  - intros Hframe.
    pose proof (v4_main_spec (for_real cfg) clock w) as Hreal.
    cbn [for_real V4.media_type] in Hreal.
    rewrite bool_decide_eq_false_2 in Hreal by (by intros ?).
    rewrite Hme, Hfin in Hreal.
    rewrite (proj1 (v4_found_for_real _ _ _ _)), H1 in Hreal.
    cbn zeta in Hreal.
    rewrite (proj2 (v4_found_for_real _ _ _ _)), Hframe, H2 in Hreal.
    assert (v4_audiobook_requests (for_real cfg) clock Fa
              (server (send_all (v4_podcast_requests (for_real cfg) clock Fe
                                   (server w)) w).1)
            = v4_audiobook_requests (for_real cfg) clock Fa (server w))
      as Hreqs.
    { unfold v4_audiobook_requests.
      by rewrite !(proj2 (v4_found_for_real _ _ _ _)), Hframe. }
    rewrite Hreqs in Hreal. rewrite Hreal. cbn [fst snd].
    rewrite !send_all_sent, <- app_assoc. split; [done|].
    eexists. split; [done|]. unfold v4_summary. cbn.
    rewrite length_app.
    rewrite <- (send_all_length (v4_podcast_requests _ _ _ _) w).
    rewrite <- (send_all_length (v4_audiobook_requests _ _ _ _)
                  (send_all (v4_podcast_requests (for_real cfg) clock Fe
                               (server w)) w).1).
    rewrite <- !successes_failures. lia.
Qed.
End DryRun.

Lemma dry_run_sends_nothing_witness :
  V4.dry_run rehearsal = true ∧
  (V4.main rehearsal utc_2026 (fresh demo)).1 = fresh demo ∧
  (V4.main rehearsal utc_2026 (fresh demo)).2 =
    V4.Completed {| V4.deleted := 4; V4.failed := 0;
                    V4.skipped_too_recent := None |} ∧
  sent (V4.main (for_real rehearsal) utc_2026 (fresh demo)).1 =
    [ episode_request "pod1" "e1"; episode_request "pod1" "e2";
      item_request "book1"; item_request "book3" ].
Proof.
  split; [reflexivity|].
  destruct (dry_run_sends_nothing rehearsal utc_2026 (fresh demo) eq_refl)
    as [Hworld Hcount].
  split; [exact Hworld|].
  pose (user := {| mediaProgress := Value
       [ finished (Some "e1") (Some "pod1");
         finished (Some "e2") (Some "pod1");
         finished (Some "k1") (Some "pod2");
         finished None (Some "book1");
         finished None (Some "book2");
         finished None (Some "book3");
         {| isFinished := Some false; episodeId := Some "e3";
            libraryItemId := Some "pod1" |} ] |}).
  pose (F := foldl finished_step (∅, ∅) (progress_entries user)).
  assert (get_finished_media user = Ok (F.1, F.2)) as Hfin.
  { rewrite get_finished_media_unfold. cbn [mediaProgress user].
    by rewrite <- surjective_pairing. }
  destruct (v4_episodes_found rehearsal utc_2026 F.1 (server (fresh demo)))
    as [[episodes k1]|] eqn:H1; [|by vm_compute in H1].
  destruct (v4_audiobooks_found rehearsal utc_2026 F.2 (server (fresh demo)))
    as [[audiobooks k2]|] eqn:H2; [|by vm_compute in H2].
  assert (V4.media_type rehearsal ∈ ["PODCASTS"; "AUDIOBOOKS"; "EVERYTHING"])
    as Hvalid by (cbn; rewrite !elem_of_cons; auto).
  destruct (Hcount user F.1 F.2 episodes k1 audiobooks k2
              Hvalid eq_refl Hfin H1 H2) as (Hout & _ & Hreal).
  split.
  - rewrite Hout. by vm_compute.
  - destruct Hreal as [-> _]; by vm_compute.
Defined.

(** ** What the catalogue scan covers (C8) *)

Section Coverage.
Context {Srv : Type} `{ABSServer Srv}.

(** The server lists [item] on some page of the library's listing. *)
Definition listed_on_some_page (s : Srv) (library_id : string) (item : Item)
  : Prop :=
  ∃ q resp,
    api_library_items s library_id q = Ok resp ∧
    item ∈ default [] (dict_get (results resp) []).

(** [e] is the id of an episode of [item], a podcast whose details can be
    fetched and that is not protected. *)
Definition qualifying_episode (s : Srv) (item : Item) (e : string) : Prop :=
  ∃ full_item ep,
    get_library_item s (item_id item) = Ok full_item ∧
    ("KEEP" ∉ item_tags full_item) ∧
    ep ∈ item_episodes full_item ∧
    ep_id ep = Some e ∧ e ≠ "".

Lemma v4_scan_episode_keeps lid ttl (M : gmap string V4.EpData) ep e :
  is_Some (M !! e) → is_Some (V4.scan_episode lid ttl M ep !! e).
Proof.
  unfold V4.scan_episode. destruct (truthy (ep_id ep)); [|done].
  intros HM. apply lookup_insert_is_Some.
  destruct (decide (default "" (ep_id ep) = e)); auto.
Qed.

Lemma v4_scan_podcast_keeps (s : Srv) (M M' : gmap string V4.EpData) item e :
  is_Some (M !! e) → V4.scan_podcast s M item = Ok M' → is_Some (M' !! e).
Proof.
  intros HM Hscan. apply v4_scan_podcast_Ok in Hscan.
  destruct (get_library_item s (item_id item)); [|by subst].
  destruct Hscan as [_ Hscan]. case_bool_decide; [by subst|].
  destruct Hscan as [_ ->].
  apply (foldl_invariant (λ M, is_Some (M !! e))); [done|].
  intros ? ? _. apply v4_scan_episode_keeps.
Qed.

Lemma v4_scan_podcast_covers (s : Srv) (M M' : gmap string V4.EpData) item e :
  qualifying_episode s item e →
  V4.scan_podcast s M item = Ok M' → is_Some (M' !! e).
Proof.
  intros (full & ep & Hget & Hkeep & Hep & Hid & Hne) Hscan.
  apply v4_scan_podcast_Ok in Hscan. rewrite Hget in Hscan.
  destruct Hscan as [_ Hscan].
  rewrite bool_decide_eq_false_2 in Hscan by done.
  destruct Hscan as [_ ->].
  apply (foldl_reaches (λ M, is_Some (M !! e)) _ _ _ ep); [done|..].
  - intros M''. unfold V4.scan_episode.
    assert (truthy (ep_id ep) = true) as ->
      by (apply truthy_option_string; eauto).
    rewrite Hid. cbn. rewrite lookup_insert_eq. eauto.
  - intros ? ?. apply v4_scan_episode_keeps.
Qed.

Lemma v4_scan_audiobook_keeps (s : Srv) F (M M' : list (string * V4.AbData))
    item k :
  k ∈ dict_keys M → V4.scan_audiobook s F M item = Ok M' → k ∈ dict_keys M'.
Proof.
  intros HM Hscan. apply v4_scan_audiobook_Ok in Hscan.
  case_bool_decide; [by subst|].
  destruct (get_library_item s (item_id item)); [|by subst].
  destruct Hscan as [_ Hscan]. case_bool_decide; subst; [done|].
  rewrite dict_set_keys. case_decide; [done|].
  apply elem_of_app. by left.
Qed.

Lemma v4_scan_audiobook_covers (s : Srv) F (M M' : list (string * V4.AbData))
    item full :
  item_id item ∈ F → get_library_item s (item_id item) = Ok full →
  "KEEP" ∉ item_tags full →
  V4.scan_audiobook s F M item = Ok M' →
  item_id item ∈ dict_keys M'.
Proof.
  intros HF Hget Hkeep Hscan. apply v4_scan_audiobook_Ok in Hscan.
  rewrite bool_decide_eq_false_2 in Hscan by (by intros ?).
  rewrite Hget in Hscan. destruct Hscan as [_ Hscan].
  rewrite bool_decide_eq_false_2 in Hscan by done. subst.
  rewrite dict_set_keys. case_decide; [done|].
  apply elem_of_app. right. apply list_elem_of_here.
Qed.

(** C8, amended: per library the client sends one listing request, without
    paging parameters, and the lookup covers every item in the [results] of
    that one response: each episode of such a podcast that is not protected,
    and each such finished audiobook that is not protected.  (Items the
    server would list on further pages are not asked for.) *)
Theorem scan_covers_the_listing_response (s : Srv) (lib : Library)
    (items : list Item) (item : Item) :
  get_library_items s (lib_id lib) = Ok (Some items) → item ∈ items →
  (∀ libs M e,
     get_podcast_libraries s = Ok libs → lib ∈ libs →
     qualifying_episode s item e →
     V4.build_episode_map s = Ok M → is_Some (M !! e)) ∧
  (∀ libs F M full_item,
     get_book_libraries s = Ok libs → lib ∈ libs →
     item_id item ∈ F →
     get_library_item s (item_id item) = Ok full_item →
     "KEEP" ∉ item_tags full_item →
     V4.build_audiobook_map s F = Ok M → item_id item ∈ dict_keys M).
Proof.
  intros Hitems Hitem. split.
  - intros libs M e Hlibs Hlib Hq. unfold V4.build_episode_map.
    rewrite Hlibs. cbn [mbind result_bind].
    apply (for_each_reaches (λ M, is_Some (M !! e)) _ _ _ _ lib); [done|..].
    + intros M0 M1 (items' & Hitems' & Hscan)%v4_scan_library_Ok.
      rewrite Hitems in Hitems'. injection Hitems' as <-. revert Hscan.
      apply (for_each_reaches (λ M, is_Some (M !! e)) _ _ _ _ item); [done|..].
      * intros ? ?. by apply v4_scan_podcast_covers.
      * intros ? ? ?. apply v4_scan_podcast_keeps.
    + intros M0 lib' M1 HM0 (items' & _ & Hscan)%v4_scan_library_Ok.
      revert Hscan.
      apply (for_each_invariant (λ M, is_Some (M !! e))); [done|].
      intros ? ? ? _. apply v4_scan_podcast_keeps.
  - intros libs F M full Hlibs Hlib HF Hget Hkeep.
    unfold V4.build_audiobook_map. rewrite Hlibs. cbn [mbind result_bind].
    apply (for_each_reaches (λ M, item_id item ∈ dict_keys M) _ _ _ _ lib);
      [done|..].
    + intros M0 M1 (items' & Hitems' & Hscan)%v4_scan_library_Ok.
      rewrite Hitems in Hitems'. injection Hitems' as <-. revert Hscan.
      apply (for_each_reaches (λ M, item_id item ∈ dict_keys M) _ _ _ _ item);
        [done|..].
      * intros ? ?. by eapply v4_scan_audiobook_covers.
      * intros ? ? ?. apply v4_scan_audiobook_keeps.
    + intros M0 lib' M1 HM0 (items' & _ & Hscan)%v4_scan_library_Ok.
      revert Hscan.
      apply (for_each_invariant (λ M, item_id item ∈ dict_keys M)); [done|].
      intros ? ? ? _. apply v4_scan_audiobook_keeps.
Qed.
End Coverage.

(** C8 as stated fails.  [paged] lists [podB] on the second page of the
    library; its finished episode [b1] qualifies; the lookup has no entry
    for it and the run deletes [a1] only. *)
Lemma second_page_is_never_fetched :
  ¬ (∀ item e M,
       listed_on_some_page paged "lp" item →
       qualifying_episode paged item e →
       V4.build_episode_map paged = Ok M → is_Some (M !! e)) ∧
  sent (V4.main everything utc_2026 (fresh paged)).1 =
    [episode_request "podA" "a1"].
Proof.
  split; [|by vm_compute].
  intros Hall.
  destruct (V4.build_episode_map paged) as [M|] eqn:Hb; [|by vm_compute in Hb].
  assert (is_Some (M !! "b1")) as [d Hd].
  { apply (Hall {| item_id := "podB" |} "b1" M); [| |done].
    - exists [("page", "1")]. eexists. split; [by vm_compute|].
      cbn. apply list_elem_of_here.
    - eexists _, (episode "b1" None). split; [by vm_compute|].
      split; [cbn; apply not_elem_of_nil|]. split; [|done].
      cbn. apply list_elem_of_here. }
  vm_compute in Hb. injection Hb as <-. by vm_compute in Hd.
Qed.

Lemma scan_covers_the_listing_response_witness :
  ∃ M, V4.build_episode_map demo = Ok M ∧ is_Some (M !! "e1").
Proof.
  destruct (V4.build_episode_map demo) as [M|] eqn:Hb;
    [|by vm_compute in Hb].
  exists M. split; [reflexivity|].
  refine (proj1 (scan_covers_the_listing_response demo
     {| lib_id := "lp"; lib_name := "Podcasts"; mediaType := Some "podcast" |}
     [ {| item_id := "pod1" |}; {| item_id := "pod2" |} ]
     {| item_id := "pod1" |} _ _)
     [ {| lib_id := "lp"; lib_name := "Podcasts";
          mediaType := Some "podcast" |} ] M "e1" _ _ _ Hb).
  - by vm_compute.
  - apply list_elem_of_here.
  - by vm_compute.
  - apply list_elem_of_here.
  - eexists _, (episode "e1" (Some 1000%Z)). split; [by vm_compute|].
    split; [cbn; apply not_elem_of_nil|]. split; [|done].
    cbn. apply list_elem_of_here.
Defined.

(** ** The three versions (C6) *)

(** Forgetting the field a later version added to the entries. *)
Definition v3_of_v4 (d : V4.EpData) : V3.EpData :=
  {| V3.library_item_id := V4.library_item_id d;
     V3.podcast_title := V4.podcast_title d;
     V3.episode_title := V4.episode_title d |}.

Definition v3_of_v4_ab (ab : V4.AbData) : V3.AbData :=
  {| V3.ab_library_item_id := V4.ab_library_item_id ab;
     V3.audiobook_title := V4.audiobook_title ab;
     V3.author_name := V4.author_name ab |}.

(** v2 and v3 keep the same three fields. *)
Definition v2_of_v3 (d : V3.EpData) : V2.EpData :=
  {| V2.library_item_id := V3.library_item_id d;
     V2.podcast_title := V3.podcast_title d;
     V2.episode_title := V3.episode_title d |}.

Definition result_map {A B} (h : A → B) (r : result A) : result B :=
  match r with Ok a => Ok (h a) | Raise e => Raise e end.

Lemma foldl_commute {A A' B} (h : A → A') (f : A → B → A) (g : A' → B → A')
    (l : list B) (a : A) :
  (∀ a x, h (f a x) = g (h a) x) → h (foldl f a l) = foldl g (h a) l.
Proof.
  intros Hstep. revert a. induction l as [|x l IH]; intros a; [done|].
  by rewrite !foldl_cons, IH, Hstep.
Qed.

Lemma for_each_commute {A A' B} (h : A → A') (f : A → B → result A)
    (g : A' → B → result A') (l : list B) (a : A) :
  (∀ a x, g (h a) x = result_map h (f a x)) →
  for_each g (h a) l = result_map h (for_each f a l).
Proof.
  intros Hstep. revert a. induction l as [|x l IH]; intros a; [done|].
  cbn. rewrite Hstep. destruct (f a x) as [a'|e]; cbn; [apply IH|done].
Qed.

Lemma dict_set_fmap {V V'} (h : V → V') k v (d : list (string * V)) :
  prod_map id h <$> dict_set k v d = dict_set k (h v) (prod_map id h <$> d).
Proof.
  induction d as [|[k' v'] d IH]; [done|]. cbn.
  case_decide; [done|]. cbn. by rewrite IH.
Qed.

Section Versions.
Context {Srv : Type} `{ABSServer Srv}.

Lemma v3_v4_episode_map (s : Srv) :
  V3.build_episode_map s =
  result_map (fmap v3_of_v4) (V4.build_episode_map s).
Proof.
  unfold V3.build_episode_map, V4.build_episode_map.
  destruct (get_podcast_libraries s) as [libs|e]; [|done].
  cbn [mbind result_bind].
  rewrite <- (fmap_empty v3_of_v4). apply for_each_commute.
  intros M lib.
  destruct (get_library_items s (lib_id lib)) as [[items|]|e]; [|done..].
  cbn [mbind result_bind not_none]. apply for_each_commute.
  clear. intros M item. unfold V3.scan_podcast, V4.scan_podcast.
  destruct (get_library_item s (item_id item)) as [full|e]; [|done].
  destruct (dict_get (media full) no_media) as [m|]; [|done].
  cbn [mbind result_bind not_none].
  destruct (dict_get (metadata m) no_metadata) as [md|]; [|done].
  cbn [mbind result_bind not_none].
  destruct (dict_get (tags m) []) as [tgs|]; [|done].
  cbn [mbind result_bind not_none].
  case_bool_decide; [done|].
  destruct (dict_get (episodes m) []) as [eps|]; [|done].
  cbn [mbind result_bind not_none result_map]. f_equal.
  symmetry. apply foldl_commute.
  intros M' ep. unfold V3.scan_episode, V4.scan_episode.
  destruct (truthy (ep_id ep)); [|done]. by rewrite fmap_insert.
Qed.

Lemma v2_v3_episode_map (s : Srv) :
  V2.build_episode_map s =
  result_map (fmap v2_of_v3) (V3.build_episode_map s).
Proof.
  unfold V2.build_episode_map, V3.build_episode_map.
  destruct (get_podcast_libraries s) as [libs|e]; [|done].
  cbn [mbind result_bind].
  rewrite <- (fmap_empty v2_of_v3). apply for_each_commute.
  intros M lib.
  destruct (get_library_items s (lib_id lib)) as [[items|]|e]; [|done..].
  cbn [mbind result_bind not_none]. apply for_each_commute.
  clear. intros M item. unfold V2.scan_podcast, V3.scan_podcast.
  destruct (get_library_item s (item_id item)) as [full|e]; [|done].
  destruct (dict_get (media full) no_media) as [m|]; [|done].
  cbn [mbind result_bind not_none].
  destruct (dict_get (metadata m) no_metadata) as [md|]; [|done].
  cbn [mbind result_bind not_none].
  destruct (dict_get (tags m) []) as [tgs|]; [|done].
  cbn [mbind result_bind not_none].
  case_bool_decide; [done|].
  destruct (dict_get (episodes m) []) as [eps|]; [|done].
  cbn [mbind result_bind not_none result_map]. f_equal.
  symmetry. apply foldl_commute.
  intros M' ep. unfold V2.scan_episode, V3.scan_episode.
  destruct (truthy (ep_id ep)); [|done]. by rewrite fmap_insert.
Qed.

Lemma v3_v4_audiobook_map (s : Srv) F :
  V3.build_audiobook_map s F =
  result_map (fmap (prod_map id v3_of_v4_ab)) (V4.build_audiobook_map s F).
Proof.
  unfold V3.build_audiobook_map, V4.build_audiobook_map.
  destruct (get_book_libraries s) as [libs|e]; [|done].
  cbn [mbind result_bind].
  change (@nil (string * V3.AbData))
    with (prod_map id v3_of_v4_ab <$> @nil (string * V4.AbData)).
  apply for_each_commute.
  intros M lib.
  destruct (get_library_items s (lib_id lib)) as [[items|]|e]; [|done..].
  cbn [mbind result_bind not_none]. apply for_each_commute.
  clear. intros M item. unfold V3.scan_audiobook, V4.scan_audiobook.
  case_bool_decide; [done|].
  destruct (get_library_item s (item_id item)) as [full|e]; [|done].
  destruct (dict_get (media full) no_media) as [m|]; [|done].
  cbn [mbind result_bind not_none].
  destruct (dict_get (metadata m) no_metadata) as [md|]; [|done].
  cbn [mbind result_bind not_none].
  destruct (dict_get (tags m) []) as [tgs|]; [|done].
  cbn [mbind result_bind not_none].
  case_bool_decide; [done|]. cbn [result_map]. by rewrite dict_set_fmap.
Qed.

Definition v3_request (ep : V3.EpisodeToDelete) : DeleteRequest :=
  episode_request (V3.library_item_id (V3.ep_data ep)) (V3.episode_id ep).

Definition v2_request (ep : V2.EpisodeToDelete) : DeleteRequest :=
  episode_request (V2.library_item_id (V2.ep_data ep)) (V2.episode_id ep).

Lemma v3_v4_selected clock F (M : gmap string V4.EpData) :
  v3_request <$> V3.select_episodes F (v3_of_v4 <$> M) =
  v4_request <$> omap (pick clock None M) (elements F).
Proof.
  rewrite v3_select_episodes_spec.
  induction (elements F) as [|e l IH]; [done|].
  rewrite !omap_cons_eq, lookup_fmap. unfold pick at 1.
  destruct (M !! e) as [d|]; cbn; [|done]. by rewrite IH.
Qed.

Lemma v2_v3_selected F (M : gmap string V3.EpData) :
  v2_request <$> V2.select_episodes F (v2_of_v3 <$> M) =
  v3_request <$> V3.select_episodes F M.
Proof.
  rewrite v2_select_episodes_spec, v3_select_episodes_spec.
  induction (elements F) as [|e l IH]; [done|].
  rewrite !omap_cons_eq, lookup_fmap.
  destruct (M !! e) as [d|]; cbn; [|done]. by rewrite IH.
Qed.

(** The worlds the deletion loops end in. *)
Lemma v4_delete_episodes_world dry eps (w : World Srv) t :
  (V4.delete_episodes dry eps w t).1 =
  (send_all (if dry then [] else v4_request <$> eps) w).1.
Proof.
  destruct dry.
  - by rewrite v4_delete_episodes_dry.
  - rewrite v4_delete_episodes_real. by destruct (send_all _ _).
Qed.

Lemma v4_delete_audiobooks_world dry abs (w : World Srv) t :
  (V4.delete_audiobooks dry abs w t).1 =
  (send_all (if dry then []
             else (λ ab, item_request (V4.ab_library_item_id ab)) <$> abs) w).1.
Proof.
  destruct dry.
  - by rewrite v4_delete_audiobooks_dry.
  - rewrite v4_delete_audiobooks_real. by destruct (send_all _ _).
Qed.

Lemma v3_delete_episodes_world dry eps (w : World Srv) t :
  (V3.delete_episodes dry eps w t).1 =
  (send_all (if dry then [] else v3_request <$> eps) w).1.
Proof.
  destruct dry.
  - revert t. induction eps as [|ep eps IH]; intros t; [done|]. apply IH.
  - revert w t. induction eps as [|ep eps IH]; intros w t; [done|]. cbn.
    unfold delete_episode, _delete, v3_request at 1, episode_request. cbn.
    destruct (api_delete (server w) _) as [s' [[]|[]]]; cbn;
      rewrite IH; by destruct (send_all _ _).
Qed.

Lemma v2_delete_episodes_world dry eps (w : World Srv) c :
  (V2.delete_episodes dry eps w c).1 =
  (send_all (if dry then [] else v2_request <$> eps) w).1.
Proof.
  destruct dry.
  - revert c. induction eps as [|ep eps IH]; intros c; [done|]. apply IH.
  - revert w c. induction eps as [|ep eps IH]; intros w c; [done|]. cbn.
    unfold delete_episode, _delete, v2_request at 1, episode_request. cbn.
    destruct (api_delete (server w) _) as [s' [[]|[]]]; cbn;
      rewrite IH; by destruct (send_all _ _).
Qed.

Lemma v3_delete_audiobooks_world dry abs (w : World Srv) t :
  (V3.delete_audiobooks dry abs w t).1 =
  (send_all (if dry then []
             else (λ ab, item_request (V3.ab_library_item_id ab)) <$> abs) w).1.
Proof.
  destruct dry.
  - revert t. induction abs as [|ab abs IH]; intros t; [done|]. apply IH.
  - revert w t. induction abs as [|ab abs IH]; intros w t; [done|]. cbn.
    unfold delete_library_item, _delete, item_request at 1. cbn.
    destruct (api_delete (server w) _) as [s' [[]|[]]]; cbn;
      rewrite IH; by destruct (send_all _ _).
Qed.
End Versions.

Section Equivalence.
Context {Srv : Type} `{ABSServer Srv}.

(** v4's configuration for a v3 run: the same settings, no AGE. *)
Definition without_age (cfg : V3.Config) : V4.Config :=
  {| V4.dry_run := V3.dry_run cfg; V4.media_type := V3.media_type cfg;
     V4.min_age := None |}.

Lemma v3_v4_podcast_phase cfg clock F (w : World Srv) t3 t4 :
  (V4.process_podcast_episodes (without_age cfg) clock F w t4).1 =
    (V3.process_podcast_episodes cfg F w t3).1 ∧
  is_ok (V4.process_podcast_episodes (without_age cfg) clock F w t4).2 =
    is_ok (V3.process_podcast_episodes cfg F w t3).2.
Proof.
  unfold V4.process_podcast_episodes, V3.process_podcast_episodes.
  rewrite v3_v4_episode_map.
  destruct (V4.build_episode_map (server w)) as [M|e]; [|done].
  cbn [result_map without_age V4.dry_run V4.min_age].
  rewrite v4_select_episodes_no_age.
  pose proof (v3_v4_selected clock F M) as Hsel.
  destruct (V3.select_episodes F (v3_of_v4 <$> M)) as [|ep3 eps3],
    (omap (pick clock None M) (elements F)) as [|ep4 eps4]; try done.
  cbn [truthy list_truthy].
  pose proof (v3_delete_episodes_world (V3.dry_run cfg) (ep3 :: eps3) w t3)
    as H3.
  pose proof (v4_delete_episodes_world (V3.dry_run cfg) (ep4 :: eps4) w
                (V4.count_skipped 0 t4)) as H4.
  destruct (V3.delete_episodes _ _ w t3) as [w3 t3'].
  destruct (V4.delete_episodes _ _ w _) as [w4 t4'].
  cbn [fst snd is_ok] in *. by rewrite H3, H4, Hsel.
Qed.

Lemma v3_v4_audiobook_phase cfg clock F (w : World Srv) t3 t4 :
  (V4.process_audiobook_items (without_age cfg) clock F w t4).1 =
    (V3.process_audiobook_items cfg F w t3).1 ∧
  is_ok (V4.process_audiobook_items (without_age cfg) clock F w t4).2 =
    is_ok (V3.process_audiobook_items cfg F w t3).2.
Proof.
  unfold V4.process_audiobook_items, V3.process_audiobook_items.
  rewrite v3_v4_audiobook_map.
  destruct (V4.build_audiobook_map (server w) F) as [M|e]; [|done].
  cbn [result_map without_age V4.dry_run V4.min_age V4.select_audiobooks].
  assert ((λ ab, item_request (V3.ab_library_item_id ab)) <$>
            dict_values (prod_map id v3_of_v4_ab <$> M) =
          (λ ab, item_request (V4.ab_library_item_id ab)) <$> dict_values M)
    as Hreq.
  { unfold dict_values. rewrite <- !list_fmap_compose.
    apply list_fmap_ext. by intros ? [k ab]. }
  destruct (decide (M = [])) as [->|Hne]; [done|].
  assert (truthy (prod_map id v3_of_v4_ab <$> M) = true) as ->
    by (by destruct M).
  assert (truthy M = true) as -> by (by destruct M).
  pose proof (v3_delete_audiobooks_world (V3.dry_run cfg)
                (dict_values (prod_map id v3_of_v4_ab <$> M)) w t3) as H3.
  pose proof (v4_delete_audiobooks_world (V3.dry_run cfg)
                (dict_values M) w (V4.count_skipped 0 t4)) as H4.
  destruct (V3.delete_audiobooks _ _ w t3) as [w3 t3'].
  destruct (V4.delete_audiobooks _ _ w _) as [w4 t4'].
  cbn [fst snd is_ok] in *. by rewrite H3, H4, Hreq.
Qed.

(** v4 without AGE ends in the world v3 ends in. *)
Lemma v4_without_age_is_v3 cfg clock (w : World Srv) :
  (V4.main (without_age cfg) clock w).1 = (V3.main cfg w).1.
Proof.
  unfold V4.main, V3.main. cbn [without_age V4.media_type].
  case_bool_decide; [done|].
  destruct (get_user_with_progress (server w)) as [user|[]]; [|done..].
  destruct (get_finished_media user) as [[Fe Fa]|e]; [|done].
  match goal with
  | |- context [V4.process_podcast_episodes _ _ _ _ ?t4] => set (t4_0 := t4)
  end.
  match goal with
  | |- context [V3.process_podcast_episodes _ _ _ ?t3] => set (t3_0 := t3)
  end.
  assert (∃ w1 r4 r3,
    (if bool_decide (V3.media_type cfg ∈ ["PODCASTS"; "EVERYTHING"])
        && truthy Fe
     then V4.process_podcast_episodes (without_age cfg) clock Fe w t4_0
     else (w, Ok t4_0)) = (w1, r4) ∧
    (if bool_decide (V3.media_type cfg ∈ ["PODCASTS"; "EVERYTHING"])
        && truthy Fe
     then V3.process_podcast_episodes cfg Fe w t3_0
     else (w, Ok t3_0)) = (w1, r3) ∧
    is_ok r4 = is_ok r3) as (w1 & r4 & r3 & -> & -> & Hok).
  { destruct (_ && _); [|by exists w, (Ok t4_0), (Ok t3_0)].
    destruct (v3_v4_podcast_phase cfg clock Fe w t3_0 t4_0) as [Hw Hok].
    destruct (V4.process_podcast_episodes _ _ _ _ _) as [w4 r4].
    destruct (V3.process_podcast_episodes _ _ _ _) as [w3 r3].
    cbn in Hw, Hok. subst w4. by exists w3, r4, r3. }
  destruct r4 as [t4|e4], r3 as [t3|e3]; try done.
  assert (∃ w2 r4 r3,
    (if bool_decide (V3.media_type cfg ∈ ["AUDIOBOOKS"; "EVERYTHING"])
        && truthy Fa
     then V4.process_audiobook_items (without_age cfg) clock Fa w1 t4
     else (w1, Ok t4)) = (w2, r4) ∧
    (if bool_decide (V3.media_type cfg ∈ ["AUDIOBOOKS"; "EVERYTHING"])
        && truthy Fa
     then V3.process_audiobook_items cfg Fa w1 t3
     else (w1, Ok t3)) = (w2, r3) ∧
    is_ok r4 = is_ok r3) as (w2 & r4 & r3 & -> & -> & Hok2).
  { destruct (_ && _); [|by exists w1, (Ok t4), (Ok t3)].
    destruct (v3_v4_audiobook_phase cfg clock Fa w1 t3 t4) as [Hw Hok2].
    destruct (V4.process_audiobook_items _ _ _ _ _) as [w4 r4].
    destruct (V3.process_audiobook_items _ _ _ _) as [w3 r3].
    cbn in Hw, Hok2. subst w4. by exists w3, r4, r3. }
  by destruct r4, r3.
Qed.

(** v3 restricted to podcasts ends in the world v2 ends in. *)
Lemma v3_podcasts_is_v2 dry (w : World Srv) :
  (V3.main {| V3.dry_run := dry; V3.media_type := "PODCASTS" |} w).1 =
  (V2.main dry w).1.
Proof.
  unfold V3.main, V2.main. cbn [V3.media_type V3.dry_run].
  assert (bool_decide ("PODCASTS" ∉ ["PODCASTS"; "AUDIOBOOKS"; "EVERYTHING"])
          = false) as -> by (by vm_compute).
  assert (bool_decide ("PODCASTS" ∈ ["PODCASTS"; "EVERYTHING"]) = true)
    as -> by (by vm_compute).
  assert (bool_decide ("PODCASTS" ∈ ["AUDIOBOOKS"; "EVERYTHING"]) = false)
    as -> by (by vm_compute).
  destruct (get_user_with_progress (server w)) as [user|[]]; [|done..].
  rewrite get_finished_episode_ids_spec.
  destruct (get_finished_media user) as [[Fe Fa]|e]; [|done]. cbn [andb].
  destruct (truthy Fe); [|done]. cbn [negb].
  unfold V3.process_podcast_episodes. rewrite v2_v3_episode_map.
  destruct (V3.build_episode_map (server w)) as [M|e]; [|done].
  cbn [result_map V3.dry_run].
  pose proof (v2_v3_selected Fe M) as Hsel.
  destruct (V3.select_episodes Fe M) as [|ep3 eps3],
    (V2.select_episodes Fe (v2_of_v3 <$> M)) as [|ep2 eps2]; try done.
  cbn [truthy list_truthy negb].
  pose proof (v3_delete_episodes_world dry (ep3 :: eps3) w
                {| V3.total_deleted := 0; V3.total_failed := 0 |}) as H3.
  pose proof (v2_delete_episodes_world dry (ep2 :: eps2) w
                {| V2.deleted_count := 0; V2.failed_count := 0 |}) as H2.
  destruct (V3.delete_episodes _ _ _ _) as [w3 t3].
  destruct (V2.delete_episodes _ _ _ _) as [w2 c2].
  cbn [fst] in *. by rewrite H3, H2, Hsel.
Qed.

(** C6: on the same server state, v3 with MEDIA_TYPE=PODCASTS sends the
    DELETE requests v2 sends, and v4 with no AGE configured sends the DELETE
    requests v3 sends with the same settings; in both cases the requests come
    in the same order and leave the server in the same state. *)
Theorem versions_are_incremental (w : World Srv) :
  (∀ dry,
     sent (V3.main {| V3.dry_run := dry; V3.media_type := "PODCASTS" |} w).1 =
       sent (V2.main dry w).1 ∧
     server (V3.main {| V3.dry_run := dry; V3.media_type := "PODCASTS" |} w).1 =
       server (V2.main dry w).1) ∧
  (∀ cfg clock,
     sent (V4.main (without_age cfg) clock w).1 = sent (V3.main cfg w).1 ∧
     server (V4.main (without_age cfg) clock w).1 = server (V3.main cfg w).1).
Proof.
  split.
  - intros dry. by rewrite v3_podcasts_is_v2.
  - intros cfg clock. by rewrite v4_without_age_is_v3.
Qed.
End Equivalence.

Lemma deletion_failures_are_isolated_witness :
  V4.dry_run everything = false ∧
  (V4.main everything utc_2026 (fresh demo)).2 =
    V4.Completed {| V4.deleted := 3; V4.failed := 1;
                    V4.skipped_too_recent := None |} ∧
  ∃ new,
    sent (V4.main everything utc_2026 (fresh demo)).1 =
      sent (fresh demo) ++ new ∧
    3 + 1 = length new.
Proof.
  split; [reflexivity|].
  assert ((V4.main everything utc_2026 (fresh demo)).2 =
          V4.Completed {| V4.deleted := 3; V4.failed := 1;
                          V4.skipped_too_recent := None |}) as Hrun
    by (vm_compute; reflexivity).
  split; [exact Hrun|].
  exact (proj2 (proj2 (proj2 (proj2
           (deletion_failures_are_isolated everything utc_2026 (fresh demo)
              {| V4.total_deleted := 0; V4.total_failed := 0;
                 V4.total_skipped_age := 0 |}))))
           eq_refl _ Hrun).
Defined.

(** * Further properties of the code *)

(** ** What the lookups hold *)

Section Sound.
Context {Srv : Type} `{ABSServer Srv}.

(** [item] is in the listing response of a library of media type [kind]. *)
Definition listed_in (s : Srv) (kind : string) (item : Item) : Prop :=
  ∃ libs lib items,
    get_libraries s = Ok (Some libs) ∧ lib ∈ libs ∧
    mediaType lib = Some kind ∧
    get_library_items s (lib_id lib) = Ok (Some items) ∧ item ∈ items.

(** The entry [d] was read off the episode [e] of a listed podcast. *)
Definition episode_entry_of (s : Srv) (e : string) (d : V4.EpData) : Prop :=
  ∃ item full_item ep,
    listed_in s "podcast" item ∧
    V4.library_item_id d = item_id item ∧
    get_library_item s (item_id item) = Ok full_item ∧
    ("KEEP" ∉ item_tags full_item) ∧
    ep ∈ item_episodes full_item ∧
    ep_id ep = Some e ∧ e ≠ "" ∧
    V4.added_at d = ep_addedAt ep ∧
    V4.episode_title d = dict_get (ep_title ep) "Unknown Episode".

(** The entry [ab] was read off a listed book. *)
Definition audiobook_entry_of (s : Srv) (k : string) (ab : V4.AbData) : Prop :=
  ∃ item full_item,
    listed_in s "book" item ∧ item_id item = k ∧
    V4.ab_library_item_id ab = k ∧
    get_library_item s k = Ok full_item ∧
    ("KEEP" ∉ item_tags full_item) ∧
    V4.ab_added_at ab = addedAt full_item.

Lemma get_typed_libraries (s : Srv) kind libs lib :
  (libs0 ← get_libraries s;
   libs0 ← not_none libs0;
   mret (filter (λ lib, mediaType lib = Some kind) libs0)) = Ok libs →
  lib ∈ libs →
  ∃ libs0, get_libraries s = Ok (Some libs0) ∧ lib ∈ libs0 ∧
           mediaType lib = Some kind.
Proof.
  intros (o & Hl & (libs0 & ->%not_none_Ok & [= <-])%bind_Ok)%bind_Ok
         [Hk Hin]%list_elem_of_filter.
  eauto.
Qed.

Lemma v4_episode_map_sound (s : Srv) (M : gmap string V4.EpData) e d :
  V4.build_episode_map s = Ok M → M !! e = Some d → episode_entry_of s e d.
Proof.
  unfold V4.build_episode_map.
  intros (libs & Hlibs & Hbuild)%bind_Ok. revert e d.
  eapply (for_each_invariant
            (λ M, ∀ e d, M !! e = Some d → episode_entry_of s e d));
    [| |exact Hbuild].
  - intros e d. by rewrite lookup_empty.
  - intros M0 lib M1 Hlib HM0 (items & Hitems & Hscan)%v4_scan_library_Ok.
    destruct (get_typed_libraries s "podcast" libs lib Hlibs Hlib)
      as (libs0 & Hl0 & Hin0 & Hkind).
    revert Hscan.
    apply (for_each_invariant
             (λ M, ∀ e d, M !! e = Some d → episode_entry_of s e d));
      [exact HM0|].
    intros M' item M'' Hitem HM' Hscan. apply v4_scan_podcast_Ok in Hscan.
    destruct (get_library_item s (item_id item)) as [full|err] eqn:Hget;
      [|by subst].
    destruct Hscan as [_ Hscan].
    case_bool_decide as Hkeep; [by subst|]. destruct Hscan as [_ ->].
    apply (foldl_invariant
             (λ M, ∀ e d, M !! e = Some d → episode_entry_of s e d));
      [exact HM'|].
    intros M3 ep Hep HM3 e d. unfold V4.scan_episode.
    destruct (truthy (ep_id ep)) eqn:Hid; [|apply HM3].
    apply truthy_option_string in Hid as (e' & Hid & Hne).
    rewrite Hid. cbn [default].
    destruct (decide (e' = e)) as [->|Hne'].
    + rewrite lookup_insert_eq. intros [= <-].
      exists item, full, ep. cbn.
      split; [by exists libs0, lib, items|]. by rewrite Hid.
    + rewrite lookup_insert_ne by done. apply HM3.
Qed.

Lemma v4_audiobook_map_sound (s : Srv) F (M : list (string * V4.AbData)) k ab :
  V4.build_audiobook_map s F = Ok M → (k, ab) ∈ M →
  k ∈ F ∧ audiobook_entry_of s k ab.
Proof.
  unfold V4.build_audiobook_map.
  intros (libs & Hlibs & Hbuild)%bind_Ok. revert k ab.
  eapply (for_each_invariant
            (λ M, ∀ k ab, (k, ab) ∈ M → k ∈ F ∧ audiobook_entry_of s k ab));
    [| |exact Hbuild].
  - intros k ab Hin. by apply elem_of_nil in Hin.
  - intros M0 lib M1 Hlib HM0 (items & Hitems & Hscan)%v4_scan_library_Ok.
    destruct (get_typed_libraries s "book" libs lib Hlibs Hlib)
      as (libs0 & Hl0 & Hin0 & Hkind).
    revert Hscan.
    apply (for_each_invariant
             (λ M, ∀ k ab, (k, ab) ∈ M → k ∈ F ∧ audiobook_entry_of s k ab));
      [exact HM0|].
    intros M' item M'' Hitem HM' Hscan. apply v4_scan_audiobook_Ok in Hscan.
    case_bool_decide as HF; [by subst|].
    destruct (get_library_item s (item_id item)) as [full|err] eqn:Hget;
      [|by subst].
    destruct Hscan as [_ Hscan].
    case_bool_decide as Hkeep; subst; [exact HM'|].
    intros k ab [[-> ->]|Hin]%dict_set_elem_of; [|by apply HM'].
    split; [first [done|by apply dec_stable]|]. exists item, full. cbn.
    split; [by exists libs0, lib, items|]. done.
Qed.
End Sound.

(** ** What a run asks the server to delete *)

Section Requests.
Context {Srv : Type} `{ABSServer Srv}.

(** The requests of a run, with the progress data they come from. *)
Lemma v4_main_requests cfg clock (w : World Srv) :
  (V4.main cfg clock w).1 = w ∨
  ∃ user_data Fe Fa reqs1 reqs2,
    get_user_with_progress (server w) = Ok user_data ∧
    get_finished_media user_data = Ok (Fe, Fa) ∧
    sent (V4.main cfg clock w).1 = sent w ++ reqs1 ++ reqs2 ∧
    reqs1 = v4_podcast_requests cfg clock Fe (server w) ∧
    (reqs2 = [] ∨
     reqs2 = v4_audiobook_requests cfg clock Fa
               (server (send_all reqs1 w).1)).
Proof.
  destruct (v4_main_world cfg clock w)
    as [->|(user & Fe & Fa & Hme & Hfin & Hw)]; [by left|].
  right. cbn zeta in Hw. unfold v4_after_podcasts in Hw.
  exists user, Fe, Fa, (v4_podcast_requests cfg clock Fe (server w)).
  destruct Hw as [-> | ->].
  - exists []. rewrite send_all_sent, app_nil_r. repeat split; auto.
  - eexists. rewrite !send_all_sent, <- app_assoc. repeat split; auto.
Qed.

(** X1: whatever the catalogue holds, a run only asks for the deletion of
    media the user's progress data marks as finished: every episode request
    names the [episodeId] of a finished progress entry, and every library-item
    request names the [libraryItemId] of a finished entry without an
    [episodeId]. *)
Theorem only_finished_media_is_deleted (cfg : V4.Config) (clock : V4.Clock)
    (w : World Srv) :
  ∃ new,
    sent (V4.main cfg clock w).1 = sent w ++ new ∧
    (new = [] ∨
     ∃ user_data,
       get_user_with_progress (server w) = Ok user_data ∧
       Forall (λ r,
                 ∃ p, p ∈ progress_entries user_data ∧
                      match dr_endpoint r with
                      | PodcastEpisode _ episode_id =>
                          finished_episode p episode_id
                      | LibraryItem library_item_id =>
                          finished_audiobook p library_item_id
                      end) new).
Proof.
  destruct (v4_main_requests cfg clock w)
    as [->|(user & Fe & Fa & reqs1 & reqs2 & Hme & Hfin & Hs & H1 & H2)].
  { exists []. rewrite app_nil_r. auto. }
  exists (reqs1 ++ reqs2). split; [done|]. right. exists user.
  split; [done|].
  apply Forall_app. split; apply Forall_forall; intros r Hr.
  - subst reqs1.
    apply v4_podcast_requests_elem in Hr
      as (M & e & d & _ & _ & He & _ & -> & _).
    by apply (finished_media_spec user Fe Fa e Hfin) in He.
  - destruct H2 as [->|H2]; [by apply elem_of_nil in Hr|].
    rewrite H2 in Hr.
    apply v4_audiobook_requests_elem in Hr
      as (M & k & ab & Hb & Hin & _ & -> & _).
    apply (v4_audiobook_map_sound _ _ _ _ _ Hb) in Hin as [Hk _].
    by apply (finished_media_spec user Fe Fa k Hfin) in Hk.
Qed.

(** X2: the run sends its episode requests first and its library-item
    requests after them.  Each episode request names an episode found, when
    the run scanned the catalogue, under an unprotected podcast in the
    listing of a library of type [podcast]; each library-item request names an
    unprotected item found in the listing of a library of type [book], in the
    state the episode deletions left. *)
Theorem requests_come_from_the_scanned_catalogue (cfg : V4.Config)
    (clock : V4.Clock) (w : World Srv) :
  ∃ reqs1 reqs2,
    sent (V4.main cfg clock w).1 = sent w ++ reqs1 ++ reqs2 ∧
    Forall (λ r, ∃ e d, r = episode_request (V4.library_item_id d) e ∧
                        episode_entry_of (server w) e d) reqs1 ∧
    Forall (λ r, ∃ k ab, r = item_request k ∧
                         audiobook_entry_of (server (send_all reqs1 w).1) k ab)
           reqs2.
Proof.
  destruct (v4_main_requests cfg clock w)
    as [->|(user & Fe & Fa & reqs1 & reqs2 & Hme & Hfin & Hs & H1 & H2)].
  { exists [], []. rewrite app_nil_r. auto. }
  exists reqs1, reqs2. split; [done|].
  split; apply Forall_forall; intros r Hr.
  - subst reqs1.
    apply v4_podcast_requests_elem in Hr
      as (M & e & d & Hb & Hd & _ & _ & -> & _).
    exists e, d. split; [done|]. by eapply v4_episode_map_sound.
  - destruct H2 as [->|H2]; [by apply elem_of_nil in Hr|].
    rewrite H2 in Hr.
    apply v4_audiobook_requests_elem in Hr
      as (M & k & ab & Hb & Hin & _ & -> & _).
    exists k, ab. split; [done|].
    by apply (v4_audiobook_map_sound _ _ _ _ _ Hb) in Hin as [_ ?].
Qed.

(** X3: MEDIA_TYPE gates the two phases: with PODCASTS a run sends no
    library-item request, with AUDIOBOOKS it sends no episode request. *)
Theorem media_type_gates_the_requests (cfg : V4.Config) (clock : V4.Clock)
    (w : World Srv) :
  V4.media_type cfg = "PODCASTS" ∨ V4.media_type cfg = "AUDIOBOOKS" →
  ∃ new,
    sent (V4.main cfg clock w).1 = sent w ++ new ∧
    Forall (λ r, match dr_endpoint r with
                 | PodcastEpisode _ _ => V4.media_type cfg = "PODCASTS"
                 | LibraryItem _ => V4.media_type cfg = "AUDIOBOOKS"
                 end) new.
Proof.
  intros Hm.
  destruct (v4_main_requests cfg clock w)
    as [->|(user & Fe & Fa & reqs1 & reqs2 & Hme & Hfin & Hs & H1 & H2)].
  { exists []. rewrite app_nil_r. auto. }
  exists (reqs1 ++ reqs2). split; [done|].
  apply Forall_app. split; apply Forall_forall; intros r Hr.
  - subst reqs1.
    apply v4_podcast_requests_elem in Hr
      as (M & e & d & _ & _ & _ & _ & -> & _ & Hin).
    cbn. destruct Hm as [Hm|Hm]; [done|]. rewrite Hm in Hin.
    by repeat (apply elem_of_cons in Hin as [?|Hin]);
      try apply elem_of_nil in Hin.
  - destruct H2 as [->|H2]; [by apply elem_of_nil in Hr|].
    rewrite H2 in Hr.
    apply v4_audiobook_requests_elem in Hr
      as (M & k & ab & _ & _ & _ & -> & _ & Hin).
    cbn. destruct Hm as [Hm|Hm]; [|done]. rewrite Hm in Hin.
    by repeat (apply elem_of_cons in Hin as [?|Hin]);
      try apply elem_of_nil in Hin.
Qed.

(** The identifier a request ends with. *)
Definition request_key (r : DeleteRequest) : string :=
  match dr_endpoint r with
  | PodcastEpisode _ episode_id => episode_id
  | LibraryItem library_item_id => library_item_id
  end.

Lemma v4_podcast_requests_NoDup cfg clock F (s : Srv) :
  NoDup (v4_podcast_requests cfg clock F s).
Proof.
  unfold v4_podcast_requests, v4_episodes_found.
  destruct (enters_podcasts cfg F);
    [|destruct (V4.dry_run cfg); apply NoDup_nil_2].
  destruct (V4.build_episode_map s) as [M|]; [|apply NoDup_nil_2].
  cbn [mbind result_bind].
  destruct (V4.select_episodes clock (V4.min_age cfg) F M)
    as [[sel k]|] eqn:Hsel; [|apply NoDup_nil_2].
  destruct (V4.dry_run cfg); [apply NoDup_nil_2|].
  apply v4_select_episodes_Ok in Hsel as [-> _].
  apply (NoDup_fmap_1 request_key).
  rewrite <- list_fmap_compose.
  change (request_key ∘ v4_request) with V4.episode_id.
  rewrite picked_ids. apply NoDup_filter, NoDup_elements.
Qed.

Lemma v4_select_audiobooks_sublist clock min_age
    (M sel : list (string * V4.AbData)) k :
  NoDup (dict_keys M) →
  V4.select_audiobooks clock min_age M = Ok (sel, k) → sel `sublist_of` M.
Proof.
  intros Hnd. destruct min_age as [A|]; [|by intros [= <- <-]].
  intros (-> & _ & _)%v4_select_audiobooks_Ok; [|done].
  apply sublist_filter.
Qed.

Lemma v4_audiobook_requests_NoDup cfg clock F (s : Srv) :
  NoDup (v4_audiobook_requests cfg clock F s).
Proof.
  unfold v4_audiobook_requests, v4_audiobooks_found.
  destruct (enters_audiobooks cfg F);
    [|destruct (V4.dry_run cfg); apply NoDup_nil_2].
  destruct (V4.build_audiobook_map s F) as [M|] eqn:Hb; [|apply NoDup_nil_2].
  cbn [mbind result_bind].
  destruct (V4.select_audiobooks clock (V4.min_age cfg) M)
    as [[sel k]|] eqn:Hsel; [|apply NoDup_nil_2].
  destruct (V4.dry_run cfg); [apply NoDup_nil_2|].
  destruct (v4_audiobook_map_ok s F M Hb) as [Hnd HM].
  pose proof (v4_select_audiobooks_sublist _ _ _ _ _ Hnd Hsel) as Hsub.
  apply (NoDup_fmap_1 request_key). unfold dict_values.
  rewrite <- !list_fmap_compose.
  rewrite (list_fmap_ext _ fst sel).
  - eapply sublist_NoDup; [exact Hnd|]. by apply fmap_sublist.
  - intros i kv Hkv. cbn.
    apply list_elem_of_lookup_2 in Hkv.
    rewrite Forall_forall in HM.
    by destruct (HM kv (elem_of_sublist _ _ _ Hkv Hsub)) as [? _].
Qed.

(** X4: a run never sends the same DELETE request twice. *)
Theorem no_request_is_sent_twice (cfg : V4.Config) (clock : V4.Clock)
    (w : World Srv) :
  ∃ new, sent (V4.main cfg clock w).1 = sent w ++ new ∧ NoDup new.
Proof.
  destruct (v4_main_requests cfg clock w)
    as [->|(user & Fe & Fa & reqs1 & reqs2 & Hme & Hfin & Hs & H1 & H2)].
  { exists []. rewrite app_nil_r. split; [done|apply NoDup_nil_2]. }
  exists (reqs1 ++ reqs2). split; [done|].
  apply NoDup_app. split; [|split].
  - subst reqs1. apply v4_podcast_requests_NoDup.
  - intros r Hr1 Hr2. subst reqs1.
    destruct H2 as [->|H2]; [by apply elem_of_nil in Hr2|].
    rewrite H2 in Hr2.
    apply v4_podcast_requests_elem in Hr1
      as (? & ? & ? & _ & _ & _ & _ & -> & _).
    by apply v4_audiobook_requests_elem in Hr2
      as (? & ? & ? & _ & _ & _ & ? & _).
  - destruct H2 as [-> | ->];
      [apply NoDup_nil_2|apply v4_audiobook_requests_NoDup].
Qed.
End Requests.

Lemma media_type_gates_the_requests_witness :
  (V4.media_type audiobooks_older_than_60y = "PODCASTS" ∨
   V4.media_type audiobooks_older_than_60y = "AUDIOBOOKS") ∧
  ∃ new,
    sent (V4.main audiobooks_older_than_60y utc_2026 (fresh demo)).1 =
      sent (fresh demo) ++ new ∧
    Forall (λ r, match dr_endpoint r with
                 | PodcastEpisode _ _ =>
                     V4.media_type audiobooks_older_than_60y = "PODCASTS"
                 | LibraryItem _ =>
                     V4.media_type audiobooks_older_than_60y = "AUDIOBOOKS"
                 end) new.
Proof.
  split; [by right|].
  apply (media_type_gates_the_requests
           audiobooks_older_than_60y utc_2026 (fresh demo)).
  by right.
Defined.

(** ** When a scan fails *)

Lemma for_each_returns {A B} (body : A → B → result A) (P : B → Prop)
    (l : list B) (a : A) :
  (∀ a x, is_ok (body a x) = true ↔ P x) →
  is_ok (for_each body a l) = true ↔ ∀ x, x ∈ l → P x.
Proof.
  intros Hbody. revert a. induction l as [|x l IH]; intros a.
  - split; [by intros _ x ?%elem_of_nil|done].
  - cbn. specialize (Hbody a x).
    destruct (body a x) as [a'|e]; cbn in *.
    + rewrite IH. split.
      * intros Hl y [->|Hy]%elem_of_cons; [by apply Hbody|by apply Hl].
      * intros Hl y Hy. by apply Hl, list_elem_of_further.
    + split; [done|]. intros Hl. apply Hbody, Hl, list_elem_of_here.
Qed.

(** The details of a podcast let the scan go on: no [null] where it reads a
    dict or a list. *)
Definition podcast_details_ok (full_item : FullItem) : Prop :=
  ¬ null_details full_item ∧
  ("KEEP" ∈ item_tags full_item ∨ episodes (item_media full_item) ≠ Null).

Section ScanErrors.
Context {Srv : Type} `{ABSServer Srv}.

Lemma v4_scan_podcast_is_ok (s : Srv) (M : gmap string V4.EpData) item :
  is_ok (V4.scan_podcast s M item) = true ↔
  ∀ full_item, get_library_item s (item_id item) = Ok full_item →
               podcast_details_ok full_item.
Proof.
  unfold V4.scan_podcast.
  destruct (get_library_item s (item_id item)) as [full|e];
    [|by split; [intros _ ? [=]|]].
  transitivity (podcast_details_ok full);
    [|split; [by intros ? ? [= <-]|by intros Hf; apply Hf]].
  unfold podcast_details_ok, null_details, item_tags, item_media.
  destruct (media full) as [| |m]; cbn.
  - rewrite bool_decide_eq_false_2 by apply not_elem_of_nil. cbn.
    split; [|done]. intros _. split; [by intros [?|[?|?]]|by right].
  - split; [done|]. intros [[] _]. auto.
  - destruct (metadata m) as [| |md]; cbn;
      [|split; [done|]; intros [[] _]; auto|];
      (destruct (tags m) as [| |tgs]; cbn;
         [|split; [done|]; intros [[] _]; auto|]);
      (case_bool_decide as Hkeep; cbn;
         [split; [|done]; intros _; split; [by intros [?|[?|?]]|by left]|]);
      (destruct (episodes m) as [| |eps]; cbn;
         [|split; [done|]; by intros [_ [?|?]]|]);
      (split; [|done]; intros _; split; [by intros [?|[?|?]]|by right]).
Qed.

Lemma v4_scan_audiobook_is_ok (s : Srv) F (M : list (string * V4.AbData))
    item :
  is_ok (V4.scan_audiobook s F M item) = true ↔
  (item_id item ∈ F →
   ∀ full_item, get_library_item s (item_id item) = Ok full_item →
                ¬ null_details full_item).
Proof.
  unfold V4.scan_audiobook. case_bool_decide as HF; [by split|].
  try apply dec_stable in HF.
  destruct (get_library_item s (item_id item)) as [full|e];
    [|by split; [intros _ _ ? [=]|]].
  transitivity (¬ null_details full);
    [|split; [by intros ? ? ? [= <-]|by intros Hf; apply Hf]].
  unfold null_details, item_tags, item_media.
  destruct (media full) as [| |m]; cbn.
  - rewrite bool_decide_eq_false_2 by apply not_elem_of_nil. cbn.
    split; [|done]. intros _. by intros [?|[?|?]].
  - split; [done|]. intros []. auto.
  - destruct (metadata m) as [| |md]; cbn;
      [|split; [done|]; intros []; auto|];
      (destruct (tags m) as [| |tgs]; cbn;
         [|split; [done|]; intros []; auto|]);
      (case_bool_decide as Hkeep; cbn);
      (split; [|done]; intros _; by intros [?|[?|?]]).
Qed.

Lemma typed_scan_is_ok {A} (s : Srv) (kind : string)
    (scan : A → Item → result A) (P : Item → Prop) (a0 : A) :
  (∀ a item, is_ok (scan a item) = true ↔ P item) →
  is_ok (libs ← (libs0 ← get_libraries s;
                 libs0 ← not_none libs0;
                 mret (filter (λ lib, mediaType lib = Some kind) libs0));
         for_each (λ acc library,
                     items ← get_library_items s (lib_id library);
                     items ← not_none items;
                     for_each scan acc items) a0 libs) = true ↔
  ∃ libs, get_libraries s = Ok (Some libs) ∧
          ∀ lib, lib ∈ libs → mediaType lib = Some kind →
                 ∃ items, get_library_items s (lib_id lib) = Ok (Some items) ∧
                          ∀ item, item ∈ items → P item.
Proof.
  intros Hscan.
  destruct (get_libraries s) as [[libs|]|e]; cbn [mbind result_bind not_none];
    [|by split; [|intros (? & ? & _)]..].
  unfold mret, result_ret. cbn [mbind result_bind].
  rewrite (for_each_returns _
             (λ lib, ∃ items,
                get_library_items s (lib_id lib) = Ok (Some items) ∧
                ∀ item, item ∈ items → P item)).
  - split.
    + intros Hall. exists libs. split; [done|]. intros lib Hin Hk.
      apply Hall, list_elem_of_filter. done.
    + intros (libs' & [= <-] & Hall) lib [Hk Hin]%list_elem_of_filter.
      by apply Hall.
  - intros a lib.
    destruct (get_library_items s (lib_id lib)) as [[items|]|e];
      cbn [mbind result_bind not_none];
      [|by split; [|intros (? & ? & _)]..].
    rewrite (for_each_returns _ P) by done. split; [by eauto|].
    by intros (items' & [= <-] & ?).
Qed.

End ScanErrors.

(** ** The age filter over time *)

(** The verdict on an item raises exactly when its stamp is truthy and does
    not convert. *)
Lemma is_old_enough_is_ok clock now added_at_ms A :
  is_ok (V4.is_old_enough clock now added_at_ms A) =
  negb (truthy added_at_ms)
  || is_ok (V4.fromtimestamp_ms clock (default 0%Z added_at_ms)).
Proof.
  unfold V4.is_old_enough. destruct (truthy added_at_ms); [cbn|done].
  by destruct (V4.fromtimestamp_ms clock _).
Qed.

Lemma is_old_enough_mono clock clock' now now' A A' added_at_ms :
  (∀ t, V4.fromtimestamp_ms clock' t = V4.fromtimestamp_ms clock t) →
  (A ≤ A')%Z → (now ≤ now')%Z →
  V4.is_old_enough clock now added_at_ms A' = Ok true →
  V4.is_old_enough clock' now' added_at_ms A = Ok true.
Proof.
  intros Hconv HA Hnow. unfold V4.is_old_enough.
  destruct (truthy added_at_ms); [cbn|done]. rewrite Hconv.
  destruct (V4.fromtimestamp_ms clock _) as [v|]; [cbn|done].
  intros [= Hold]. f_equal. apply Z.leb_le. apply Z.leb_le in Hold. lia.
Qed.

Lemma omap_ext_in {A B} (f g : A → option B) (l : list A) :
  (∀ x, x ∈ l → f x = g x) → omap f l = omap g l.
Proof.
  induction l as [|x l IH]; intros Hfg; [done|].
  rewrite !omap_cons_eq, Hfg by apply list_elem_of_here.
  rewrite IH; [done|]. intros y Hy. by apply Hfg, list_elem_of_further.
Qed.

(** X7: eligibility is monotone in the readings of the clock and in the
    minimum age.  Take two runs on machines that convert stamps alike, the
    second reading its clock no earlier than the first at every test, and
    with a minimum age that is no larger.  An item that is old enough in the
    first is old enough in the second; the selections of the second run
    return exactly when those of the first do, and hold every item the first
    selected; and a run without AGE selects every item a run with AGE
    selects.  (The readings are those of the local calendar, which steps back
    when daylight saving time ends: a run that starts later need not read
    later.) *)
Theorem age_filter_is_monotone (clock clock' : V4.Clock) (A A' : Z)
    (F : gset string) (M : gmap string V4.EpData)
    (Mab : list (string * V4.AbData)) :
  (A ≤ A')%Z →
  (∀ t, V4.fromtimestamp_ms clock' t = V4.fromtimestamp_ms clock t) →
  (∀ e, (V4.now_episode clock e ≤ V4.now_episode clock' e)%Z) →
  (∀ k, (V4.now_audiobook clock k ≤ V4.now_audiobook clock' k)%Z) →
  NoDup (dict_keys Mab) →
  (∀ now now' added_at_ms,
     (now ≤ now')%Z →
     V4.is_old_enough clock now added_at_ms A' = Ok true →
     V4.is_old_enough clock' now' added_at_ms A = Ok true) ∧
  (is_ok (V4.select_episodes clock' (Some A) F M) =
   is_ok (V4.select_episodes clock (Some A') F M)) ∧
  (∀ sel k sel' k',
     V4.select_episodes clock (Some A') F M = Ok (sel, k) →
     V4.select_episodes clock' (Some A) F M = Ok (sel', k') →
     sel ⊆ sel' ∧
     ∃ all, V4.select_episodes clock' None F M = Ok (all, 0) ∧ sel' ⊆ all) ∧
  (is_ok (V4.select_audiobooks clock' (Some A) Mab) =
   is_ok (V4.select_audiobooks clock (Some A') Mab)) ∧
  (∀ sel k sel' k',
     V4.select_audiobooks clock (Some A') Mab = Ok (sel, k) →
     V4.select_audiobooks clock' (Some A) Mab = Ok (sel', k') →
     sel ⊆ sel' ∧
     V4.select_audiobooks clock' None Mab = Ok (Mab, 0) ∧ sel' ⊆ Mab).
Proof.
  intros HA Hconv Hep Hab Hnd.
  assert (∀ now now' a B B',
            is_ok (V4.is_old_enough clock' now' a B) =
            is_ok (V4.is_old_enough clock now a B')) as Hok.
  { intros. by rewrite !is_old_enough_is_ok, Hconv. }
  split; [intros now now' a; by apply is_old_enough_mono|].
  split; [|split; [|split]].
  - pose proof (v4_select_episodes_spec clock (Some A') F M) as Hs.
    pose proof (v4_select_episodes_spec clock' (Some A) F M) as Hs'.
    destruct (V4.select_episodes clock (Some A') F M) as [r|err],
      (V4.select_episodes clock' (Some A) F M) as [r'|err']; try done.
    + destruct Hs as [_ Hno], Hs' as (e & He & Hv). destruct (Hno e He).
      unfold test_raises, verdict in *. destruct (M !! e) as [d|]; [|done].
      cbn in *. injection Hv as Hv.
      specialize (Hok (V4.now_episode clock e) (V4.now_episode clock' e)
                      (V4.added_at d) A A').
      rewrite Hv in Hok. cbn in Hok.
      destruct (V4.is_old_enough clock _ _ A') as [|err0]; [done|].
      by exists err0.
    + destruct Hs' as [_ Hno], Hs as (e & He & Hv). destruct (Hno e He).
      unfold test_raises, verdict in *. destruct (M !! e) as [d|]; [|done].
      cbn in *. injection Hv as Hv.
      specialize (Hok (V4.now_episode clock e) (V4.now_episode clock' e)
                      (V4.added_at d) A A').
      rewrite Hv in Hok. cbn in Hok.
      destruct (V4.is_old_enough clock' _ _ A) as [|err0]; [done|].
      by exists err0.
  - intros sel k sel' k' [-> _]%v4_select_episodes_Ok
           [-> _]%v4_select_episodes_Ok.
    split.
    + intros ep (e & He & Hp)%list_elem_of_omap. apply list_elem_of_omap.
      exists e. split; [done|].
      apply pick_some in Hp as (d & Hd & Hpass & ->). apply pick_some.
      exists d. split; [done|]. split; [|done]. cbn in *.
      by apply (is_old_enough_mono clock clock' _ _ A A' _ Hconv HA (Hep e)).
    + eexists. split; [apply v4_select_episodes_no_age|].
      intros ep (e & He & Hp)%list_elem_of_omap. apply list_elem_of_omap.
      exists e. split; [done|].
      apply pick_some in Hp as (d & Hd & Hpass & ->). apply pick_some.
      by exists d.
  - pose proof (v4_select_audiobooks_spec clock A' Mab Hnd) as Hs.
    pose proof (v4_select_audiobooks_spec clock' A Mab Hnd) as Hs'.
    destruct (V4.select_audiobooks clock (Some A') Mab) as [r|err],
      (V4.select_audiobooks clock' (Some A) Mab) as [r'|err']; try done.
    + destruct Hs as [_ Hall], Hs' as (kv & Hin & Hv).
      specialize (Hall kv Hin). unfold ab_verdict in *.
      specialize (Hok (V4.now_audiobook clock kv.1)
                      (V4.now_audiobook clock' kv.1)
                      (V4.ab_added_at kv.2) A A').
      by rewrite Hv, Hall in Hok.
    + destruct Hs' as [_ Hall], Hs as (kv & Hin & Hv).
      specialize (Hall kv Hin). unfold ab_verdict in *.
      specialize (Hok (V4.now_audiobook clock kv.1)
                      (V4.now_audiobook clock' kv.1)
                      (V4.ab_added_at kv.2) A A').
      by rewrite Hv, Hall in Hok.
  - intros sel k sel' k' (-> & _ & _)%v4_select_audiobooks_Ok
           (-> & _ & _)%v4_select_audiobooks_Ok; [|done..].
    split; [|split; [done|]].
    + intros kv [Hold Hin]%list_elem_of_filter. apply list_elem_of_filter.
      split; [|done]. unfold ab_old, ab_verdict in *.
      destruct (V4.is_old_enough clock _ _ A') as [[]|] eqn:Hv; [|done..].
      by rewrite (is_old_enough_mono clock clock' _
                    (V4.now_audiobook clock' kv.1) A A' _ Hconv HA
                    (Hab kv.1) Hv).
    + by intros kv [_ Hin]%list_elem_of_filter.
Qed.

(** The clock of [utc_2026] an hour later. *)
Definition utc_2026_later : V4.Clock :=
  {| V4.fromtimestamp_ms ms := Ok (ms * 1000)%Z;
     V4.now_episode _ := (now_2026 + 3600000000)%Z;
     V4.now_audiobook _ := (now_2026 + 3600000000)%Z |}.

(** A catalogue of one book. *)
Definition one_book : list (string * V4.AbData) :=
  [("book3", {| V4.ab_library_item_id := "book3";
                V4.audiobook_title := Some "Book three";
                V4.author_name := Some "Unknown Author";
                V4.ab_added_at := Some 1000%Z |})].

Lemma age_filter_is_monotone_witness :
  V4.select_audiobooks utc_2026 (Some 2000%Z) one_book = Ok (one_book, 0) ∧
  V4.select_audiobooks utc_2026_later (Some 1000%Z) one_book
    = Ok (one_book, 0) ∧
  one_book ⊆ one_book.
Proof.
  assert (V4.select_audiobooks utc_2026 (Some 2000%Z) one_book
          = Ok (one_book, 0)) as H1 by (vm_compute; reflexivity).
  assert (V4.select_audiobooks utc_2026_later (Some 1000%Z) one_book
          = Ok (one_book, 0)) as H2 by (vm_compute; reflexivity).
  split; [exact H1|]. split; [exact H2|].
  refine (proj1 (proj2 (proj2 (proj2 (proj2
            (age_filter_is_monotone utc_2026 utc_2026_later 1000 2000
               ∅ ∅ one_book _ _ _ _ _)))) one_book 0 one_book 0 H1 H2)).
  - lia.
  - reflexivity.
  - intros e. cbn. lia.
  - intros k. cbn. lia.
  - apply NoDup_singleton.
Defined.

(** X8: a minimum age of zero filters nothing out when no finished episode
    of the lookup carries a stamp that fails to convert or that reads, on the
    local calendar, later than the clock does at its test: the episode
    deletion list is the one of a run without AGE, and no episode is counted
    as skipped. *)
Theorem zero_age_filters_nothing (clock : V4.Clock) (F : gset string)
    (M : gmap string V4.EpData) :
  (∀ e d t,
     e ∈ F → M !! e = Some d → V4.added_at d = Some t → t ≠ 0%Z →
     ∃ added_at,
       V4.fromtimestamp_ms clock t = Ok added_at ∧
       (added_at ≤ V4.now_episode clock e)%Z) →
  V4.select_episodes clock (Some 0%Z) F M = V4.select_episodes clock None F M.
Proof.
  intros Hpast.
  assert (∀ e d, e ∈ F → M !! e = Some d →
                 V4.is_old_enough clock (V4.now_episode clock e)
                                  (V4.added_at d) 0 = Ok true) as Hold.
  { intros e d He Hd.
    destruct (truthy (V4.added_at d)) eqn:Ht;
      [|by apply is_old_enough_falsy].
    apply truthy_option_Z in Ht as (t & Ht & Hne).
    destruct (Hpast e d t He Hd Ht Hne) as (v & Hv & Hle).
    rewrite Ht, (is_old_enough_truthy clock _ t 0 v Hne Hv).
    f_equal. apply Z.leb_le. lia. }
  rewrite v4_select_episodes_no_age.
  destruct (v4_select_episodes_returns clock (Some 0%Z) F M)
    as (sel & k & Hsel).
  { intros e He [err Herr]. unfold verdict in Herr.
    destruct (M !! e) as [d|] eqn:Hd; [|done]. cbn in Herr.
    by rewrite (Hold e d He Hd) in Herr. }
  rewrite Hsel. apply v4_select_episodes_Ok in Hsel as [-> ->].
  do 2 f_equal.
  - apply omap_ext_in. intros e He%elem_of_elements.
    unfold pick. destruct (M !! e) as [d|] eqn:Hd; [|done]. cbn.
    by rewrite (Hold e d He Hd).
  - assert (∀ l, (∀ e, e ∈ l → e ∈ F) →
              length (filter (λ e, too_recent clock (Some 0%Z) M e = true) l)
              = 0) as Hnone; [|apply Hnone; by intros e ?%elem_of_elements].
    induction l as [|e l IH]; intros Hl; [done|].
    rewrite filter_cons_False.
    + apply IH. intros e' He'. by apply Hl, list_elem_of_further.
    + unfold too_recent, verdict.
      destruct (M !! e) as [d|] eqn:Hd; [|done]. cbn.
      by rewrite (Hold e d (Hl e (list_elem_of_here _ _)) Hd).
Qed.

Lemma zero_age_filters_nothing_witness :
  V4.select_episodes utc_2026 (Some 0%Z) {["e1"]}
    {["e1" := {| V4.library_item_id := "pod1";
                 V4.podcast_title := Some "Pod";
                 V4.episode_title := Some "One";
                 V4.added_at := Some 1000%Z |}]}
  = V4.select_episodes utc_2026 None {["e1"]}
      {["e1" := {| V4.library_item_id := "pod1";
                   V4.podcast_title := Some "Pod";
                   V4.episode_title := Some "One";
                   V4.added_at := Some 1000%Z |}]}.
Proof.
  apply (zero_age_filters_nothing utc_2026 {["e1"]}
           {["e1" := {| V4.library_item_id := "pod1";
                        V4.podcast_title := Some "Pod";
                        V4.episode_title := Some "One";
                        V4.added_at := Some 1000%Z |}]}).
  intros e d t He Hd Ht Hne.
  destruct (decide (e = "e1")) as [->|Hne'].
  - rewrite lookup_singleton_eq in Hd. injection Hd as <-. cbn in Ht.
    injection Ht as <-. eexists. split; [reflexivity|]. by vm_compute.
  - by rewrite lookup_singleton_ne in Hd.
Defined.

(** ** The earlier versions *)

Section Earlier.
Context {Srv : Type} `{ABSServer Srv}.

Lemma v4_main_spares cfg clock (w : World Srv) L :
  keep_tagged (server w) L →
  (∀ s r, target r ≠ L → keep_tagged s L → keep_tagged (api_delete s r).1 L) →
  ∃ new,
    sent (V4.main cfg clock w).1 = sent w ++ new ∧
    Forall (λ r, target r ≠ L) new.
Proof.
  intros HL Hframe.
  destruct (v4_main_sent cfg clock w)
    as (Fe & Fa & reqs1 & reqs2 & Hs & H1 & H2).
  exists (reqs1 ++ reqs2). split; [done|].
  assert (Forall (λ r, target r ≠ L) reqs1) as Hreqs1.
  { destruct H1 as [-> | ->];
      [apply Forall_nil_2|by apply v4_podcast_requests_spare]. }
  apply Forall_app. split; [done|].
  destruct H2 as [-> | ->]; [apply Forall_nil_2|].
  apply v4_audiobook_requests_spare. by apply send_all_keeps_tag.
Qed.

Lemma v4_main_hard cfg clock (w : World Srv) :
  ∃ new,
    sent (V4.main cfg clock w).1 = sent w ++ new ∧
    Forall (λ r, dr_params r = [("hard", "1")]) new.
Proof.
  destruct (v4_main_sent cfg clock w)
    as (Fe & Fa & reqs1 & reqs2 & Hs & H1 & H2).
  exists (reqs1 ++ reqs2). split; [done|].
  apply Forall_app. split.
  - destruct H1 as [-> | ->];
      [apply Forall_nil_2|apply v4_podcast_requests_hard].
  - destruct H2 as [-> | ->];
      [apply Forall_nil_2|apply v4_audiobook_requests_hard].
Qed.

(** X9: v3 and v2 protect the items tagged KEEP as v4 does: on a server
    where deleting something else leaves the tag in place, no DELETE request
    of a run of v3 or of v2 is addressed to such an item or to one of its
    episodes. *)
Theorem earlier_versions_spare_kept_items (cfg : V3.Config) (dry : bool)
    (w : World Srv) (L : string) :
  keep_tagged (server w) L →
  (∀ s r, target r ≠ L → keep_tagged s L → keep_tagged (api_delete s r).1 L) →
  (∃ new, sent (V3.main cfg w).1 = sent w ++ new ∧
          Forall (λ r, target r ≠ L) new) ∧
  (∃ new, sent (V2.main dry w).1 = sent w ++ new ∧
          Forall (λ r, target r ≠ L) new).
Proof.
  intros HL Hframe. split.
  - rewrite <- (v4_without_age_is_v3 cfg utc_2026 w). by apply v4_main_spares.
  - rewrite <- v3_podcasts_is_v2, <- (v4_without_age_is_v3 _ utc_2026 w).
    by apply v4_main_spares.
Qed.

(** X10: every DELETE request of a run of v3 or of v2 carries [hard=1]. *)
Theorem earlier_versions_delete_hard (cfg : V3.Config) (dry : bool)
    (w : World Srv) :
  (∃ new, sent (V3.main cfg w).1 = sent w ++ new ∧
          Forall (λ r, dr_params r = [("hard", "1")]) new) ∧
  (∃ new, sent (V2.main dry w).1 = sent w ++ new ∧
          Forall (λ r, dr_params r = [("hard", "1")]) new).
Proof.
  split.
  - rewrite <- (v4_without_age_is_v3 cfg utc_2026 w). apply v4_main_hard.
  - rewrite <- v3_podcasts_is_v2, <- (v4_without_age_is_v3 _ utc_2026 w).
    apply v4_main_hard.
Qed.

(** X11: with DRY_RUN on, v3 (for every MEDIA_TYPE) and v2 send no DELETE
    request and leave the server in the state they found. *)
Theorem earlier_versions_rehearse (media_type : string) (w : World Srv) :
  (V3.main {| V3.dry_run := true; V3.media_type := media_type |} w).1 = w ∧
  (V2.main true w).1 = w.
Proof.
  split.
  - rewrite <- (v4_without_age_is_v3 _ utc_2026 w). by apply v4_dry_world.
  - rewrite <- v3_podcasts_is_v2, <- (v4_without_age_is_v3 _ utc_2026 w).
    by apply v4_dry_world.
Qed.

Lemma v2_delete_episodes_counts dry eps (w : World Srv) c :
  V2.deleted_count (V2.delete_episodes dry eps w c).2 +
    V2.failed_count (V2.delete_episodes dry eps w c).2
  = V2.deleted_count c + V2.failed_count c + length eps ∧
  (dry = true →
   V2.failed_count (V2.delete_episodes dry eps w c).2 = V2.failed_count c).
Proof.
  revert w c. induction eps as [|ep eps IH]; intros w c; cbn; [split; [lia|done]|].
  destruct dry.
  - destruct (IH w (V2.count_deleted c)) as [IH1 IH2]. cbn in *.
    split; [lia|]. intros _. by rewrite IH2.
  - destruct (delete_episode _ _ _ _) as [w' [b|[]]];
      [destruct (IH w' (V2.count_deleted c)) as [IH1 _]
      |destruct (IH w' (V2.count_failed c)) as [IH1 _]..];
      cbn in *; (split; [lia|done]).
Qed.

Lemma omap_nil {A B} (f : A → option B) (l : list A) :
  omap f l = [] ↔ ∀ x, x ∈ l → f x = None.
Proof.
  induction l as [|x l IH]; [by split; [intros _ ? ?%elem_of_nil|]|].
  rewrite omap_cons_eq. destruct (f x) as [y|] eqn:Hx.
  - split; [done|]. intros Hl.
    specialize (Hl x (list_elem_of_here _ _)). congruence.
  - rewrite IH. split.
    + by intros Hl y [->|?]%elem_of_cons; [|apply Hl].
    + intros Hl y Hy. by apply Hl, list_elem_of_further.
Qed.

(** How [V2.main] ends. *)
Lemma v2_main_outcomes (dry : bool) (w : World Srv) :
  match (V2.main dry w).2 with
  | V2.Exit code =>
      code = 1%Z ∧ (V2.main dry w).1 = w ∧
      get_user_with_progress (server w) = Raise HTTPError
  | V2.Uncaught e =>
      (V2.main dry w).1 = w ∧
      (get_user_with_progress (server w) = Raise e ∨
       (∃ user_data,
          get_user_with_progress (server w) = Ok user_data ∧
          get_finished_episode_ids user_data = Raise e) ∨
       V2.build_episode_map (server w) = Raise e)
  | V2.Returned =>
      (V2.main dry w).1 = w ∧
      ∃ user_data finished,
        get_user_with_progress (server w) = Ok user_data ∧
        get_finished_episode_ids user_data = Ok finished ∧
        (finished = ∅ ∨
         ∃ M, V2.build_episode_map (server w) = Ok M ∧
              ∀ e, e ∈ finished → M !! e = None)
  | V2.Completed c =>
      ∃ new,
        sent (V2.main dry w).1 = sent w ++ new ∧
        0 < V2.deleted_count c + V2.failed_count c ∧
        if dry then new = [] ∧ V2.failed_count c = 0
        else V2.deleted_count c + V2.failed_count c = length new
  end.
Proof.
  destruct (V2.main dry w) as [w' out] eqn:Hres. cbn [fst snd].
  revert Hres. unfold V2.main.
  destruct (get_user_with_progress (server w)) as [user|[]] eqn:Hme;
    [|intros [= <- <-]; auto..].
  destruct (get_finished_episode_ids user) as [F|e] eqn:HF;
    [|intros [= <- <-]; split; [done|]; right; left; eauto].
  destruct (truthy F) eqn:HFt; cbn [negb].
  2:{ intros [= <- <-]. split; [done|]. exists user, F.
      split; [done|]. split; [done|]. left. by apply truthy_gset_empty. }
  destruct (V2.build_episode_map (server w)) as [M|e] eqn:Hb;
    [|intros [= <- <-]; auto].
  destruct (V2.select_episodes F M) as [|ep eps] eqn:Hsel;
    cbn [truthy list_truthy negb].
  { intros [= <- <-]. split; [done|]. exists user, F.
    split; [done|]. split; [done|]. right. exists M. split; [done|].
    rewrite v2_select_episodes_spec in Hsel.
    intros e He%elem_of_elements.
    pose proof (proj1 (omap_nil _ _) Hsel e He) as Hnone. cbn in Hnone.
    by destruct (M !! e). }
  pose proof (v2_delete_episodes_world dry (ep :: eps) w
                {| V2.deleted_count := 0; V2.failed_count := 0 |}) as Hw.
  pose proof (v2_delete_episodes_counts dry (ep :: eps) w
                {| V2.deleted_count := 0; V2.failed_count := 0 |}) as [Hc Hd].
  destruct (V2.delete_episodes dry (ep :: eps) w _) as [w2 c].
  intros [= <- <-]. cbn in Hc, Hd. cbn [fst snd] in *.
  exists (if dry then [] else v2_request <$> ep :: eps).
  rewrite Hw, send_all_sent. split; [done|]. split; [lia|].
  destruct dry; [by rewrite Hd|]. rewrite length_fmap. cbn. lia.
Qed.
End Earlier.

Lemma earlier_versions_spare_kept_items_witness :
  keep_tagged (server (fresh demo)) "pod2" ∧
  ∃ new,
    sent (V2.main false (fresh demo)).1 = sent (fresh demo) ++ new ∧
    Forall (λ r, target r ≠ "pod2") new.
Proof.
  assert (keep_tagged (server (fresh demo)) "pod2") as Hkeep.
  { eexists. split; [vm_compute; reflexivity|].
    vm_compute. apply list_elem_of_here. }
  split; [exact Hkeep|].
  refine (proj2 (earlier_versions_spare_kept_items
                   {| V3.dry_run := false; V3.media_type := "EVERYTHING" |}
                   false (fresh demo) "pod2" Hkeep _)).
  intros s r. apply table_server_frame.
Defined.

(** ** The summaries of v3 and of v4 *)

Definition v3_add (d f : nat) (t : V3.Totals) : V3.Totals :=
  {| V3.total_deleted := V3.total_deleted t + d;
     V3.total_failed := V3.total_failed t + f |}.

(** Two outcomes that tell the caller the same thing. *)
Definition outcomes_agree (o4 : V4.Outcome) (o3 : V3.Outcome) : Prop :=
  match o4, o3 with
  | V4.Exit c4, V3.Exit c3 => c4 = c3
  | V4.Uncaught e4, V3.Uncaught e3 => e4 = e3
  | V4.Completed sum, V3.Completed t =>
      V4.deleted sum = V3.total_deleted t ∧
      V4.failed sum = V3.total_failed t ∧
      V4.skipped_too_recent sum = None
  | _, _ => False
  end.

(** The same running counts in v4's and in v3's totals. *)
Definition totals_agree (t4 : V4.Totals) (t3 : V3.Totals) : Prop :=
  V4.total_deleted t4 = V3.total_deleted t3 ∧
  V4.total_failed t4 = V3.total_failed t3.

Definition results_agree (r4 : result V4.Totals) (r3 : result V3.Totals)
  : Prop :=
  match r4, r3 with
  | Ok t4, Ok t3 => totals_agree t4 t3
  | Raise e4, Raise e3 => e4 = e3
  | _, _ => False
  end.

Section Summaries.
Context {Srv : Type} `{ABSServer Srv}.

Lemma v3_add_0 t : v3_add 0 0 t = t.
Proof. destruct t. unfold v3_add. cbn. f_equal; lia. Qed.

Lemma v3_add_deleted d f t :
  v3_add d f (V3.count_deleted t) = v3_add (S d) f t.
Proof. unfold v3_add, V3.count_deleted. cbn. f_equal; lia. Qed.

Lemma v3_add_failed d f t :
  v3_add d f (V3.count_failed t) = v3_add d (S f) t.
Proof. unfold v3_add, V3.count_failed. cbn. f_equal; lia. Qed.

Lemma v3_delete_episodes_spec dry eps (w : World Srv) t :
  V3.delete_episodes dry eps w t =
  let '(w', answers) :=
    send_all (if dry then [] else v3_request <$> eps) w in
  (w', v3_add (if dry then length eps else successes answers)
              (failures answers) t).
Proof.
  destruct dry.
  - revert t. induction eps as [|ep eps IH]; intros t; cbn.
    + by rewrite v3_add_0.
    + rewrite IH. cbn. by rewrite v3_add_deleted.
  - revert w t. induction eps as [|ep eps IH]; intros w t; cbn.
    + by rewrite v3_add_0.
    + unfold delete_episode, _delete, v3_request at 1, episode_request. cbn.
      destruct (api_delete (server w) _) as [s' [[]|[]]]; cbn;
        rewrite IH; destruct (send_all _ _) as [w' answers];
        by rewrite ?v3_add_deleted, ?v3_add_failed, successes_cons,
             failures_cons.
Qed.

Lemma v3_delete_audiobooks_spec dry abs (w : World Srv) t :
  V3.delete_audiobooks dry abs w t =
  let '(w', answers) :=
    send_all (if dry then []
              else (λ ab, item_request (V3.ab_library_item_id ab)) <$> abs) w in
  (w', v3_add (if dry then length abs else successes answers)
              (failures answers) t).
Proof.
  destruct dry.
  - revert t. induction abs as [|ab abs IH]; intros t; cbn.
    + by rewrite v3_add_0.
    + rewrite IH. cbn. by rewrite v3_add_deleted.
  - revert w t. induction abs as [|ab abs IH]; intros w t; cbn.
    + by rewrite v3_add_0.
    + unfold delete_library_item, _delete, item_request at 1. cbn.
      destruct (api_delete (server w) _) as [s' [[]|[]]]; cbn;
        rewrite IH; destruct (send_all _ _) as [w' answers];
        by rewrite ?v3_add_deleted, ?v3_add_failed, successes_cons,
             failures_cons.
Qed.

Lemma v3_v4_podcast_results cfg clock F (w : World Srv) t3 t4 :
  totals_agree t4 t3 →
  results_agree
    (V4.process_podcast_episodes (without_age cfg) clock F w t4).2
    (V3.process_podcast_episodes cfg F w t3).2.
Proof.
  intros [Hd Hf].
  unfold V4.process_podcast_episodes, V3.process_podcast_episodes.
  rewrite v3_v4_episode_map.
  destruct (V4.build_episode_map (server w)) as [M|e]; [|done].
  cbn [result_map without_age V4.dry_run V4.min_age].
  rewrite v4_select_episodes_no_age.
  pose proof (v3_v4_selected clock F M) as Hsel.
  assert (length (V3.select_episodes F (v3_of_v4 <$> M)) =
          length (omap (pick clock None M) (elements F))) as Hlen.
  { by rewrite <- (length_fmap v3_request), Hsel, length_fmap. }
  destruct (V3.select_episodes F (v3_of_v4 <$> M)) as [|ep3 eps3],
    (omap (pick clock None M) (elements F)) as [|ep4 eps4]; try done.
  cbn [truthy list_truthy]. rewrite v3_delete_episodes_spec.
  destruct (V3.dry_run cfg).
  - rewrite v4_delete_episodes_dry. cbn in *.
    unfold totals_agree. cbn. lia.
  - rewrite v4_delete_episodes_real, Hsel.
    destruct (send_all _ w) as [w' answers]. cbn.
    unfold totals_agree. cbn. lia.
Qed.

Lemma v3_v4_audiobook_results cfg clock F (w : World Srv) t3 t4 :
  totals_agree t4 t3 →
  results_agree
    (V4.process_audiobook_items (without_age cfg) clock F w t4).2
    (V3.process_audiobook_items cfg F w t3).2.
Proof.
  intros [Hd Hf].
  unfold V4.process_audiobook_items, V3.process_audiobook_items.
  rewrite v3_v4_audiobook_map.
  destruct (V4.build_audiobook_map (server w) F) as [M|e]; [|done].
  cbn [result_map without_age V4.dry_run V4.min_age V4.select_audiobooks].
  assert ((λ ab, item_request (V3.ab_library_item_id ab)) <$>
            dict_values (prod_map id v3_of_v4_ab <$> M) =
          (λ ab, item_request (V4.ab_library_item_id ab)) <$> dict_values M)
    as Hreq.
  { unfold dict_values. rewrite <- !list_fmap_compose.
    apply list_fmap_ext. by intros ? [k ab]. }
  destruct (decide (M = [])) as [->|Hne]; [done|].
  assert (truthy (prod_map id v3_of_v4_ab <$> M) = true) as ->
    by (by destruct M).
  assert (truthy M = true) as -> by (by destruct M).
  rewrite v3_delete_audiobooks_spec.
  destruct (V3.dry_run cfg).
  - rewrite v4_delete_audiobooks_dry. unfold dict_values.
    rewrite !length_fmap. cbn. unfold totals_agree. cbn. lia.
  - rewrite v4_delete_audiobooks_real, Hreq.
    destruct (send_all _ w) as [w' answers]. cbn.
    unfold totals_agree. cbn. lia.
Qed.

(** X13: v4 with no AGE configured ends as v3 does with the same settings:
    the same exit status, the same uncaught exception, or a summary with the
    same deleted and failed counts (and no count of skipped items). *)
Theorem v4_without_age_reports_as_v3 (cfg : V3.Config) (clock : V4.Clock)
    (w : World Srv) :
  outcomes_agree (V4.main (without_age cfg) clock w).2 (V3.main cfg w).2.
Proof.
  unfold V4.main, V3.main. cbn [without_age V4.media_type].
  case_bool_decide; [done|].
  destruct (get_user_with_progress (server w)) as [user|[]]; [|done..].
  destruct (get_finished_media user) as [[Fe Fa]|e]; [|done].
  match goal with
  | |- context [V4.process_podcast_episodes _ _ _ _ ?t4] => set (t4_0 := t4)
  end.
  match goal with
  | |- context [V3.process_podcast_episodes _ _ _ ?t3] => set (t3_0 := t3)
  end.
  assert (totals_agree t4_0 t3_0) as Hzero by done.
  assert (∃ w1 r4 r3,
    (if bool_decide (V3.media_type cfg ∈ ["PODCASTS"; "EVERYTHING"])
        && truthy Fe
     then V4.process_podcast_episodes (without_age cfg) clock Fe w t4_0
     else (w, Ok t4_0)) = (w1, r4) ∧
    (if bool_decide (V3.media_type cfg ∈ ["PODCASTS"; "EVERYTHING"])
        && truthy Fe
     then V3.process_podcast_episodes cfg Fe w t3_0
     else (w, Ok t3_0)) = (w1, r3) ∧
    results_agree r4 r3) as (w1 & r4 & r3 & -> & -> & Hr).
  { destruct (_ && _); [|by exists w, (Ok t4_0), (Ok t3_0)].
    destruct (v3_v4_podcast_phase cfg clock Fe w t3_0 t4_0) as [Hw _].
    pose proof (v3_v4_podcast_results cfg clock Fe w t3_0 t4_0 Hzero) as Hr.
    destruct (V4.process_podcast_episodes _ _ _ _ _) as [w4 r4].
    destruct (V3.process_podcast_episodes _ _ _ _) as [w3 r3].
    cbn in Hw, Hr. subst w4. by exists w3, r4, r3. }
  destruct r4 as [t4|e4], r3 as [t3|e3]; try done.
  assert (∃ w2 r4 r3,
    (if bool_decide (V3.media_type cfg ∈ ["AUDIOBOOKS"; "EVERYTHING"])
        && truthy Fa
     then V4.process_audiobook_items (without_age cfg) clock Fa w1 t4
     else (w1, Ok t4)) = (w2, r4) ∧
    (if bool_decide (V3.media_type cfg ∈ ["AUDIOBOOKS"; "EVERYTHING"])
        && truthy Fa
     then V3.process_audiobook_items cfg Fa w1 t3
     else (w1, Ok t3)) = (w2, r3) ∧
    results_agree r4 r3) as (w2 & r4 & r3 & -> & -> & Hr2).
  { destruct (_ && _); [|by exists w1, (Ok t4), (Ok t3)].
    destruct (v3_v4_audiobook_phase cfg clock Fa w1 t3 t4) as [Hw _].
    pose proof (v3_v4_audiobook_results cfg clock Fa w1 t3 t4 Hr) as Hr2.
    destruct (V4.process_audiobook_items _ _ _ _ _) as [w4 r4].
    destruct (V3.process_audiobook_items _ _ _ _) as [w3 r3].
    cbn in Hw, Hr2. subst w4. by exists w3, r4, r3. }
  destruct r4 as [t4'|e4], r3 as [t3'|e3]; try done.
  destruct Hr2 as [? ?]. by cbn.
Qed.
End Summaries.

(** * Settings: AGE, the environment, the configuration file *)

(** ** Python text operations, on ASCII text

    A [str] the scripts take apart is read as the list of its characters.
    The operations below are Python's on characters below code 128; text with
    other characters is outside what they model (Python knows further digits,
    spaces and letter cases there). *)

From Stdlib Require Import Strings.Ascii.

Module Text.

Definition code (c : ascii) : N := N_of_ascii c.

Definition is_ascii (c : ascii) : bool := (code c <? 128)%N.

(** [str.isspace], and [\s] of [re]: tab, line feed, vertical tab, form
    feed, carriage return, the four separators 28 to 31, space. *)
Definition isspace (c : ascii) : bool :=
  ((9 <=? code c) && (code c <=? 13) || (28 <=? code c) && (code c <=? 32))%N.

(** [\d] of [re]. *)
Definition isdigit (c : ascii) : bool :=
  ((48 <=? code c) && (code c <=? 57))%N.

Definition lower_char (c : ascii) : ascii :=
  if ((65 <=? code c) && (code c <=? 90))%N then ascii_of_N (code c + 32)
  else c.

Definition upper_char (c : ascii) : ascii :=
  if ((97 <=? code c) && (code c <=? 122))%N then ascii_of_N (code c - 32)
  else c.

(** [s.lower()] and [s.upper()]. *)
Definition lower (s : list ascii) : list ascii := lower_char <$> s.
Definition upper (s : list ascii) : list ascii := upper_char <$> s.

(** Stripping the characters that satisfy [p] off the left end, the right
    end, both ends. *)
Fixpoint lstrip_by (p : ascii → bool) (s : list ascii) : list ascii :=
  match s with
  | [] => []
  | c :: rest => if p c then lstrip_by p rest else s
  end.

Definition rstrip_by (p : ascii → bool) (s : list ascii) : list ascii :=
  reverse (lstrip_by p (reverse s)).

Definition strip_by (p : ascii → bool) (s : list ascii) : list ascii :=
  rstrip_by p (lstrip_by p s).

(** [s.strip()]. *)
Definition strip (s : list ascii) : list ascii := strip_by isspace s.

(** [s.strip(chars)] and [s.rstrip(chars)]. *)
Definition strip_chars (chars s : list ascii) : list ascii :=
  strip_by (λ c, bool_decide (c ∈ chars)) s.
Definition rstrip_chars (chars s : list ascii) : list ascii :=
  rstrip_by (λ c, bool_decide (c ∈ chars)) s.

(** The longest prefix whose characters satisfy [p], and what follows it:
    what a greedy [p+] or [p*] of a regular expression takes. *)
Fixpoint span (p : ascii → bool) (s : list ascii) : list ascii * list ascii :=
  match s with
  | [] => ([], [])
  | c :: rest =>
      if p c then let '(taken, others) := span p rest in (c :: taken, others)
      else ([], s)
  end.

(** [int(digits)] for a string of decimal digits. *)
Definition int_of_digits (digits : list ascii) : Z :=
  foldl (λ n c, 10 * n + (Z.of_N (code c) - 48))%Z 0%Z digits.

End Text.

(** ** [parse_age] *)

Module Age.

(** A [timedelta] holds at most this many days. *)
Definition max_days : Z := 999999999.

(** [int] refuses a string of more digits than this (the interpreter's
    default limit). *)
Definition max_str_digits : nat := 4300.

Definition microseconds_per_day : Z := 86400 * 1000000.

(** [timedelta(days=days)] for a non-negative number of days: the length in
    microseconds, or [OverflowError]. *)
Definition timedelta_days (days : Z) : result Z :=
  if (max_days <? days)%Z then Raise OtherException
  else Ok (days * microseconds_per_day)%Z.

Definition is_unit (c : ascii) : bool :=
  bool_decide (c ∈ ["d"; "w"; "m"; "y"]%char).

(** [re.match(r'^(\d+)\s*([dwmy])$', s)]: the two groups of a match.  [$]
    also matches just before a line feed that ends the string. *)
Definition age_match (s : list ascii) : option (list ascii * ascii) :=
  let '(digits, rest) := Text.span Text.isdigit s in
  if negb (truthy digits) then None
  else
    let '(_, rest) := Text.span Text.isspace rest in
    match rest with
    | [unit] => if is_unit unit then Some (digits, unit) else None
    | [unit; newline] =>
        if is_unit unit && bool_decide (newline = "010"%char)
        then Some (digits, unit) else None
    | _ => None
    end.

Definition parse_age (age_str : list ascii) : result (option Z) :=
  if negb (truthy age_str) then Ok None
  else
    let age_str := Text.lower (Text.strip age_str) in
    match age_match age_str with
    | None => Ok None
    | Some (digits, unit) =>
        if bool_decide (max_str_digits < length digits)
        then Raise OtherException
        else
          let value := Text.int_of_digits digits in
          if bool_decide (unit = "d"%char) then
            result_map Some (timedelta_days value)
          else if bool_decide (unit = "w"%char) then
            result_map Some (timedelta_days (value * 7))
          else if bool_decide (unit = "m"%char) then
            result_map Some (timedelta_days (value * 30))
          else if bool_decide (unit = "y"%char) then
            result_map Some (timedelta_days (value * 365))
          else Ok None
    end.

(** The days one unit stands for. *)
Definition days_per (unit : ascii) : Z :=
  if bool_decide (unit = "d"%char) then 1
  else if bool_decide (unit = "w"%char) then 7
  else if bool_decide (unit = "m"%char) then 30
  else if bool_decide (unit = "y"%char) then 365
  else 0.

End Age.

(** ** Facts about the text operations *)

Section TextFacts.
Import Text.

Lemma digit_is_no_space c : isdigit c = true → isspace c = false.
Proof. by destruct c as [[] [] [] [] [] [] [] []]. Qed.

Lemma lower_char_isdigit c : isdigit (lower_char c) = isdigit c.
Proof. by destruct c as [[] [] [] [] [] [] [] []]. Qed.

Lemma lower_char_isspace c : isspace (lower_char c) = isspace c.
Proof. by destruct c as [[] [] [] [] [] [] [] []]. Qed.

Lemma lower_char_digit c : isdigit c = true → lower_char c = c.
Proof. by destruct c as [[] [] [] [] [] [] [] []]. Qed.

Lemma lower_char_space c : isspace c = true → lower_char c = c.
Proof. by destruct c as [[] [] [] [] [] [] [] []]. Qed.

Lemma unit_is_no_space c : Age.is_unit c = true → isspace c = false.
Proof. by destruct c as [[] [] [] [] [] [] [] []]. Qed.

Lemma unit_is_no_digit c : Age.is_unit c = true → isdigit c = false.
Proof. by destruct c as [[] [] [] [] [] [] [] []]. Qed.

Lemma lower_fixes (p : ascii → bool) (s : list ascii) :
  (∀ c, p c = true → lower_char c = c) →
  Forall (λ c, p c = true) s → lower s = s.
Proof.
  intros Hp Hs. unfold lower. induction Hs as [|c s Hc _ IH]; [done|].
  cbn. by rewrite (Hp c Hc), IH.
Qed.

Lemma lstrip_by_drops (p : ascii → bool) (lead s : list ascii) :
  Forall (λ c, p c = true) lead → lstrip_by p (lead ++ s) = lstrip_by p s.
Proof. induction 1 as [|c lead Hc _ IH]; [done|]. cbn. by rewrite Hc. Qed.

Lemma lstrip_by_keeps (p : ascii → bool) (c : ascii) (s : list ascii) :
  p c = false → lstrip_by p (c :: s) = c :: s.
Proof. intros Hc. cbn. by rewrite Hc. Qed.

Lemma lstrip_by_split (p : ascii → bool) (s : list ascii) :
  ∃ lead, s = lead ++ lstrip_by p s ∧ Forall (λ c, p c = true) lead ∧
          ∀ c rest, lstrip_by p s = c :: rest → p c = false.
Proof.
  induction s as [|c s (lead & Hs & Hlead & Hhead)].
  - exists []. split; [done|]. split; [apply Forall_nil_2|done].
  - cbn. destruct (p c) eqn:Hc.
    + exists (c :: lead). cbn. split; [by rewrite <- Hs|].
      split; [by apply Forall_cons|done].
    + exists []. split; [done|]. split; [apply Forall_nil_2|].
      by intros ? ? [= <- _].
Qed.

Lemma rstrip_by_drops (p : ascii → bool) (s trail : list ascii) :
  Forall (λ c, p c = true) trail → rstrip_by p (s ++ trail) = rstrip_by p s.
Proof.
  intros Htrail. unfold rstrip_by.
  rewrite reverse_app, lstrip_by_drops; [done|]. by apply Forall_reverse.
Qed.

Lemma rstrip_by_keeps (p : ascii → bool) (s : list ascii) (c : ascii) :
  p c = false → rstrip_by p (s ++ [c]) = s ++ [c].
Proof.
  intros Hc. unfold rstrip_by. rewrite reverse_app, reverse_singleton.
  cbn [app]. rewrite lstrip_by_keeps by done.
  by rewrite reverse_cons, reverse_involutive.
Qed.

Lemma rstrip_by_split (p : ascii → bool) (s : list ascii) :
  ∃ trail, s = rstrip_by p s ++ trail ∧ Forall (λ c, p c = true) trail ∧
           ∀ init c, rstrip_by p s = init ++ [c] → p c = false.
Proof.
  destruct (lstrip_by_split p (reverse s)) as (lead & Hs & Hlead & Hhead).
  exists (reverse lead). unfold rstrip_by. split; [|split].
  - by rewrite <- reverse_app, <- Hs, reverse_involutive.
  - by apply Forall_reverse.
  - intros init c Hr. apply (Hhead c (reverse init)).
    by rewrite <- (reverse_involutive (lstrip_by p (reverse s))), Hr,
         reverse_app.
Qed.

(** Stripping takes the characters off both ends and nothing else. *)
Lemma strip_by_split (p : ascii → bool) (s : list ascii) :
  ∃ lead trail,
    s = lead ++ strip_by p s ++ trail ∧
    Forall (λ c, p c = true) lead ∧
    Forall (λ c, p c = true) trail ∧
    ∀ init c, strip_by p s = init ++ [c] → p c = false.
Proof.
  destruct (lstrip_by_split p s) as (lead & Hs & Hlead & _).
  destruct (rstrip_by_split p (lstrip_by p s))
    as (trail & Hr & Htrail & Hlast).
  exists lead, trail. unfold strip_by. by rewrite <- Hr.
Qed.

Lemma strip_by_sandwich (p : ascii → bool) (lead trail body : list ascii)
    (first last : ascii) :
  Forall (λ c, p c = true) lead →
  Forall (λ c, p c = true) trail →
  p first = false → p last = false →
  strip_by p (lead ++ (first :: body ++ [last]) ++ trail) =
  first :: body ++ [last].
Proof.
  intros Hlead Htrail Hfirst Hlast. unfold strip_by.
  rewrite lstrip_by_drops by done. cbn [app].
  rewrite lstrip_by_keeps by done.
  rewrite app_comm_cons, rstrip_by_drops by done.
  by rewrite app_comm_cons, rstrip_by_keeps.
Qed.

Lemma strip_split (s : list ascii) :
  ∃ lead trail,
    s = lead ++ strip s ++ trail ∧
    Forall (λ c, isspace c = true) lead ∧
    Forall (λ c, isspace c = true) trail ∧
    ∀ init c, strip s = init ++ [c] → isspace c = false.
Proof. apply strip_by_split. Qed.

Lemma strip_sandwich (lead trail body : list ascii) (first last : ascii) :
  Forall (λ c, isspace c = true) lead →
  Forall (λ c, isspace c = true) trail →
  isspace first = false → isspace last = false →
  strip (lead ++ (first :: body ++ [last]) ++ trail) =
  first :: body ++ [last].
Proof. apply strip_by_sandwich. Qed.

Lemma span_spec (p : ascii → bool) (s taken others : list ascii) :
  span p s = (taken, others) →
  s = taken ++ others ∧ Forall (λ c, p c = true) taken ∧
  ∀ c rest, others = c :: rest → p c = false.
Proof.
  revert taken others. induction s as [|c s IH]; intros taken others; cbn.
  - intros [= <- <-]. split; [done|]. split; [apply Forall_nil_2|done].
  - destruct (p c) eqn:Hc.
    + destruct (span p s) as [taken' others'].
      intros [= <- <-]. destruct (IH _ _ eq_refl) as (-> & Ht & Hr).
      split; [done|]. split; [by apply Forall_cons|done].
    + intros [= <- <-]. split; [done|]. split; [apply Forall_nil_2|].
      by intros ? ? [= <- _].
Qed.

Lemma span_app (p : ascii → bool) (taken others : list ascii) :
  Forall (λ c, p c = true) taken →
  (∀ c rest, others = c :: rest → p c = false) →
  span p (taken ++ others) = (taken, others).
Proof.
  intros Ht Ho. induction Ht as [|c taken Hc _ IH]; cbn.
  - destruct others as [|c rest]; [done|]. cbn.
    by rewrite (Ho c rest eq_refl).
  - by rewrite Hc, IH.
Qed.

Lemma int_of_digits_nonneg (digits : list ascii) :
  Forall (λ c, isdigit c = true) digits → (0 ≤ int_of_digits digits)%Z.
Proof.
  unfold int_of_digits.
  enough (∀ n, (0 ≤ n)%Z →
    Forall (λ c, isdigit c = true) digits →
    (0 ≤ foldl (λ n c, 10 * n + (Z.of_N (code c) - 48)) n digits)%Z) as Hgen
    by (by apply Hgen).
  induction digits as [|c digits IH]; intros n Hn Hd; [done|].
  apply Forall_cons in Hd as [Hc Hd]. cbn. apply IH; [|done].
  unfold isdigit in Hc. apply andb_true_iff in Hc as [Hlo _].
  apply N.leb_le in Hlo. lia.
Qed.
End TextFacts.

(** ** What [parse_age] reads *)

Section AgeFacts.
Import Text Age.

Lemma is_unit_cases (unit : ascii) :
  is_unit unit = true →
  unit = "d"%char ∨ unit = "w"%char ∨ unit = "m"%char ∨ unit = "y"%char.
Proof.
  unfold is_unit. intros Hu%bool_decide_eq_true.
  rewrite !elem_of_cons, elem_of_nil in Hu. tauto.
Qed.

Lemma age_match_well_formed (digits gap : list ascii) (unit : ascii) :
  digits ≠ [] →
  Forall (λ c, isdigit c = true) digits →
  Forall (λ c, isspace c = true) gap →
  is_unit unit = true →
  age_match (digits ++ gap ++ [unit]) = Some (digits, unit).
Proof.
  intros Hne Hd Hg Hu. unfold age_match.
  rewrite (span_app isdigit digits (gap ++ [unit])); [|done|].
  - destruct digits; [done|]. cbn [truthy list_truthy negb].
    rewrite (span_app isspace gap [unit]); [by rewrite Hu|done|].
    intros c rest [= <- _]. by apply unit_is_no_space.
  - intros c rest Hc. destruct gap as [|g gap].
    + injection Hc as <- _. by apply unit_is_no_digit.
    + injection Hc as <- _. apply Forall_cons in Hg as [Hg _].
      destruct (isdigit g) eqn:Hgd; [|done].
      apply digit_is_no_space in Hgd. congruence.
Qed.

Lemma age_match_inv (s digits : list ascii) (unit : ascii) :
  age_match s = Some (digits, unit) →
  ∃ gap tail,
    s = digits ++ gap ++ [unit] ++ tail ∧
    (tail = [] ∨ tail = ["010"%char]) ∧
    digits ≠ [] ∧
    Forall (λ c, isdigit c = true) digits ∧
    Forall (λ c, isspace c = true) gap ∧
    is_unit unit = true.
Proof.
  unfold age_match.
  destruct (span isdigit s) as [ds rest] eqn:Hds.
  apply span_spec in Hds as (-> & Hd & _).
  destruct ds as [|d ds]; [done|]. cbn [truthy list_truthy negb].
  destruct (span isspace rest) as [gap rest'] eqn:Hgap.
  apply span_spec in Hgap as (-> & Hg & _).
  destruct rest' as [|u [|nl [|]]]; [done| | |done].
  - destruct (is_unit u) eqn:Hu; [|done]. intros [= <- <-].
    exists gap, []. auto 10.
  - destruct (is_unit u) eqn:Hu; [|done]. cbn [andb].
    case_bool_decide as Hnl; [|done]. subst nl. intros [= <- <-].
    exists gap, ["010"%char]. auto 10.
Qed.

Lemma parse_unit (value : Z) (unit : ascii) :
  is_unit unit = true →
  (if bool_decide (unit = "d"%char) then
     result_map Some (timedelta_days value)
   else if bool_decide (unit = "w"%char) then
     result_map Some (timedelta_days (value * 7))
   else if bool_decide (unit = "m"%char) then
     result_map Some (timedelta_days (value * 30))
   else if bool_decide (unit = "y"%char) then
     result_map Some (timedelta_days (value * 365))
   else Ok None)
  = result_map Some (timedelta_days (value * days_per unit)).
Proof.
  intros [-> | [-> | [-> | ->]]]%is_unit_cases; cbn; [|done..].
  by rewrite Z.mul_1_r.
Qed.

(** X14: [parse_age] reads a number, optional spaces and one of the letters
    d, w, m, y in either case, with any spaces around the whole, as that many
    days, weeks (7 days), months (30 days) or years (365 days); it raises
    when that is more than a [timedelta] holds. *)
Theorem parse_age_reads_a_well_formed_age (lead digits gap trail : list ascii)
    (unit : ascii) :
  Forall (λ c, isspace c = true) lead →
  Forall (λ c, isspace c = true) gap →
  Forall (λ c, isspace c = true) trail →
  digits ≠ [] → Forall (λ c, isdigit c = true) digits →
  length digits ≤ max_str_digits →
  is_unit (lower_char unit) = true →
  parse_age (lead ++ (digits ++ gap ++ [unit]) ++ trail) =
  let days := (int_of_digits digits * days_per (lower_char unit))%Z in
  if (max_days <? days)%Z then Raise OtherException
  else Ok (Some (days * microseconds_per_day)%Z).
Proof.
  intros Hlead Hgap Htrail Hne Hd Hlen Hu. unfold parse_age.
  assert (truthy (lead ++ (digits ++ gap ++ [unit]) ++ trail) = true) as ->.
  { destruct lead; [|done]. by destruct digits. }
  cbn [negb].
  assert (strip (lead ++ (digits ++ gap ++ [unit]) ++ trail) =
          digits ++ gap ++ [unit]) as ->.
  { destruct digits as [|d ds]; [done|].
    apply Forall_cons in Hd as [Hd0 _].
    change ((d :: ds) ++ gap ++ [unit]) with (d :: ds ++ gap ++ [unit]).
    rewrite (app_assoc ds gap [unit]).
    apply strip_sandwich; [done..|by apply digit_is_no_space|].
    rewrite <- lower_char_isspace. by apply unit_is_no_space. }
  unfold lower. rewrite !fmap_app. fold (lower digits). fold (lower gap).
  rewrite (lower_fixes isdigit digits lower_char_digit Hd).
  rewrite (lower_fixes isspace gap lower_char_space Hgap).
  cbn [fmap list_fmap].
  rewrite age_match_well_formed by done.
  rewrite bool_decide_eq_false_2 by lia.
  rewrite parse_unit by done. cbn zeta. unfold timedelta_days.
  by destruct (max_days <? _)%Z.
Qed.

(** The shape of what [parse_age] accepts. *)
Lemma parse_age_shape (age_str : list ascii) (td : Z) :
  parse_age age_str = Ok (Some td) →
  ∃ lead digits gap unit trail,
    age_str = lead ++ (digits ++ gap ++ [unit]) ++ trail ∧
    Forall (λ c, isspace c = true) lead ∧
    Forall (λ c, isspace c = true) gap ∧
    Forall (λ c, isspace c = true) trail ∧
    digits ≠ [] ∧ Forall (λ c, isdigit c = true) digits ∧
    is_unit (lower_char unit) = true ∧
    td = (int_of_digits digits * days_per (lower_char unit)
          * microseconds_per_day)%Z ∧
    (0 ≤ td ≤ max_days * microseconds_per_day)%Z.
Proof.
  unfold parse_age.
  destruct (negb (truthy age_str)); [done|].
  destruct (age_match (lower (strip age_str))) as [[ds u]|] eqn:Hm; [|done].
  apply age_match_inv in Hm as (gap & tail & Hs & Htail & Hne & Hd & Hg & Hu).
  case_bool_decide as Hlen; [done|].
  rewrite parse_unit by done. unfold timedelta_days.
  destruct (max_days <? _)%Z eqn:Hmax; [done|]. cbn. intros [= <-].
  apply Z.ltb_ge in Hmax.
  destruct (strip_split age_str) as (lead & trail & Hsplit & Hlead & Htrail & Hlast).
  unfold lower in Hs.
  apply fmap_app_inv in Hs as (ds0 & rest0 & -> & Hrest & Hstrip).
  symmetry in Hrest.
  apply fmap_app_inv in Hrest as (gap0 & rest1 & -> & Hrest & ->).
  symmetry in Hrest.
  apply fmap_app_inv in Hrest as (u0 & tail0 & Hu0 & Htail0 & ->).
  destruct u0 as [|u0 [|]]; [done| |done]. injection Hu0 as ->.
  assert (tail0 = []) as ->.
  { destruct Htail as [-> | ->]; [by destruct tail0|].
    destruct tail0 as [|nl [|]]; [done| |done]. injection Htail0 as Hnl.
    exfalso.
    assert (isspace nl = false) as Hnl'.
    { apply (Hlast (ds0 ++ gap0 ++ [u0]) nl).
      by rewrite Hstrip, <- !app_assoc. }
    rewrite <- lower_char_isspace, <- Hnl in Hnl'. done. }
  rewrite app_nil_r in Hstrip.
  assert (Forall (λ c, isdigit c = true) ds0) as Hd0.
  { apply Forall_fmap in Hd. eapply Forall_impl; [exact Hd|].
    intros c. cbn. by rewrite lower_char_isdigit. }
  assert (Forall (λ c, isspace c = true) gap0) as Hg0.
  { apply Forall_fmap in Hg. eapply Forall_impl; [exact Hg|].
    intros c. cbn. by rewrite lower_char_isspace. }
  fold (lower ds0) in *.
  rewrite (lower_fixes isdigit ds0 lower_char_digit Hd0) in *.
  exists lead, ds0, gap0, u0, trail. rewrite <- Hstrip.
  split; [done|]. do 3 (split; [done|]).
  split; [done|]. split; [done|]. split; [done|]. split; [done|].
  pose proof (int_of_digits_nonneg ds0 Hd0) as Hnn.
  assert (0 ≤ days_per (lower_char u0))%Z
    by (by destruct (is_unit_cases _ Hu) as [-> | [-> | [-> | ->]]]).
  unfold microseconds_per_day. nia.
Qed.

(** X15: nothing else is an age.  When [parse_age] returns a [timedelta] for
    an ASCII string, the string is a number, optional spaces and one of the
    letters d, w, m, y in either case, with spaces at most around it, and the
    [timedelta] is that many days, weeks, months or years: never negative and
    never a fraction of a day. *)
Theorem parse_age_accepts_nothing_else (age_str : list ascii) (td : Z) :
  Forall (λ c, is_ascii c = true) age_str →
  parse_age age_str = Ok (Some td) →
  ∃ lead digits gap unit trail,
    age_str = lead ++ (digits ++ gap ++ [unit]) ++ trail ∧
    Forall (λ c, isspace c = true) lead ∧
    Forall (λ c, isspace c = true) gap ∧
    Forall (λ c, isspace c = true) trail ∧
    digits ≠ [] ∧ Forall (λ c, isdigit c = true) digits ∧
    is_unit (lower_char unit) = true ∧
    td = (int_of_digits digits * days_per (lower_char unit)
          * microseconds_per_day)%Z ∧
    (0 ≤ td ≤ max_days * microseconds_per_day)%Z.
Proof. intros _. apply parse_age_shape. Qed.
End AgeFacts.

Lemma parse_age_reads_a_well_formed_age_witness :
  Age.parse_age [" "; "4"; "2"; " "; "W"; " "]%char =
  Ok (Some (42 * 7 * Age.microseconds_per_day)%Z).
Proof.
  apply (parse_age_reads_a_well_formed_age
           [" "%char] ["4"; "2"]%char [" "%char] [" "%char] "W"%char).
  - by repeat constructor.
  - by repeat constructor.
  - by repeat constructor.
  - done.
  - by repeat constructor.
  - unfold Age.max_str_digits. cbn. lia.
  - done.
Defined.

Lemma parse_age_accepts_nothing_else_witness :
  ∃ lead digits gap unit trail,
    ["3"; "m"]%char = lead ++ (digits ++ gap ++ [unit]) ++ trail ∧
    Forall (λ c, Text.isspace c = true) lead ∧
    Forall (λ c, Text.isspace c = true) gap ∧
    Forall (λ c, Text.isspace c = true) trail ∧
    digits ≠ [] ∧ Forall (λ c, Text.isdigit c = true) digits ∧
    Age.is_unit (Text.lower_char unit) = true ∧
    (7776000000000 =
       Text.int_of_digits digits * Age.days_per (Text.lower_char unit)
       * Age.microseconds_per_day)%Z ∧
    (0 ≤ 7776000000000 ≤ Age.max_days * Age.microseconds_per_day)%Z.
Proof.
  apply (parse_age_accepts_nothing_else ["3"; "m"]%char 7776000000000).
  - by repeat constructor.
  - reflexivity.
Defined.

(** ** [main], from its first line

    [main] reads its settings from the environment and, when ABS_URL or
    ABS_TOKEN is missing there, from [~/.config/abs-cleanup.env] first; the
    three versions open with the same lines.  VERIFY_SSL and DEBUG change the
    transport and the log only and are left out. *)

Module Settings.

Definition chars (s : string) : list ascii := String.list_ascii_of_string s.

(** [os.environ]: the variables that are set. *)
Definition Environ : Type := gmap (list ascii) (list ascii).

(** [os.environ.get(name)] and [os.environ.get(name, fallback)]. *)
Definition get (environ : Environ) (name : string) : option (list ascii) :=
  environ !! chars name.

Definition get_or (environ : Environ) (name fallback : string) : list ascii :=
  default (chars fallback) (environ !! chars name).

(** What stands before the first [sep] of [s] and what follows it. *)
Fixpoint partition (sep : ascii) (s : list ascii)
  : option (list ascii * list ascii) :=
  match s with
  | [] => None
  | c :: rest =>
      if bool_decide (c = sep) then Some ([], rest)
      else
        match partition sep rest with
        | Some (before, after) => Some (c :: before, after)
        | None => None
        end
  end.

(** [s.split(sep, 1)]. *)
Definition split_once (sep : ascii) (s : list ascii) : list (list ascii) :=
  match partition sep s with
  | Some (before, after) => [before; after]
  | None => [s]
  end.

(** [os.environ.setdefault(key, value)]: a variable that is set stays as it
    is; setting one raises [ValueError] for an empty name, a name with [=]
    and a NUL character in the name or in the value. *)
Definition setdefault (key value : list ascii) (environ : Environ)
  : result Environ :=
  match environ !! key with
  | Some _ => Ok environ
  | None =>
      if bool_decide (key = []) || bool_decide ("="%char ∈ key)
         || bool_decide ("000"%char ∈ key)
         || bool_decide ("000"%char ∈ value)
      then Raise OtherException
      else Ok (<[key := value]> environ)
  end.

(** The characters the second [strip] of a value removes: the double and
    the single quotation mark. *)
Definition quotes : list ascii := ["034"; "'"]%char.

(** The body of the loop over the lines of the configuration file. *)
Definition load_line (environ : Environ) (line : list ascii)
  : result Environ :=
  let line := Text.strip line in
  if truthy line && negb (bool_decide (chars "#" `prefix_of` line))
     && bool_decide ("="%char ∈ line)
  then
    match split_once "=" line with
    | [key; value] =>
        setdefault (Text.strip key)
          (Text.strip_chars quotes (Text.strip value)) environ
    | _ => Raise OtherException
    end
  else Ok environ.

(** The configuration file as a run finds it: absent, present but not
    readable as text ([open] or the iteration raises), or its lines. *)
Inductive ConfigFile :=
  | Absent
  | Unreadable
  | Lines (lines : list (list ascii)).

Definition load_config (file : ConfigFile) (environ : Environ)
  : result Environ :=
  match file with
  | Absent => Ok environ
  | Unreadable => Raise OtherException
  | Lines lines => for_each load_line environ lines
  end.

(** [not base_url or not token]. *)
Definition incomplete (environ : Environ) : bool :=
  negb (truthy (get environ "ABS_URL"))
  || negb (truthy (get environ "ABS_TOKEN")).

(** [value.lower() in ('1', 'true', 'yes')]. *)
Definition is_yes (value : list ascii) : bool :=
  bool_decide (Text.lower value ∈ [chars "1"; chars "true"; chars "yes"]).

Section Main.
Context {Srv : Type} `{ABSServer Srv}.

(** [main] of v4. *)
Definition main (environ : Environ) (file : ConfigFile) (clock : V4.Clock)
    (w : World Srv) : World Srv * V4.Outcome :=
  match (if incomplete environ then load_config file environ
         else Ok environ) with
  | Raise e => (w, V4.Uncaught e)
  | Ok environ =>
      if incomplete environ then (w, V4.Exit 1)
      else
        let dry_run := is_yes (get_or environ "DRY_RUN" "") in
        let media_type :=
          String.string_of_list_ascii
            (Text.upper (get_or environ "MEDIA_TYPE" "EVERYTHING")) in
        if bool_decide
             (media_type ∉ ["PODCASTS"; "AUDIOBOOKS"; "EVERYTHING"])
        then (w, V4.Exit 1)
        else
          let age_str := Text.strip (get_or environ "AGE" "") in
          if truthy age_str then
            match Age.parse_age age_str with
            | Raise e => (w, V4.Uncaught e)
            | Ok None => (w, V4.Exit 1)
            | Ok (Some min_age) =>
                V4.main {| V4.dry_run := dry_run;
                           V4.media_type := media_type;
                           V4.min_age := Some min_age |} clock w
            end
          else
            V4.main {| V4.dry_run := dry_run;
                       V4.media_type := media_type;
                       V4.min_age := None |} clock w
  end.

(** [main] of v3. *)
Definition main_v3 (environ : Environ) (file : ConfigFile) (w : World Srv)
  : World Srv * V3.Outcome :=
  match (if incomplete environ then load_config file environ
         else Ok environ) with
  | Raise e => (w, V3.Uncaught e)
  | Ok environ =>
      if incomplete environ then (w, V3.Exit 1)
      else
        let dry_run := is_yes (get_or environ "DRY_RUN" "") in
        let media_type :=
          String.string_of_list_ascii
            (Text.upper (get_or environ "MEDIA_TYPE" "EVERYTHING")) in
        V3.main {| V3.dry_run := dry_run; V3.media_type := media_type |} w
  end.

(** [main] of v2. *)
Definition main_v2 (environ : Environ) (file : ConfigFile) (w : World Srv)
  : World Srv * V2.Outcome :=
  match (if incomplete environ then load_config file environ
         else Ok environ) with
  | Raise e => (w, V2.Uncaught e)
  | Ok environ =>
      if incomplete environ then (w, V2.Exit 1)
      else
        let dry_run := is_yes (get_or environ "DRY_RUN" "") in
        V2.main dry_run w
  end.
End Main.

End Settings.

(** ** Facts about stripping *)

Section StripFacts.
Import Text.

(** No character at either end of [s] satisfies [p]. *)
Definition bare (p : ascii → bool) (s : list ascii) : Prop :=
  (∀ c, head s = Some c → p c = false) ∧
  (∀ c, last s = Some c → p c = false).

Lemma lstrip_by_all (p : ascii → bool) (s : list ascii) :
  Forall (λ c, p c = true) s → lstrip_by p s = [].
Proof.
  intros Hs. pose proof (lstrip_by_drops p s [] Hs) as Hd.
  by rewrite app_nil_r in Hd.
Qed.

Lemma strip_by_pad (p : ascii → bool) (lead s trail : list ascii) :
  Forall (λ c, p c = true) lead →
  Forall (λ c, p c = true) trail →
  strip_by p (lead ++ s ++ trail) = strip_by p s.
Proof.
  intros Hlead Htrail. unfold strip_by. rewrite lstrip_by_drops by done.
  destruct (lstrip_by_split p s) as (l0 & Hs & Hl0 & Hhead).
  revert Hs Hhead. destruct (lstrip_by p s) as [|c rest]; intros Hs Hhead.
  - rewrite app_nil_r in Hs. subst l0.
    rewrite lstrip_by_all; [done|]. by apply Forall_app.
  - rewrite Hs, <- app_assoc, lstrip_by_drops by done.
    cbn [app]. rewrite lstrip_by_keeps by eauto.
    by rewrite app_comm_cons, rstrip_by_drops.
Qed.

Lemma lstrip_by_bare (p : ascii → bool) (s : list ascii) :
  (∀ c, head s = Some c → p c = false) → lstrip_by p s = s.
Proof. destruct s as [|c s]; [done|]. intros Hc. cbn. by rewrite Hc. Qed.

Lemma rstrip_by_bare (p : ascii → bool) (s : list ascii) :
  (∀ c, last s = Some c → p c = false) → rstrip_by p s = s.
Proof.
  intros Hc. unfold rstrip_by.
  rewrite lstrip_by_bare; [apply reverse_involutive|].
  intros c. rewrite head_reverse. apply Hc.
Qed.

Lemma strip_by_bare (p : ascii → bool) (s : list ascii) :
  bare p s → strip_by p s = s.
Proof.
  intros [Hhead Hlast]. unfold strip_by.
  rewrite lstrip_by_bare by done. by apply rstrip_by_bare.
Qed.

(** What stands before a character that stays is out of reach of
    [rstrip]. *)
Lemma rstrip_by_after (p : ascii → bool) (a b : list ascii) (c : ascii) :
  p c = false → rstrip_by p (a ++ c :: b) = a ++ c :: rstrip_by p b.
Proof.
  intros Hc.
  destruct (rstrip_by_split p b) as (trail & Hb & Htrail & Hlast).
  revert Hb Hlast. generalize (rstrip_by p b). intros rb Hb Hlast.
  subst b. rewrite app_comm_cons, app_assoc, rstrip_by_drops by done.
  apply rstrip_by_bare. intros x. rewrite last_app_cons, last_cons.
  destruct (last rb) as [y|] eqn:Hy.
  - intros [= <-]. apply last_Some in Hy as [init ->]. by eapply Hlast.
  - by intros [= <-].
Qed.

Lemma strip_by_rstrip (p : ascii → bool) (s : list ascii) :
  strip_by p (rstrip_by p s) = strip_by p s.
Proof.
  destruct (rstrip_by_split p s) as (trail & Hs & Htrail & _).
  pose proof (strip_by_pad p [] (rstrip_by p s) trail
                (Forall_nil_2 _) Htrail) as Hpad.
  cbn [app] in Hpad. by rewrite <- Hs in Hpad.
Qed.

Lemma bare_between (p : ascii → bool) (a s b : list ascii) :
  Forall (λ c, p c = false) a → Forall (λ c, p c = false) b →
  bare p s → bare p (a ++ s ++ b).
Proof.
  intros Ha Hb [Hhead Hlast]. split; intros c.
  - destruct a as [|x a]; cbn.
    + destruct s as [|y s]; cbn.
      * intros Hc%head_Some_elem_of. by eapply Forall_forall in Hb.
      * intros [= <-]. by apply Hhead.
    + intros [= <-]. by apply Forall_cons in Ha as [? _].
  - rewrite !last_app. destruct (last b) as [y|] eqn:Hy.
    + intros [= <-]. apply last_Some_elem_of in Hy.
      by eapply Forall_forall in Hb.
    + destruct (last s) as [z|] eqn:Hz.
      * intros [= <-]. by apply Hlast.
      * intros Hc%last_Some_elem_of. by eapply Forall_forall in Ha.
Qed.
End StripFacts.

(** ** The configuration file *)

Section ConfigFacts.
Import Text Settings.

Lemma partition_first (sep : ascii) (before after : list ascii) :
  sep ∉ before → partition sep (before ++ sep :: after) = Some (before, after).
Proof.
  induction before as [|c before IH]; intros Hsep; cbn.
  - by rewrite bool_decide_eq_true_2.
  - apply not_elem_of_cons in Hsep as [Hc Hsep].
    rewrite bool_decide_eq_false_2 by done. by rewrite IH.
Qed.

Lemma quote_is_no_space (c : ascii) : c ∈ quotes → isspace c = false.
Proof.
  unfold quotes. rewrite !elem_of_cons, elem_of_nil.
  by intros [-> | [-> | []]].
Qed.

Lemma space_is_no_equals_sign (s : list ascii) :
  Forall (λ c, isspace c = true) s → "="%char ∉ s.
Proof.
  intros Hs Hin. eapply Forall_forall in Hs; [|exact Hin]. done.
Qed.

Lemma setdefault_keeps (key value : list ascii) (environ environ' : Environ) :
  setdefault key value environ = Ok environ' → environ ⊆ environ'.
Proof.
  unfold setdefault. destruct (environ !! key) eqn:Hkey.
  - by intros [= <-].
  - destruct (_ || _); [done|]. intros [= <-]. by apply insert_subseteq.
Qed.

Lemma load_line_keeps (environ environ' : Environ) (line : list ascii) :
  load_line environ line = Ok environ' → environ ⊆ environ'.
Proof.
  unfold load_line. destruct (_ && _).
  - destruct (split_once _ _) as [|key [|value [|]]]; [done..| |done].
    apply setdefault_keeps.
  - by intros [= <-].
Qed.

Lemma load_config_keeps (file : ConfigFile) (environ environ' : Environ) :
  load_config file environ = Ok environ' → environ ⊆ environ'.
Proof.
  destruct file as [| |lines]; cbn; [by intros [= <-]|done|].
  apply (for_each_invariant (λ e, environ ⊆ e)); [done|].
  intros e line e' _ He Hline. etrans; [exact He|].
  by eapply load_line_keeps.
Qed.

(** A line that starts, after spaces, with a name and [=]. *)
Lemma load_line_assignment (environ : Environ)
    (lead key pad rest : list ascii) :
  Forall (λ c, isspace c = true) lead →
  Forall (λ c, isspace c = true) pad →
  key ≠ [] → bare isspace key → head key ≠ Some "#"%char →
  "="%char ∉ key →
  load_line environ (lead ++ key ++ pad ++ "="%char :: rest) =
  setdefault key (strip_chars quotes (strip rest)) environ.
Proof.
  intros Hlead Hpad Hne Hbare Hhash Heq. unfold load_line.
  assert (strip (lead ++ key ++ pad ++ "="%char :: rest) =
          (key ++ pad) ++ "="%char :: rstrip_by isspace rest) as ->.
  { unfold strip, strip_by. rewrite lstrip_by_drops by done.
    rewrite lstrip_by_bare.
    - by rewrite app_assoc, rstrip_by_after.
    - intros c. destruct key as [|k key]; [done|]. cbn.
      intros [= <-]. by apply (proj1 Hbare). }
  assert (truthy ((key ++ pad) ++ "="%char :: rstrip_by isspace rest)
          = true) as ->.
  { by destruct key. }
  rewrite (bool_decide_eq_false_2 (chars "#" `prefix_of` _)).
  2:{ intros [tail Htail]. destruct key as [|k key]; [done|].
      cbn in Htail. injection Htail as -> _. done. }
  rewrite bool_decide_eq_true_2.
  2:{ apply elem_of_app. right. apply list_elem_of_here. }
  cbn [andb negb]. unfold split_once. rewrite partition_first.
  2:{ apply not_elem_of_app. split; [done|].
      by apply space_is_no_equals_sign. }
  f_equal.
  - pose proof (strip_by_pad isspace [] key pad (Forall_nil_2 _) Hpad) as Hk.
    cbn [app] in Hk. unfold strip. rewrite Hk. by apply strip_by_bare.
  - unfold strip. by rewrite strip_by_rstrip.
Qed.

(** X16: the configuration file overrides nothing.  Whatever its lines are,
    a variable that is set when the file is loaded keeps its value. *)
Theorem the_config_file_overrides_nothing (file : ConfigFile)
    (environ environ' : Environ) (name value : list ascii) :
  load_config file environ = Ok environ' →
  environ !! name = Some value →
  environ' !! name = Some value.
Proof.
  intros Hload Hname. eapply lookup_weaken; [exact Hname|].
  by eapply load_config_keeps.
Qed.

(** X17: how a line of the configuration file is read.  A line made of a
    name, [=] and a value, with spaces allowed around each and any quotation
    marks around the value, sets the name to the value if the name is not
    set, and changes nothing if it is.  The name is not empty, does not start
    with [#] and holds no [=]; neither holds a NUL character or has a space
    at an end, and the value has no quotation mark at an end. *)
Theorem a_config_line_sets_an_unset_variable (environ : Environ)
    (key value lead pad1 pad2 open_q close_q trail : list ascii) :
  Forall (λ c, is_ascii c = true) (key ++ value) →
  Forall (λ c, isspace c = true) lead →
  Forall (λ c, isspace c = true) pad1 →
  Forall (λ c, isspace c = true) pad2 →
  Forall (λ c, isspace c = true) trail →
  Forall (λ c, c ∈ quotes) open_q →
  Forall (λ c, c ∈ quotes) close_q →
  key ≠ [] → bare isspace key → head key ≠ Some "#"%char →
  "="%char ∉ key → "000"%char ∉ key →
  bare isspace value → bare (λ c, bool_decide (c ∈ quotes)) value →
  "000"%char ∉ value →
  load_line environ
    (lead ++ key ++ pad1 ++ "="%char ::
     pad2 ++ (open_q ++ value ++ close_q) ++ trail) =
  Ok (match environ !! key with
      | Some _ => environ
      | None => <[key := value]> environ
      end).
Proof.
  intros _ Hlead Hpad1 Hpad2 Htrail Hopen Hclose Hne Hkey Hhash Heq Hnul
    Hvalue Hquoted Hnul'.
  rewrite load_line_assignment by done.
  assert (strip (pad2 ++ (open_q ++ value ++ close_q) ++ trail) =
          open_q ++ value ++ close_q) as ->.
  { unfold strip. rewrite strip_by_pad by done.
    apply strip_by_bare.
    apply bare_between; [| |done];
      (eapply Forall_impl; [eassumption|]); apply quote_is_no_space. }
  assert (strip_chars quotes (open_q ++ value ++ close_q) = value) as ->.
  { unfold strip_chars. rewrite strip_by_pad.
    - by apply strip_by_bare.
    - eapply Forall_impl; [exact Hopen|]. intros c Hc.
      by apply bool_decide_eq_true_2.
    - eapply Forall_impl; [exact Hclose|]. intros c Hc.
      by apply bool_decide_eq_true_2. }
  unfold setdefault. destruct (environ !! key); [done|].
  by rewrite !bool_decide_eq_false_2.
Qed.
End ConfigFacts.

Lemma the_config_file_overrides_nothing_witness :
  (<[Settings.chars "ABS_URL" := Settings.chars "http://abs"]>
     (<[Settings.chars "DRY_RUN" := Settings.chars "1"]> ∅) : Settings.Environ)
    !! Settings.chars "DRY_RUN" = Some (Settings.chars "1").
Proof.
  apply (the_config_file_overrides_nothing
           (Settings.Lines [Settings.chars "DRY_RUN=0";
                            Settings.chars "ABS_URL=http://abs"])
           (<[Settings.chars "DRY_RUN" := Settings.chars "1"]> ∅)).
  - vm_compute. reflexivity.
  - vm_compute. reflexivity.
Defined.

Lemma a_config_line_sets_an_unset_variable_witness :
  Settings.load_line ∅
    ([" "]%char ++ Settings.chars "AGE" ++ [" "]%char ++ "="%char ::
     [" "]%char ++ (["'"]%char ++ Settings.chars "3 m" ++ ["'"]%char)
     ++ ["010"]%char) =
  Ok (<[Settings.chars "AGE" := Settings.chars "3 m"]> ∅).
Proof.
  etrans.
  - apply (a_config_line_sets_an_unset_variable ∅
             (Settings.chars "AGE") (Settings.chars "3 m")
             [" "]%char [" "]%char [" "]%char ["'"]%char ["'"]%char
             ["010"]%char).
    + by repeat constructor.
    + by repeat constructor.
    + by repeat constructor.
    + by repeat constructor.
    + by repeat constructor.
    + repeat constructor.
    + repeat constructor.
    + done.
    + split; intros c [= <-]; reflexivity.
    + done.
    + apply (bool_decide_unpack _). vm_compute. exact I.
    + apply (bool_decide_unpack _). vm_compute. exact I.
    + split; intros c [= <-]; reflexivity.
    + split; intros c [= <-]; reflexivity.
    + apply (bool_decide_unpack _). vm_compute. exact I.
  - reflexivity.
Defined.

(** ** The settings of a run *)

Section SettingsFacts.
Context {Srv : Type} `{ABSServer Srv}.
Import Text Age Settings.

(** What the environment holds when [main] reads its settings. *)
Definition resolved (environ : Environ) (file : ConfigFile)
  : result Environ :=
  if incomplete environ then load_config file environ else Ok environ.

Lemma resolved_keeps (environ environ' : Environ) (file : ConfigFile)
    (name : string) (value : list ascii) :
  resolved environ file = Ok environ' →
  get environ name = Some value →
  get_or environ' name "" = value ∧
  ∀ fallback, get_or environ' name fallback = value.
Proof.
  unfold resolved, get, get_or. intros Hres Hname.
  assert (environ' !! chars name = Some value) as ->; [|done].
  destruct (incomplete environ).
  - eapply lookup_weaken; [exact Hname|]. by eapply load_config_keeps.
  - by injection Hres as <-.
Qed.

(** X18: a rehearsal asked for in the environment is a rehearsal.  When
    DRY_RUN is set in the environment to 1, true or yes, in any case of the
    letters, the run sends no DELETE request and leaves the server as it is,
    whatever the configuration file holds. *)
Theorem a_rehearsal_set_in_the_environment_sends_nothing
    (environ : Environ) (file : ConfigFile) (clock : V4.Clock)
    (w : World Srv)
    (value : list ascii) :
  get environ "DRY_RUN" = Some value →
  is_yes value = true →
  (main environ file clock w).1 = w.
Proof.
  intros Hget Hyes. unfold main. fold (resolved environ file).
  destruct (resolved environ file) as [environ'|e] eqn:Hres; [|done].
  destruct (resolved_keeps _ _ _ _ _ Hres Hget) as [Hdry _].
  destruct (incomplete environ'); [done|]. cbn zeta.
  rewrite Hdry, Hyes. case_bool_decide; [done|].
  destruct (truthy (strip _)).
  - destruct (parse_age _) as [[td|]|e]; [|done..].
    by apply v4_dry_world.
  - by apply v4_dry_world.
Qed.

(** X19: a run applies the age it is given.  With AGE set in the environment
    to an ASCII string, a run either stops before it connects, with exit
    status 1 or an exception, or it is the run of [V4.main] on a
    configuration whose minimum age is what AGE spells: none when AGE is
    blank, and otherwise the number AGE holds in days, weeks of 7 days,
    months of 30 days or years of 365 days. *)
Theorem a_run_applies_the_age_it_is_given
    (environ : Environ) (file : ConfigFile) (clock : V4.Clock)
    (w : World Srv)
    (age : list ascii) :
  get environ "AGE" = Some age →
  Forall (λ c, is_ascii c = true) age →
  (∃ out, main environ file clock w = (w, out) ∧
          ∀ summary, out ≠ V4.Completed summary) ∨
  (∃ cfg, main environ file clock w = V4.main cfg clock w ∧
     (Forall (λ c, isspace c = true) age ∧ V4.min_age cfg = None ∨
      ∃ lead digits gap unit trail,
        age = lead ++ (digits ++ gap ++ [unit]) ++ trail ∧
        Forall (λ c, isspace c = true) lead ∧
        Forall (λ c, isspace c = true) gap ∧
        Forall (λ c, isspace c = true) trail ∧
        digits ≠ [] ∧ Forall (λ c, isdigit c = true) digits ∧
        is_unit (lower_char unit) = true ∧
        V4.min_age cfg =
          Some (int_of_digits digits * days_per (lower_char unit)
                * microseconds_per_day)%Z)).
Proof.
  intros Hget _. unfold main. fold (resolved environ file).
  destruct (resolved environ file) as [environ'|e] eqn:Hres;
    [|left; by eexists].
  destruct (resolved_keeps _ _ _ _ _ Hres Hget) as [Hage _].
  destruct (incomplete environ'); [left; by eexists|]. cbn zeta.
  case_bool_decide; [left; by eexists|]. rewrite Hage.
  destruct (strip_split age) as (lead & trail & Hsplit & Hlead & Htrail & _).
  destruct (truthy (strip age)) eqn:Hblank.
  - destruct (parse_age (strip age)) as [[td|]|e] eqn:Hparse;
      [|left; by eexists..].
    right. eexists. split; [done|]. right.
    apply parse_age_shape in Hparse
      as (lead' & digits & gap & unit & trail' & Hs & Hlead' & Hgap & Htrail'
          & Hne & Hdigits & Hunit & -> & _).
    exists (lead ++ lead'), digits, gap, unit, (trail' ++ trail).
    split.
    { rewrite Hsplit at 1. rewrite Hs. by rewrite <- !app_assoc. }
    split; [by apply Forall_app|]. split; [done|].
    split; [by apply Forall_app|]. done.
  - right. eexists. split; [done|]. left. split; [|done].
    destruct (strip age); [|done]. rewrite Hsplit.
    by apply Forall_app.
Qed.
(** The settings [main] reads off the environment. *)
Definition media_type_of (environ : Environ) : string :=
  String.string_of_list_ascii
    (upper (get_or environ "MEDIA_TYPE" "EVERYTHING")).

Definition age_of (environ : Environ) : list ascii :=
  strip (get_or environ "AGE" "").

Definition config_of (environ : Environ) (min_age : option Z) : V4.Config :=
  {| V4.dry_run := is_yes (get_or environ "DRY_RUN" "");
     V4.media_type := media_type_of environ;
     V4.min_age := min_age |}.

Lemma settings_main_unfold (environ : Environ) (file : ConfigFile)
    (clock : V4.Clock) (w : World Srv) :
  main environ file clock w =
  match resolved environ file with
  | Raise e => (w, V4.Uncaught e)
  | Ok environ' =>
      if incomplete environ' then (w, V4.Exit 1)
      else if bool_decide (media_type_of environ'
                             ∉ ["PODCASTS"; "AUDIOBOOKS"; "EVERYTHING"])
      then (w, V4.Exit 1)
      else if truthy (age_of environ') then
        match parse_age (age_of environ') with
        | Raise e => (w, V4.Uncaught e)
        | Ok None => (w, V4.Exit 1)
        | Ok (Some min_age) =>
            V4.main (config_of environ' (Some min_age)) clock w
        end
      else V4.main (config_of environ' None) clock w
  end.
Proof. reflexivity. Qed.

(** The exception [e] ends the run of [V4.main] in the world [w']: raised
    while the progress data or the podcast phase are read, with nothing
    sent, or in the audiobook phase, after the episode requests. *)
Definition raised_in (cfg : V4.Config) (clock : V4.Clock) (w : World Srv)
    (e : exn) (w' : World Srv) : Prop :=
  (w' = w ∧
   (get_user_with_progress (server w) = Raise e ∨
    ∃ user_data,
      get_user_with_progress (server w) = Ok user_data ∧
      (get_finished_media user_data = Raise e ∨
       ∃ Fe Fa,
         get_finished_media user_data = Ok (Fe, Fa) ∧
         v4_episodes_found cfg clock Fe (server w) = Raise e))) ∨
  (∃ user_data Fe Fa,
     get_user_with_progress (server w) = Ok user_data ∧
     get_finished_media user_data = Ok (Fe, Fa) ∧
     w' = v4_after_podcasts cfg clock Fe w ∧
     v4_audiobooks_found cfg clock Fa (server w') = Raise e).

Lemma v4_main_stops (cfg : V4.Config) (clock : V4.Clock) (w : World Srv) :
  match (V4.main cfg clock w).2 with
  | V4.Exit code =>
      code = 1%Z ∧ (V4.main cfg clock w).1 = w ∧
      (V4.media_type cfg ∉ ["PODCASTS"; "AUDIOBOOKS"; "EVERYTHING"] ∨
       get_user_with_progress (server w) = Raise HTTPError)
  | V4.Uncaught e => raised_in cfg clock w e (V4.main cfg clock w).1
  | V4.Completed _ => True
  end.
Proof.
  rewrite v4_main_spec. unfold raised_in.
  case_bool_decide as Hvalid; [cbn; auto|].
  destruct (get_user_with_progress (server w)) as [user|[]] eqn:Hme;
    [|cbn; auto..].
  destruct (get_finished_media user) as [[Fe Fa]|e] eqn:Hfin;
    [|cbn; left; split; [done|]; right; eauto].
  destruct (v4_episodes_found cfg clock Fe (server w)) as [[sel1 k1]|e]
    eqn:H1; [|cbn; left; split; [done|]; right; eauto 10].
  cbn zeta.
  destruct (v4_audiobooks_found cfg clock Fa _) as [[sel2 k2]|e] eqn:H2;
    [done|].
  cbn. right. exists user, Fe, Fa. by rewrite H2.
Qed.


End SettingsFacts.

(** The environment of a rehearsal that looks at everything finished at
    least three months ago. *)
Definition rehearsal_environ : Settings.Environ :=
  <[Settings.chars "ABS_URL" := Settings.chars "http://abs:13378/"]>
  (<[Settings.chars "ABS_TOKEN" := Settings.chars "token"]>
  (<[Settings.chars "DRY_RUN" := Settings.chars "Yes"]>
  (<[Settings.chars "AGE" := Settings.chars " 3 M "]> ∅))).

Definition real_run_file : Settings.ConfigFile :=
  Settings.Lines [Settings.chars "DRY_RUN=0"; Settings.chars "AGE=1d"].

Lemma a_rehearsal_set_in_the_environment_sends_nothing_witness :
  (Settings.main rehearsal_environ real_run_file utc_2026 (fresh demo)).1
  = fresh demo.
Proof.
  apply (a_rehearsal_set_in_the_environment_sends_nothing
           rehearsal_environ real_run_file utc_2026 (fresh demo)
           (Settings.chars "Yes")).
  - vm_compute. reflexivity.
  - vm_compute. reflexivity.
Defined.

Lemma a_run_applies_the_age_it_is_given_witness :
  (∃ out,
     Settings.main rehearsal_environ real_run_file utc_2026 (fresh demo)
     = (fresh demo, out) ∧
     ∀ summary, out ≠ V4.Completed summary) ∨
  (∃ cfg,
     Settings.main rehearsal_environ real_run_file utc_2026 (fresh demo)
     = V4.main cfg utc_2026 (fresh demo) ∧
     (Forall (λ c, Text.isspace c = true) (Settings.chars " 3 M ") ∧
      V4.min_age cfg = None ∨
      ∃ lead digits gap unit trail,
        Settings.chars " 3 M " = lead ++ (digits ++ gap ++ [unit]) ++ trail ∧
        Forall (λ c, Text.isspace c = true) lead ∧
        Forall (λ c, Text.isspace c = true) gap ∧
        Forall (λ c, Text.isspace c = true) trail ∧
        digits ≠ [] ∧ Forall (λ c, Text.isdigit c = true) digits ∧
        Age.is_unit (Text.lower_char unit) = true ∧
        V4.min_age cfg =
          Some (Text.int_of_digits digits
                * Age.days_per (Text.lower_char unit)
                * Age.microseconds_per_day)%Z)).
Proof.
  apply (a_run_applies_the_age_it_is_given
           rehearsal_environ real_run_file utc_2026 (fresh demo)
           (Settings.chars " 3 M ")).
  - vm_compute. reflexivity.
  - by repeat constructor.
Defined.

(** * The addresses of the requests *)

(** The client keeps the base address without the slashes at its end and
    puts the path of an endpoint, with the ids as they are, behind it. *)

Module Url.

(** [self.base_url], as [__init__] sets it. *)
Definition client_base_url (base_url : list ascii) : list ascii :=
  Text.rstrip_chars ["/"]%char base_url.

(** The path of a DELETE endpoint. *)
Definition endpoint_path (endpoint : Endpoint) : list ascii :=
  match endpoint with
  | PodcastEpisode library_item_id episode_id =>
      Settings.chars "/api/podcasts/" ++ Settings.chars library_item_id
      ++ Settings.chars "/episode/" ++ Settings.chars episode_id
  | LibraryItem library_item_id =>
      Settings.chars "/api/items/" ++ Settings.chars library_item_id
  end.

(** [url], as [_delete] builds it. *)
Definition url (base_url : list ascii) (endpoint : Endpoint) : list ascii :=
  client_base_url base_url ++ endpoint_path endpoint.

End Url.

Section UrlFacts.
Import Text Settings Url.

Lemma chars_inj (s t : string) : chars s = chars t → s = t.
Proof.
  intros Heq.
  rewrite <- (String.string_of_list_ascii_of_string s),
          <- (String.string_of_list_ascii_of_string t).
  unfold chars in Heq. by rewrite Heq.
Qed.

Lemma split_at_first (sep : ascii) (a b a' b' : list ascii) :
  sep ∉ a → sep ∉ a' → a ++ sep :: b = a' ++ sep :: b' → a = a' ∧ b = b'.
Proof.
  intros Ha Ha' Heq.
  pose proof (partition_first sep a b Ha) as H1.
  rewrite Heq, (partition_first sep a' b' Ha') in H1.
  by injection H1 as <- <-.
Qed.

(** X20: the address of a DELETE request names its endpoint.  For library
    item ids without a slash, two requests of one client go to the same
    address only if they name the same item, or the same episode of the same
    item. *)
Theorem delete_urls_are_unambiguous (base_url : list ascii)
    (r1 r2 : DeleteRequest) :
  "/"%char ∉ chars (target r1) →
  "/"%char ∉ chars (target r2) →
  url base_url (dr_endpoint r1) = url base_url (dr_endpoint r2) →
  dr_endpoint r1 = dr_endpoint r2.
Proof.
  unfold url, target. intros H1 H2 Heq. apply app_inv_head in Heq.
  destruct (dr_endpoint r1) as [l1 e1|l1], (dr_endpoint r2) as [l2 e2|l2];
    cbn in Heq.
  - injection Heq as Heq.
    apply split_at_first in Heq as [Hl He]; [|done..].
    injection He as He.
    by rewrite (chars_inj _ _ Hl), (chars_inj _ _ He).
  - done.
  - done.
  - injection Heq as Heq. by rewrite (chars_inj _ _ Heq).
Qed.

(** X21: slashes at the end of ABS_URL do not matter: with or without them,
    every request goes to the same address. *)
Theorem trailing_slashes_of_the_base_url_are_dropped
    (base_url slashes : list ascii) (endpoint : Endpoint) :
  Forall (λ c, c = "/"%char) slashes →
  url (base_url ++ slashes) endpoint = url base_url endpoint.
Proof.
  intros Hs. unfold url, client_base_url, rstrip_chars.
  rewrite rstrip_by_drops; [done|].
  eapply Forall_impl; [exact Hs|]. intros c ->. done.
Qed.
End UrlFacts.

Lemma delete_urls_are_unambiguous_witness :
  PodcastEpisode "pod1" "e1" = PodcastEpisode "pod1" "e1".
Proof.
  apply (delete_urls_are_unambiguous (Settings.chars "http://abs:13378/")
           {| dr_endpoint := PodcastEpisode "pod1" "e1";
              dr_params := [("hard", "1")] |}
           {| dr_endpoint := PodcastEpisode "pod1" "e1"; dr_params := [] |}).
  - apply (bool_decide_unpack _). vm_compute. exact I.
  - apply (bool_decide_unpack _). vm_compute. exact I.
  - reflexivity.
Defined.

Lemma trailing_slashes_of_the_base_url_are_dropped_witness :
  Url.url (Settings.chars "http://abs:13378" ++ Settings.chars "//")
    (LibraryItem "book1")
  = Url.url (Settings.chars "http://abs:13378") (LibraryItem "book1").
Proof.
  apply (trailing_slashes_of_the_base_url_are_dropped
           (Settings.chars "http://abs:13378") (Settings.chars "//")).
  by repeat constructor.
Defined.
